(** * Enrichment pipeline of the Reddit minerals scraper (enrich_data.py)

    A shallow embedding of [src/enrich_data.py]: the run counters
    ([ProcessingStats]), the rate governor ([EfficientRateLimiter]), the
    prompt builder ([clean_text], [create_analysis_prompt]), the response
    interpreter ([analyze_content]), the checkpoint store
    ([load_enriched_data]) and the engine ([_process_items]).

    Conventions of the embedding.
    - A Python [str] is a Rocq [string]; a character is a code point below
      256 (the Latin-1 range of Python's code points).
    - Python [int] is [Z]; the clock, the quotas and the derived rate are
      [Q]: float arithmetic is read as exact rational arithmetic.
    - A Python dict with string keys is an association list in insertion
      order; the enriched set (a dict keyed by hashable values) is a [gmap].
    - Effects (clock, sleeps, rate window, API calls, files, diagnostics)
      live in an explicit [World]; a computation is a function from a world
      to an outcome and a new world.
    - What the program cannot decide is left to the environment: the
      answers of the API, the parser and the serialiser, the texts that the
      UTF-8 codec of an output file encodes, and the order in which the
      futures of the worker pool complete. *)

From Stdlib Require Import ZArith QArith Qcanon Lqa Lia Ascii String List Bool.
From stdpp Require Import gmap strings list.

Local Open Scope string_scope.
Local Open Scope Z_scope.

(* ===================================================================== *)
(** * Part I: the embedding                                               *)
(* ===================================================================== *)

(** ** Python strings *)

Definition chr (n : nat) : string := String (ascii_of_nat n) EmptyString.

(** Line feed and the double quote, which have no literal spelling. *)
Definition nl : string := chr 10.
Definition dq : string := chr 34.

(** [str.isspace] on one code point below 256: this is the class behind
    both [str.strip()] and the regular-expression escape [\s] on [str]
    patterns. *)
Definition is_space (c : ascii) : bool :=
  let n := N_of_ascii c in
  ((9 <=? n) && (n <=? 13) || (28 <=? n) && (n <=? 32) || (n =? 133) || (n =? 160))%N.

Definition non_space (c : ascii) : bool := negb (is_space c).

(** [str.lower] on one code point below 256. *)
Definition lower_char (c : ascii) : ascii :=
  let n := N_of_ascii c in
  if ((65 <=? n) && (n <=? 90) || (192 <=? n) && (n <=? 222) && negb (n =? 215))%N
  then ascii_of_N (n + 32) else c.

Fixpoint lower (s : string) : string :=
  match s with
  | EmptyString => EmptyString
  | String c s' => String (lower_char c) (lower s')
  end.

(** [len(s)] *)
Definition len (s : string) : Z := Z.of_nat (String.length s).

(** [s[n:]] and [s[:n]] for a non-negative [n]. *)
Fixpoint str_drop (n : nat) (s : string) : string :=
  match n, s with
  | S k, String _ s' => str_drop k s'
  | _, _ => s
  end.

Fixpoint str_take (n : nat) (s : string) : string :=
  match n, s with
  | S k, String c s' => String c (str_take k s')
  | _, _ => EmptyString
  end.

(** Length of the longest prefix whose characters all satisfy [p]. *)
Fixpoint span_len (p : ascii -> bool) (s : string) : nat :=
  match s with
  | String c s' => if p c then S (span_len p s') else O
  | EmptyString => O
  end.

(** [p] is a prefix of [s], comparing characters after [str.lower]. *)
Fixpoint prefix_ci (p s : string) : bool :=
  match p, s with
  | EmptyString, _ => true
  | String a p', String b s' =>
      Ascii.eqb (lower_char a) (lower_char b) && prefix_ci p' s'
  | String _ _, EmptyString => false
  end.

(** [sub in s] for two strings. *)
Fixpoint str_contains (sub s : string) : bool :=
  String.prefix sub s ||
  match s with
  | EmptyString => false
  | String _ s' => str_contains sub s'
  end.

(** [s.lstrip()], [s.rstrip()] and [s.strip()] with no argument. *)
Fixpoint lstrip (s : string) : string :=
  match s with
  | String c s' => if is_space c then lstrip s' else s
  | EmptyString => EmptyString
  end.

Fixpoint rstrip (s : string) : string :=
  match s with
  | EmptyString => EmptyString
  | String c s' =>
      match rstrip s' with
      | EmptyString => if is_space c then EmptyString else String c EmptyString
      | r => String c r
      end
  end.

Definition strip (s : string) : string := rstrip (lstrip s).

(** ** Regular-expression substitution

    [re.sub(pattern, repl, text)] for a pattern that never matches the
    empty string: scanning left to right, the leftmost match at each
    position is replaced and scanning resumes after it. The pattern is
    given by its matcher: [m s] is the length of the match starting at the
    head of [s], if there is one. [skip] counts the characters of the
    current match still to be consumed. *)
Fixpoint re_sub_from (m : string -> option nat) (repl : string)
    (skip : nat) (s : string) : string :=
  match s with
  | EmptyString => EmptyString
  | String c s' =>
      match skip with
      | S k => re_sub_from m repl k s'
      | O =>
          match m s with
          | Some (S k) => repl ++ re_sub_from m repl k s'
          | _ => String c (re_sub_from m repl O s')
          end
      end
  end.

Definition re_sub (m : string -> option nat) (repl s : string) : string :=
  re_sub_from m repl O s.

(** [http[s]?://\S+]: all characters of the two literal heads are
    non-space and [\S+] is greedy, so a match at a position is the whole
    run of non-space characters starting there, provided the run starts
    with one of the heads and goes on for at least one more character. *)
Definition url_match (s : string) : option nat :=
  let run := span_len non_space s in
  if String.prefix "http://" s && (7 <? run)%nat
     || String.prefix "https://" s && (8 <? run)%nat
  then Some run else None.

(** [\s+]: the maximal run of whitespace at a position. *)
Definition ws_match (s : string) : option nat :=
  match span_len is_space s with
  | O => None
  | n => Some n
  end.

(** [\[deleted\]|\[removed\]] with [re.IGNORECASE]. *)
Definition marker_match (s : string) : option nat :=
  if prefix_ci "[deleted]" s || prefix_ci "[removed]" s then Some 9%nat else None.

(** [re.search]-style occurrence: the pattern matches at some position. *)
Fixpoint occurs (m : string -> option nat) (s : string) : bool :=
  bool_decide (is_Some (m s)) ||
  match s with
  | EmptyString => false
  | String _ s' => occurs m s'
  end.

(** ** Prompt builder: [clean_text] (lines 153-159) *)

Definition clean_text (text : string) : string :=
  match text with
  | EmptyString => EmptyString
  | _ =>
      let text := re_sub url_match EmptyString text in
      let text := re_sub ws_match " " text in
      let text := re_sub marker_match EmptyString text in
      str_take 3000 (strip text)
  end.

(** Every maximal run of whitespace is one space character. *)
Fixpoint ws_collapsed (s : string) : bool :=
  match s with
  | EmptyString => true
  | String a s' =>
      (non_space a
       || Ascii.eqb a " " &&
          match s' with
          | String b _ => non_space b
          | EmptyString => true
          end)
      && ws_collapsed s'
  end.


(** ** Auxiliary notions used by the proofs about [clean_text] *)



(** ** Run counters: [ProcessingStats] (lines 29-53) *)

Record ProcessingStats := mkStats {
  total_processed : Z;
  successful : Z;
  failed : Z;
  blocked : Z;
  skipped : Z
}.

Definition new_stats : ProcessingStats := mkStats 0 0 0 0 0.

Definition increment (is_successful is_failed is_blocked : bool)
    (st : ProcessingStats) : ProcessingStats :=
  {| total_processed := total_processed st + 1;
     successful := if is_successful then successful st + 1 else successful st;
     failed := if is_failed then failed st + 1 else failed st;
     blocked := if is_blocked then blocked st + 1 else blocked st;
     skipped := skipped st |}.

Definition add_skipped (count : Z) (st : ProcessingStats) : ProcessingStats :=
  {| total_processed := total_processed st;
     successful := successful st;
     failed := failed st;
     blocked := blocked st;
     skipped := skipped st + count |}.

Definition total_attempted (st : ProcessingStats) : Z :=
  successful st + failed st + blocked st.

Definition success_rate (st : ProcessingStats) : Q :=
  (inject_Z (successful st) / inject_Z (Z.max (total_attempted st) 1) * 100)%Q.

(** Counters start at zero and are only ever incremented. *)
Definition stats_ok (st : ProcessingStats) : Prop :=
  0 <= total_processed st /\ 0 <= successful st /\ 0 <= failed st /\
  0 <= blocked st /\ 0 <= skipped st.

(** ** JSON values, as [json.loads] builds them *)

#[warnings="-register-all"]
Inductive json : Type :=
  | JNull
  | JBool (b : bool)
  | JInt (z : Z)
  | JFloat (q : Qc)
  | JStr (s : string)
  | JArr (l : list json)
  | JObj (d : list (string * json)).

(** Dict operations on an association list in insertion order. *)
Fixpoint dict_get (k : string) (d : list (string * json)) : option json :=
  match d with
  | [] => None
  | (k', v) :: d' => if String.eqb k k' then Some v else dict_get k d'
  end.

Definition dict_has (k : string) (d : list (string * json)) : bool :=
  match dict_get k d with Some _ => true | None => false end.

(** [d[k] = v]: an existing key keeps its place. *)
Fixpoint dict_set (k : string) (v : json) (d : list (string * json))
    : list (string * json) :=
  match d with
  | [] => [(k, v)]
  | (k', v') :: d' =>
      if String.eqb k k' then (k', v) :: d' else (k', v') :: dict_set k v d'
  end.

Definition dict_keys (d : list (string * json)) : list string := map fst d.

(** Truth value of a JSON value in a condition. *)
Definition py_truthy (v : json) : bool :=
  match v with
  | JNull => false
  | JBool b => b
  | JInt z => negb (z =? 0)
  | JFloat q => negb (Qeq_bool q 0)
  | JStr s => negb (String.eqb s EmptyString)
  | JArr l => match l with [] => false | _ => true end
  | JObj d => match d with [] => false | _ => true end
  end.

Definition json_is_str (s : string) (v : json) : bool :=
  match v with JStr s' => String.eqb s' s | _ => false end.

(** Keys of a Python dict: [None], numbers by value ([True == 1 == 1.0]
    share a slot) and strings. Lists and dicts are unhashable. *)
Inductive pykey : Type :=
  | KNone
  | KNum (q : Qc)
  | KStr (s : string).

Definition key_of (v : json) : option pykey :=
  match v with
  | JNull => Some KNone
  | JBool b => Some (KNum (Q2Qc (if b then 1 else 0)))
  | JInt z => Some (KNum (Q2Qc (inject_Z z)))
  | JFloat q => Some (KNum q)
  | JStr s => Some (KStr s)
  | JArr _ | JObj _ => None
  end.

Definition pykey_encode (k : pykey) : unit + Qc + string :=
  match k with
  | KNone => inl (inl tt)
  | KNum q => inl (inr q)
  | KStr s => inr s
  end.

Definition pykey_decode (x : unit + Qc + string) : pykey :=
  match x with
  | inl (inl _) => KNone
  | inl (inr q) => KNum q
  | inr s => KStr s
  end.

#[global] Instance pykey_eq_dec : EqDecision pykey.
Proof. solve_decision. Defined.

#[global] Instance pykey_countable : Countable pykey.
Proof.
  apply (inj_countable' pykey_encode pykey_decode). intros []; reflexivity.
Defined.

(** ** Exceptions and computations *)

Inductive exn_class : Type :=
  | KeyError | IndexError | TypeError | ValueError | AttributeError
  | JSONDecodeError | RuntimeError.

Record exn := mkExn { exn_cls : exn_class; exn_msg : string }.

Definition is_json_decode_error (e : exn) : bool :=
  match exn_cls e with JSONDecodeError => true | _ => false end.

(** How a call ends: with a value, with an exception, or not within the
    iterations allotted to a blocking loop. *)
Inductive outcome (A : Type) : Type :=
  | Ok (a : A)
  | Raise (e : exn)
  | Blocked.
Arguments Ok {A} a.
Arguments Raise {A} e.
Arguments Blocked {A}.

(** The rate governor's two windows and its limits after the safety
    margin (lines 57-62). *)
Record EfficientRateLimiter := mkLimiter {
  rpm_limit : Q;
  tpm_limit : Q;
  request_timestamps : list Q;
  token_counts : list (Q * Z)
}.

(** Diagnostics of the engine, one per item (lines 337-347) and the
    notice that nothing is left to do (line 307). *)
Inductive log_entry : Type :=
  | LogNothingNew (item_type : string)
  | LogBlocked (item_id : string)
  | LogSaved (item_id : string)
  | LogFailedAnalysis (item_id : string)
  | LogException (item_id : string) (e : exn).

Record World := mkWorld {
  now : Q;
  rate_limiter : EfficientRateLimiter;
  sleeps : list Q;
  api_calls : list string;
  files : gmap string string;
  opened : list string;
  journal : list log_entry
}.

Definition M (A : Type) : Type := World -> outcome A * World.

#[global] Instance M_ret : MRet M := fun A a w => (Ok a, w).

#[global] Instance M_bind : MBind M := fun A B f m w =>
  match m w with
  | (Ok a, w') => f a w'
  | (Raise e, w') => (Raise e, w')
  | (Blocked, w') => (Blocked, w')
  end.

Definition raise {A} (c : exn_class) (msg : string) : M A :=
  fun w => (Raise (mkExn c msg), w).

(** A bare [raise] in a handler. *)
Definition reraise {A} (e : exn) : M A := fun w => (Raise e, w).

(** [try: body except Exception as e: handler e] *)
Definition try_except {A} (body : M A) (handler : exn -> M A) : M A :=
  fun w =>
    match body w with
    | (Raise e, w') => handler e w'
    | r => r
    end.

Definition set_now (t : Q) (w : World) : World :=
  mkWorld t (rate_limiter w) (sleeps w) (api_calls w) (files w) (opened w) (journal w).

Definition set_rate_limiter (r : EfficientRateLimiter) (w : World) : World :=
  mkWorld (now w) r (sleeps w) (api_calls w) (files w) (opened w) (journal w).

Definition set_sleeps (l : list Q) (w : World) : World :=
  mkWorld (now w) (rate_limiter w) l (api_calls w) (files w) (opened w) (journal w).

Definition set_api_calls (l : list string) (w : World) : World :=
  mkWorld (now w) (rate_limiter w) (sleeps w) l (files w) (opened w) (journal w).

Definition set_files (f : gmap string string) (w : World) : World :=
  mkWorld (now w) (rate_limiter w) (sleeps w) (api_calls w) f (opened w) (journal w).

Definition set_opened (l : list string) (w : World) : World :=
  mkWorld (now w) (rate_limiter w) (sleeps w) (api_calls w) (files w) l (journal w).

Definition set_journal (l : list log_entry) (w : World) : World :=
  mkWorld (now w) (rate_limiter w) (sleeps w) (api_calls w) (files w) (opened w) l.

Definition get_rate_limiter : M EfficientRateLimiter :=
  fun w => (Ok (rate_limiter w), w).

Definition put_rate_limiter (r : EfficientRateLimiter) : M unit :=
  fun w => (Ok tt, set_rate_limiter r w).

(** [time.time()] *)
Definition time_time : M Q := fun w => (Ok (now w), w).

(** [time.sleep(d)]: refuses a negative duration, else the clock moves on
    by [d]. The durations asked for are kept, oldest first. *)
Definition time_sleep (d : Q) : M unit :=
  fun w =>
    if Qle_bool 0 d
    then (Ok tt, set_sleeps (sleeps w ++ [d])%list (set_now (now w + d)%Q w))
    else (Raise (mkExn ValueError "sleep length must be non-negative"), w).

(** Time that passes outside of the program's own sleeps. *)
Definition elapse (d : Q) : M unit :=
  fun w => (Ok tt, set_now (now w + d)%Q w).

Definition logger (e : log_entry) : M unit :=
  fun w => (Ok tt, set_journal (journal w ++ [e])%list w).

(** ** Rate governor: [EfficientRateLimiter] (lines 55-90) *)

Definition Qltb (x y : Q) : bool := negb (Qle_bool y x).

(** [__init__(rpm_limit, tpm_limit)] *)
Definition new_rate_limiter (rpm tpm : Z) : EfficientRateLimiter :=
  mkLimiter (inject_Z rpm * 0.9)%Q (inject_Z tpm * 0.9)%Q [] [].

(** [EfficientRateLimiter()], as the enricher builds it (line 97). *)
Definition default_rate_limiter : EfficientRateLimiter :=
  new_rate_limiter 800 900000.

Definition sum_tokens (tcs : list (Q * Z)) : Z :=
  fold_right (fun tc acc => snd tc + acc) 0 tcs.

(** One pass of the [while True] body (lines 68-90): either the request is
    recorded and the loop ends ([Some tt]), or the caller has slept and the
    loop goes round again ([None]). *)
Definition wait_pass (estimated_tokens : Z) : M (option unit) :=
  current_time ← time_time;
  rl ← get_rate_limiter;
  let one_minute_ago := (current_time - 60)%Q in
  let rts := List.filter (fun t => Qltb one_minute_ago t) (request_timestamps rl) in
  let tcs := List.filter (fun tc => Qltb one_minute_ago (fst tc)) (token_counts rl) in
  _ ← put_rate_limiter (mkLimiter (rpm_limit rl) (tpm_limit rl) rts tcs);
  if Qle_bool (rpm_limit rl) (inject_Z (Z.of_nat (length rts))) then
    match rts with
    | [] => raise IndexError "list index out of range"
    | oldest_request_time :: _ =>
        let wait_time := (60 - (current_time - oldest_request_time) + 0.1)%Q in
        _ ← time_sleep wait_time;
        mret None
    end
  else
    let current_tpm := sum_tokens tcs in
    if Qle_bool (tpm_limit rl) (inject_Z (current_tpm + estimated_tokens)) then
      match tcs with
      | [] => raise IndexError "list index out of range"
      | (oldest_token_time, _) :: _ =>
          let wait_time := (60 - (current_time - oldest_token_time) + 0.1)%Q in
          _ ← time_sleep wait_time;
          mret None
      end
    else
      _ ← put_rate_limiter
            (mkLimiter (rpm_limit rl) (tpm_limit rl)
               (rts ++ [current_time])%list
               (tcs ++ [(current_time, estimated_tokens)])%list);
      mret (Some tt).

(** [wait_if_needed]: the loop, for at most [fuel] passes. The lock held
    around it makes the whole call one step of the world. *)
Fixpoint wait_if_needed (fuel : nat) (estimated_tokens : Z) : M unit :=
  match fuel with
  | O => fun w => (Blocked, w)
  | S fuel' =>
      r ← wait_pass estimated_tokens;
      match r with
      | Some _ => mret tt
      | None => wait_if_needed fuel' estimated_tokens
      end
  end.

(** A sequence of admissions by concurrent callers, serialised by the
    lock: before each one some time passes, and each is followed for a
    number of passes of its own (so the world is seen between any two
    passes as well); a call that raises leaves the next caller the world as
    it is then. *)
Fixpoint run_admissions (calls : list (nat * (Q * Z))) (w : World) : World :=
  match calls with
  | [] => w
  | (fuel, (d, estimated_tokens)) :: rest =>
      run_admissions rest
        (snd ((_ ← elapse d; wait_if_needed fuel estimated_tokens) w))
  end.

(** Entries of a window still inside the trailing 60 seconds at time [t]. *)
Definition in_window (t : Q) (stamps : list Q) : list Q :=
  List.filter (fun x => Qltb (t - 60)%Q x) stamps.

(** The derived metric in the specification's words: the plain ratio. *)
Definition success_ratio_spec (st : ProcessingStats) : Q :=
  (inject_Z (successful st) / inject_Z (total_attempted st))%Q.

(** The request window after the safety margin, as a count. *)
Definition within_request_limit (rl : EfficientRateLimiter) (stamps : list Q) : Prop :=
  (inject_Z (Z.of_nat (length stamps)) <= rpm_limit rl)%Q.

(** The request window is less than one entry above the limit after the
    safety margin: within the limit when that is a whole number, and
    within the limit rounded up when it is not. *)
Definition under_request_ceiling (rl : EfficientRateLimiter) (stamps : list Q) : Prop :=
  (inject_Z (Z.of_nat (length stamps)) < rpm_limit rl + 1)%Q.

(** What an admission leaves behind: the window pruned at time [t], which
    showed headroom under both budgets, and then the new entry. *)
Definition recorded_with_headroom (estimated_tokens : Z)
    (before after : EfficientRateLimiter) : Prop :=
  exists (t : Q) (rts : list Q) (tcs : list (Q * Z)),
    request_timestamps after = (rts ++ [t])%list /\
    token_counts after = (tcs ++ [(t, estimated_tokens)])%list /\
    sublist rts (request_timestamps before) /\
    sublist tcs (token_counts before) /\
    in_window t rts = rts /\
    (inject_Z (Z.of_nat (length rts)) < rpm_limit before)%Q /\
    (inject_Z (sum_tokens tcs + estimated_tokens) < tpm_limit before)%Q.

Definition initial_world : World :=
  mkWorld 0%Q default_rate_limiter [] [] ∅ [] [].

(** Five admissions at the same instant by a governor configured with a
    request limit of 5, which the margin turns into 4.5. *)
Definition five_admissions : World :=
  run_admissions (repeat (1%nat, (0%Q, 1500)) 5)
    (set_rate_limiter (new_rate_limiter 5 900000) initial_world).

(** ** The remote API as the interpreter reads it

    A response carries its candidates, the prompt feedback when the
    attribute is there, and the [text] accessor, which either gives the
    text or raises with a message. *)

Inductive BlockReason : Type :=
  | BLOCK_REASON_UNSPECIFIED
  | SAFETY
  | OTHER.

(** The prompt feedback of a response. The interpreter reads two
    attributes of it: [block_reason] and, for its diagnostic,
    [block_reason_message] (line 217). The second read either gives the
    message or raises an [AttributeError] with a text of its own, as it
    does on a feedback object that has no such attribute. *)
Record PromptFeedback := mkFeedback {
  block_reason : BlockReason;
  block_reason_message : string + string
}.

Record Candidate := mkCandidate { finish_reason_name : string }.

Record Response := mkResponse {
  candidates : list Candidate;
  prompt_feedback : option PromptFeedback;
  text : string + string
}.

(** A call either returns a response or raises an error of the client
    library with its text. The client library has its own error types;
    [json.JSONDecodeError] comes from [json.loads] (line 234) only. *)
Inductive ApiOutcome : Type :=
  | ApiReturn (r : Response)
  | ApiRaise (msg : string).

(** ** Prompt builder: [create_analysis_prompt] (lines 161-186) *)

(** A JSON string literal as the template spells it. *)
Definition quoted (s : string) : string := dq +:+ s +:+ dq.

Fixpoint join (sep : string) (l : list string) : string :=
  match l with
  | [] => EmptyString
  | [x] => x
  | x :: rest => x +:+ sep +:+ join sep rest
  end.

Definition concern_lines : list (list string) :=
  [ ["environment"; "health"; "working conditions"; "child labor"];
    ["pollution"; "deforestation"; "biodiversity loss"; "water contamination"];
    ["air quality"; "government policy"; "corruption"; "economic benefits"];
    ["local employment"; "displacement"; "community rights"; "indigenous rights"];
    ["waste management"; "foreign exploitation"; "sustainability"; "safety regulations"] ].

Definition concern_names : list string := concat concern_lines.

Definition concern_line (names : list string) : string :=
  "    " +:+ join ", " (map (fun n => quoted n +:+ ": 0.0") names).

(** The schema block of the template, one entry per top-level key: the key
    and the rest of its line(s) after the colon. *)
Definition schema_entries (mineral : string) : list (string * string) :=
  [ ("sentiment", quoted "Positive|Negative|Neutral" +:+ ",");
    ("keywords",
       "[" +:+ join ", " (map quoted ["keyword1"; "keyword2"; "keyword3"; "keyword4"; "keyword5"])
       +:+ "],");
    ("themes",
       "[" +:+ join ", " (map quoted ["primary_theme"; "secondary_theme"]) +:+ "],");
    ("concerns_detected",
       "{" +:+ nl +:+ join ("," +:+ nl) (map concern_line concern_lines) +:+ nl +:+ "  },");
    ("mining_stance", quoted "Pro-mining|Anti-mining|Neutral" +:+ ",");
    ("topic_classification",
       quoted "mining-related|environmental|economic|social|technical|other");
    ("relevance_to_" +:+ mineral +:+ "_score", "0.0") ].

(** The keys the schema text demands of the reply. *)
Definition schema_keys (mineral : string) : list string :=
  map fst (schema_entries mineral).

Definition schema_line (e : string * string) : string :=
  "  " +:+ quoted (fst e) +:+ ": " +:+ snd e +:+ nl.

Definition create_analysis_prompt (mineral title body : string) : string :=
  let content :=
    strip ("Title: " +:+ clean_text title +:+ nl +:+ nl +:+ "Body: " +:+ clean_text body) in
  "Analyze the following text about " +:+ mineral +:+
  " mining. Your response MUST be a single, valid JSON object with the exact structure shown below. Do not add any explanatory text or markdown formatting."
  +:+ nl +:+ nl +:+
  "{" +:+ nl +:+
  String.concat EmptyString (map schema_line (schema_entries mineral)) +:+
  "}" +:+ nl +:+ nl +:+
  "Text to analyze:" +:+ nl +:+
  "---" +:+ nl +:+
  content +:+ nl +:+
  "---" +:+ nl.

(** ** Response interpreter (lines 102-116, 144-148, 188-257) *)

Definition default_analysis : list (string * json) :=
  [ ("sentiment", JStr "Neutral");
    ("keywords", JArr []);
    ("themes", JArr []);
    ("concerns_detected", JObj (map (fun n => (n, JFloat (Q2Qc 0))) concern_names));
    ("mining_stance", JStr "Neutral");
    ("topic_classification", JStr "neutral") ].

(** The keys [analyze_content] looks for in a parsed reply (line 235). *)
Definition required_keys : list string := dict_keys default_analysis.

Definition estimate_tokens (text : string) : Z :=
  match text with
  | EmptyString => 0
  | _ => len text / 4
  end.

(** The rest of [s] from the first occurrence of [c] on. *)
Fixpoint from_first (c : ascii) (s : string) : option string :=
  match s with
  | EmptyString => None
  | String a s' => if Ascii.eqb a c then Some s else from_first c s'
  end.

(** [s] up to and including the last occurrence of [c]. *)
Fixpoint through_last (c : ascii) (s : string) : option string :=
  match s with
  | EmptyString => None
  | String a s' =>
      match through_last c s' with
      | Some r => Some (String a r)
      | None => if Ascii.eqb a c then Some (String a EmptyString) else None
      end
  end.

(** [re.search(r'\{.*\}', response_text, re.DOTALL)]: from the first
    opening brace that has a closing brace after it, greedily to the last
    closing brace. *)
Definition extract_json_from_response (response_text : string) : option string :=
  match from_first "{" response_text with
  | Some (String a rest) =>
      match through_last "}" rest with
      | Some r => Some (String a r)
      | None => None
      end
  | _ => None
  end.

Definition create_blocked_analysis (reason : string) : json :=
  let analysis := default_analysis in
  let analysis := dict_set "keywords" (JArr [JStr "content_issue"; JStr reason]) analysis in
  let analysis := dict_set "themes" (JArr [JStr "content_blocked"]) analysis in
  let analysis := dict_set "topic_classification" (JStr "blocked") analysis in
  JObj analysis.

(** [key in v] for a string [key]. *)
Definition py_in (key : string) (v : json) : exn + bool :=
  match v with
  | JObj d => inr (dict_has key d)
  | JArr l => inr (existsb (json_is_str key) l)
  | JStr s => inr (str_contains key s)
  | _ => inl (mkExn TypeError "argument is not iterable")
  end.

(** [all(key in v for key in keys)] *)
Fixpoint all_keys_in (keys : list string) (v : json) : exn + bool :=
  match keys with
  | [] => inr true
  | key :: rest =>
      match py_in key v with
      | inl e => inl e
      | inr false => inr false
      | inr true => all_keys_in rest v
      end
  end.

Definition lift {A} (r : exn + A) : M A :=
  fun w => match r with inl e => (Raise e, w) | inr a => (Ok a, w) end.

(** How one pass of the [for attempt] body ends: with [return v], or by
    going on to the next attempt. *)
Inductive flow : Type :=
  | Return (v : json)
  | Next.

Definition is_rate_limit_error (e : exn) : bool :=
  let error_str := lower (exn_msg e) in
  existsb (fun term => str_contains term error_str) ["429"; "quota"; "rate limit"].

Definition has_block_reason (response : Response) : bool :=
  match prompt_feedback response with
  | Some pf =>
      match block_reason pf with
      | BLOCK_REASON_UNSPECIFIED => false
      | _ => true
      end
  | None => false
  end.

Definition normal_finish (name : string) : bool :=
  String.eqb name "STOP" || String.eqb name "MAX_TOKENS".

Section Interpreter.

(** [json.loads]: the parsed value, or the exception it raises. *)
Variable json_loads : string -> exn + json.

(** [model.generate_content]: what the [k]-th call of the run, made with
    a given prompt, ends with, and how long it takes. *)
Variable generate_content : nat -> string -> ApiOutcome * Q.

(** Passes of the governor's waiting loop that the run is followed for. *)
Variable fuel : nat.

Definition api_call (prompt : string) : M Response :=
  fun w =>
    let '(out, took) := generate_content (length (api_calls w)) prompt in
    let w' := set_api_calls (api_calls w ++ [prompt])%list (set_now (now w + took)%Q w) in
    match out with
    | ApiReturn r => (Ok r, w')
    | ApiRaise msg => (Raise (mkExn RuntimeError msg), w')
    end.

Definition response_text (response : Response) : M string :=
  match text response with
  | inl t => mret t
  | inr msg => raise ValueError msg
  end.

(** [if attempt < max_retries - 1: time.sleep(5); continue] and, failing
    that, [return self.create_blocked_analysis(reason)]. *)
Definition retry_or_give_up (attempt max_retries : Z) (reason : string) : M flow :=
  if attempt <? max_retries - 1
  then (_ ← time_sleep 5; mret Next)
  else mret (Return (create_blocked_analysis reason)).

(** [response.prompt_feedback.block_reason_message], read for the
    diagnostic of line 217. *)
Definition prompt_block_message (response : Response) : M string :=
  match prompt_feedback response with
  | Some pf =>
      match block_reason_message pf with
      | inl message => mret message
      | inr msg => raise AttributeError msg
      end
  | None => raise AttributeError "'GenerateContentResponse' object has no attribute 'prompt_feedback'"
  end.

(** The [try] block (lines 209-239). The diagnostic of line 217 is built
    before the [return] of line 218, so the read it makes is part of the
    block. A match of the brace pattern holds at least the two braces, so
    the test [if not json_text] fails exactly when there is no match. *)
Definition attempt_try (prompt : string) (attempt max_retries : Z) : M flow :=
  response ← api_call prompt;
  match candidates response with
  | [] =>
      if has_block_reason response
      then (_ ← prompt_block_message response;
            mret (Return (create_blocked_analysis "prompt_blocked")))
      else retry_or_give_up attempt max_retries "no_candidates"
  | candidate :: _ =>
      if negb (normal_finish (finish_reason_name candidate))
      then mret (Return (create_blocked_analysis
                           ("safety_blocked_" +:+ lower (finish_reason_name candidate))))
      else
        response_text ← response_text response;
        match extract_json_from_response response_text with
        | None => retry_or_give_up attempt max_retries "no_json"
        | Some json_text =>
            result ← lift (json_loads json_text);
            complete ← lift (all_keys_in required_keys result);
            if negb (complete : bool)
            then retry_or_give_up attempt max_retries "invalid_structure"
            else mret (Return result)
        end
  end.

(** The two [except] clauses (lines 241-255). *)
Definition attempt_except (attempt max_retries : Z) (e : exn) : M flow :=
  if is_json_decode_error e
  then retry_or_give_up attempt max_retries "json_error"
  else
    if is_rate_limit_error e then
      let wait_time := Z.min 300 (60 * 2 ^ attempt) in
      _ ← time_sleep (inject_Z wait_time);
      mret Next
    else
      if attempt <? max_retries - 1
      then (_ ← time_sleep (inject_Z (10 * 2 ^ attempt)); mret Next)
      else mret (Return (create_blocked_analysis "api_error")).

Definition attempt_body (prompt : string) (attempt max_retries : Z) : M flow :=
  try_except (attempt_try prompt attempt max_retries)
             (attempt_except attempt max_retries).

(** [for attempt in range(max_retries)] from [attempt] on, with [n]
    attempts left, and the [return] after the loop (line 257). *)
Fixpoint attempt_loop (n : nat) (prompt : string) (attempt max_retries : Z) : M json :=
  match n with
  | O => mret (create_blocked_analysis "max_retries_exceeded")
  | S n' =>
      f ← attempt_body prompt attempt max_retries;
      match f with
      | Return v => mret v
      | Next => attempt_loop n' prompt (attempt + 1) max_retries
      end
  end.

Definition analyze_content (prompt : string) (max_retries : Z) : M json :=
  let estimated_tokens := estimate_tokens prompt + 600 in
  _ ← wait_if_needed fuel estimated_tokens;
  attempt_loop (Z.to_nat max_retries) prompt 0 max_retries.

End Interpreter.

(** A parser in the sense of [json.loads]: a text that starts with an
    opening brace parses to an object or not at all. *)
Definition yields_objects (json_loads : string -> exn + json) : Prop :=
  forall a rest v, json_loads (String a rest) = inr v ->
    a = "{"%char -> exists d, v = JObj d.

(** ** Checkpoint store: [load_enriched_data] (lines 260-279) *)

(** The lines of a file opened in text mode: a line ends at a line feed, a
    carriage return or the pair of them. The terminators are left out
    ([strip] drops them anyway); [after_cr] tells that the previous
    character was a carriage return. *)
Fixpoint file_lines_from (after_cr : bool) (cur s : string) : list string :=
  match s with
  | EmptyString => match cur with EmptyString => [] | _ => [cur] end
  | String c s' =>
      if Ascii.eqb c (ascii_of_nat 10) then
        if after_cr then file_lines_from false cur s'
        else cur :: file_lines_from false EmptyString s'
      else if Ascii.eqb c (ascii_of_nat 13) then
        cur :: file_lines_from true EmptyString s'
      else file_lines_from false (cur +:+ String c EmptyString) s'
  end.

Definition file_lines (content : string) : list string :=
  file_lines_from false EmptyString content.

(** [v[key]] for a string [key]. *)
Definition py_getitem (key : string) (v : json) : exn + json :=
  match v with
  | JObj d =>
      match dict_get key d with
      | Some x => inr x
      | None => inl (mkExn KeyError key)
      end
  | JArr _ => inl (mkExn TypeError "list indices must be integers or slices, not str")
  | JStr _ => inl (mkExn TypeError "string indices must be integers, not 'str'")
  | _ => inl (mkExn TypeError "object is not subscriptable")
  end.

(** [d[k] = item] on the enriched set: the key must be hashable. *)
Definition enriched_set (k item : json) (d : gmap pykey json) : exn + gmap pykey json :=
  match key_of k with
  | Some key => inr (<[key := item]> d)
  | None => inl (mkExn TypeError "unhashable type")
  end.

Section Checkpoint.

Variable json_loads : string -> exn + json.

(** The body of the [for] loop, for one line. *)
Definition load_line (enriched_data : gmap pykey json) (line : string)
    : M (gmap pykey json) :=
  let line := strip line in
  match line with
  | EmptyString => mret enriched_data
  | _ =>
      try_except
        (item ← lift (json_loads line);
         has_id ← lift (py_in "id" item);
         if (has_id : bool)
         then (item_id ← lift (py_getitem "id" item);
               lift (enriched_set item_id item enriched_data))
         else mret enriched_data)
        (fun e =>
           if is_json_decode_error e then mret enriched_data
           else reraise e)
  end.

Fixpoint load_lines (enriched_data : gmap pykey json) (lines : list string)
    : M (gmap pykey json) :=
  match lines with
  | [] => mret enriched_data
  | line :: rest =>
      enriched_data ← load_line enriched_data line;
      load_lines enriched_data rest
  end.

Definition load_enriched_data (file_path : string) : M (gmap pykey json) :=
  fun w =>
    match files w !! file_path with
    | None => (Ok ∅, w)
    | Some content => load_lines ∅ (file_lines content) w
    end.

End Checkpoint.

(** ** Enrichment engine (lines 281-347)

    A work item is a mapping from field names to strings: the identifier
    and the text fields.

    The pool. Every item to process is handed to a worker (line 319) and
    the loop of line 323 takes the futures in the order in which they
    complete, which is for the pool to decide and need not be the order
    of submission: [pick] names, among the futures still pending, the one
    that completes next. The counters, the output file and the engine's
    diagnostics are touched by that loop alone, one future at a time; the
    workers share the governor, which admits them one at a time under its
    lock. The embedding follows a worker from its admission to its result
    as one step, taken when its future completes. *)

(** [as_completed(futures)], for [n] futures: the pending ones in the
    order in which they complete. *)
Fixpoint as_completed {A} (pick : list A -> nat) (n : nat) (pending : list A) : list A :=
  match n, pending with
  | S n', first :: _ =>
      let i := (pick pending mod length pending)%nat in
      default first (pending !! i) :: as_completed pick n' (delete i pending)
  | _, _ => []
  end.

Definition open_append (path : string) : M unit :=
  fun w =>
    (Ok tt,
     set_opened (opened w ++ [path])%list
       (match files w !! path with
        | Some _ => w
        | None => set_files (<[path := EmptyString]> (files w)) w
        end)).

(** What the codec of a file opened with [encoding='utf-8'] raises on a
    text it cannot encode: a [UnicodeEncodeError], which is a
    [ValueError]. *)
Definition encode_error : exn :=
  mkExn ValueError "'utf-8' codec can't encode character: surrogates not allowed".

(** [f.write(data)] on a file opened for writing as UTF-8 text. A text of
    the program can hold code points that the codec refuses (a lone
    surrogate, which [json.loads] accepts in a reply and
    [json.dumps(..., ensure_ascii=False)] hands on); the strings of the
    embedding do not tell, so [encodable] does: the write of a text that
    is not encodable raises and leaves the file as it is. *)
Definition file_write (encodable : string -> bool) (path data : string) : M unit :=
  fun w =>
    if encodable data
    then (Ok tt,
          set_files (<[path := default EmptyString (files w !! path) +:+ data]> (files w)) w)
    else (Raise encode_error, w).

(** [item['id']] *)
Definition item_id_of (item : gmap string string) : M string :=
  match item !! "id" with
  | Some i => mret i
  | None => raise KeyError "'id'"
  end.

(** [item.get(key, '')] *)
Definition item_get (item : gmap string string) (key : string) : string :=
  default EmptyString (item !! key).

(** [[item for item in items if item['id'] not in enriched_items]] *)
Fixpoint select_new (items : list (gmap string string))
    (enriched_items : gmap pykey json) : M (list (gmap string string)) :=
  match items with
  | [] => mret []
  | item :: rest =>
      item_id ← item_id_of item;
      selected ← select_new rest enriched_items;
      match enriched_items !! KStr item_id with
      | None => mret (item :: selected)
      | Some _ => mret selected
      end
  end.

(** [analysis.get('topic_classification') == 'blocked'] *)
Definition topic_is_blocked (analysis : json) : exn + bool :=
  match analysis with
  | JObj d =>
      inr (match dict_get "topic_classification" d with
           | Some v => json_is_str "blocked" v
           | None => false
           end)
  | _ => inl (mkExn AttributeError "object has no attribute 'get'")
  end.

Section Engine.

Variable json_loads : string -> exn + json.
Variable generate_content : nat -> string -> ApiOutcome * Q.
Variable fuel : nat.

(** [json.dumps(result_data, ensure_ascii=False)] *)
Variable json_dumps : json -> string.

(** The texts that the codec of the output file encodes. *)
Variable encodable : string -> bool.

(** The future that completes next, as an index into the pending ones. *)
Variable pick : list (gmap string string) -> nat.

Definition _process_single_item (item : gmap string string)
    (item_type mineral : string) : M (string * option json) :=
  item_id ← item_id_of item;
  let '(title, body) :=
    if String.eqb item_type "Post"
    then (item_get item "title", item_get item "selftext")
    else (EmptyString, item_get item "body") in
  let prompt := create_analysis_prompt mineral title body in
  analysis ← analyze_content json_loads generate_content fuel prompt 3;
  if py_truthy analysis
  then mret (item_id, Some (JObj [("id", JStr item_id); ("analysis", analysis)]))
  else mret (item_id, None).

(** The body of the [for future in as_completed(...)] loop for one
    item (lines 324-347): [future.result()] hands over what the worker
    returned or raises what it raised, inside the [try] of line 327, as
    do the write of line 332 and the reads of lines 334-335. *)
Definition collect_result (item : gmap string string) (item_type mineral : string)
    (output_file : string) (stats : ProcessingStats) : M ProcessingStats :=
  let item_id := item_get item "id" in
  try_except
    (r ← _process_single_item item item_type mineral;
     match snd r with
     | Some result_data =>
         _ ← file_write encodable output_file (json_dumps result_data +:+ nl);
         is_blocked ←
           lift (match result_data with
                 | JObj d =>
                     match dict_get "analysis" d with
                     | Some analysis => topic_is_blocked analysis
                     | None => inl (mkExn KeyError "'analysis'")
                     end
                 | _ => inl (mkExn TypeError "object is not subscriptable")
                 end);
         if (is_blocked : bool)
         then (_ ← logger (LogBlocked item_id);
               mret (increment false false true stats))
         else (_ ← logger (LogSaved item_id);
               mret (increment true false false stats))
     | None =>
         _ ← logger (LogFailedAnalysis item_id);
         mret (increment false true false stats)
     end)
    (fun exc =>
       _ ← logger (LogException item_id exc);
       mret (increment false true false stats)).

Fixpoint collect_results (items : list (gmap string string))
    (item_type mineral output_file : string) (stats : ProcessingStats)
    : M ProcessingStats :=
  match items with
  | [] => mret stats
  | item :: rest =>
      stats ← collect_result item item_type mineral output_file stats;
      collect_results rest item_type mineral output_file stats
  end.

Definition _process_items (item_type : string) (items : list (gmap string string))
    (enriched_items : gmap pykey json) (stats : ProcessingStats)
    (mineral mineral_dir : string) : M ProcessingStats :=
  let output_file := mineral_dir +:+ "/" +:+ lower item_type +:+ "s_enriched.jsonl" in
  items_to_process ← select_new items enriched_items;
  match items_to_process with
  | [] =>
      _ ← logger (LogNothingNew item_type);
      mret stats
  | _ =>
      _ ← open_append output_file;
      collect_results
        (as_completed pick (length items_to_process) items_to_process)
        item_type mineral output_file stats
  end.

End Engine.

(** The identifiers the engine has reported on, in order. *)
Definition reported_id (e : log_entry) : option string :=
  match e with
  | LogNothingNew _ => None
  | LogBlocked i | LogSaved i | LogFailedAnalysis i | LogException i _ => Some i
  end.

Definition is_failed_analysis (e : log_entry) : bool :=
  match e with LogFailedAnalysis _ => true | _ => false end.

(** ** Sample environments, used to run the embedding *)

(** A parser that knows one text: a reply with the six fixed keys. *)
Definition sample_reply_text : string := "{six keys}".

Definition sample_reply : json :=
  JObj (dict_set "sentiment" (JStr "Positive") default_analysis).

Definition sample_json_loads (s : string) : exn + json :=
  if String.eqb s sample_reply_text then inr sample_reply
  else if String.eqb s "5" then inr (JInt 5)
  else match s with
       | String "{" _ => inl (mkExn JSONDecodeError "Expecting property name")
       | _ => inl (mkExn JSONDecodeError "Expecting value")
       end.

Definition sample_json_dumps (v : json) : string :=
  match v with
  | JObj (("id", JStr i) :: _) => "{id: " +:+ i +:+ "}"
  | _ => "{}"
  end.

(** A codec that is only given texts it can encode, and one that refuses
    the line of the record of the item ["b"]. *)
Definition every_text : string -> bool := fun _ => true.

Definition all_but_b (data : string) : bool :=
  negb (String.eqb data ("{id: b}" +:+ nl)).

(** A summary encoder that yields two chunks. *)
Definition sample_dump_indent : json -> list string := fun _ => ["{"; "}"].

(** Pools that complete the futures in the order of submission, and in
    the opposite order. *)
Definition first_pending : list (gmap string string) -> nat := fun _ => 0%nat.

Definition last_pending : list (gmap string string) -> nat :=
  fun pending => (length pending - 1)%nat.

Definition ok_response (reply : string) : Response :=
  mkResponse [mkCandidate "STOP"] None (inl reply).

(** APIs that always answer the same way. *)
Definition api_always (out : ApiOutcome) : nat -> string -> ApiOutcome * Q :=
  fun _ _ => (out, 1%Q).

(** A prompt of [n] characters. *)
Fixpoint str_repeat (c : ascii) (n : nat) : string :=
  match n with
  | O => EmptyString
  | S k => String c (str_repeat c k)
  end.

(** ** Auxiliary notions used by the proofs about the interpreter *)

(** The world right after one API call that took [took] seconds. *)
Definition after_call (prompt : string) (took : Q) (w : World) : World :=
  set_api_calls (api_calls w ++ [prompt])%list (set_now (now w + took)%Q w).

(** The world right after a sleep of [d] seconds. *)
Definition after_sleep (d : Q) (w : World) : World :=
  set_sleeps (sleeps w ++ [d])%list (set_now (now w + d)%Q w).

(** A computation that ends with a value satisfying [P], or, when
    [may_raise] allows it, with an exception; it never stays blocked. *)
Definition ends {A} (P : A -> Prop) (may_raise : bool) (m : M A) : Prop :=
  forall w,
    match fst (m w) with
    | Ok a => P a
    | Raise _ => may_raise = true
    | Blocked => False
    end.

(** A computation that leaves a component of the world as it was. *)
Definition keeps {A X} (proj : World -> X) (m : M A) : Prop :=
  forall w, proj (snd (m w)) = proj w.

(** A non-empty dictionary. *)
Definition nonempty_dict (v : json) : Prop := exists d, v = JObj d /\ d <> [].

Definition flow_with (P : json -> Prop) (f : flow) : Prop :=
  match f with
  | Return v => P v
  | Next => True
  end.

(** The reason codes a failure on the last attempt can leave. *)
Definition last_attempt_reason (reason : string) : Prop :=
  In reason ["prompt_blocked"; "no_candidates"; "no_json"; "invalid_structure";
             "json_error"; "api_error"] \/
  exists name, reason = "safety_blocked_" +:+ name.

(** A reply that parsed and has every required key. *)
Definition accepted_reply (json_loads : string -> exn + json) (v : json) : Prop :=
  exists a rest, json_loads (String a rest) = inr v /\ a = "{"%char /\
                 all_keys_in required_keys v = inr true.

(** The key of the schema block that depends on the mineral. *)
Definition relevance_key (mineral : string) : string :=
  "relevance_to_" +:+ mineral +:+ "_score".

(** Replies and errors used to run the interpreter. *)
Definition prompt_refusal : Response :=
  mkResponse []
    (Some (mkFeedback SAFETY (inr "Unknown field for PromptFeedback: block_reason_message")))
    (inr "no text").

(** The same refusal from a client whose feedback carries a message. *)
Definition worded_refusal : Response :=
  mkResponse [] (Some (mkFeedback SAFETY (inl "blocked"))) (inr "no text").

Definition safety_refusal : Response :=
  mkResponse [mkCandidate "SAFETY"] None (inr "no text").

(** The governor as the run keeps it: the default request limit, the two
    windows in step, and at most 720 requests on record. *)
Definition governor_inv (rl : EfficientRateLimiter) : Prop :=
  rpm_limit rl = rpm_limit default_rate_limiter /\
  map fst (token_counts rl) = request_timestamps rl /\
  (length (request_timestamps rl) <= 720)%nat.

(** The prompt's estimated cost leaves room in an empty token window. *)
Definition within_token_budget (prompt : string) (w : World) : Prop :=
  (inject_Z (estimate_tokens prompt + 600) < tpm_limit (rate_limiter w))%Q.

(** Entries of the two windows that a pass at the present time keeps. *)
Definition window_size (w : World) : nat :=
  length (in_window (now w) (request_timestamps (rate_limiter w))) +
  length (List.filter (fun tc => Qltb (now w - 60)%Q (fst tc)) (token_counts (rate_limiter w))).

(** A computation that only appends to a list-valued component of the
    world, and only entries that satisfy [P]. *)
Definition grows {A X} (proj : World -> list X) (P : X -> Prop) (m : M A) : Prop :=
  forall w, exists l, proj (snd (m w)) = (proj w ++ l)%list /\ Forall P l.

(** The prompt the engine builds for an item (lines 284-290). *)
Definition prompt_of (item_type mineral : string) (item : gmap string string) : string :=
  if String.eqb item_type "Post"
  then create_analysis_prompt mineral (item_get item "title") (item_get item "selftext")
  else create_analysis_prompt mineral EmptyString (item_get item "body").

(** The items the engine has to process: those whose identifier is not a
    key of the enriched set. *)
Definition not_enriched (enriched_items : gmap pykey json) (item : gmap string string) : bool :=
  bool_decide (enriched_items !! KStr (item_get item "id") = None).

(** A prompt of 3237600 characters: its estimated cost is the whole token
    budget of the default governor. *)
Definition oversized_prompt : string := str_repeat "x" (N.to_nat 3237600).

(** A computation that maintains an invariant of the world. *)
Definition preserves {A} (I : World -> Prop) (m : M A) : Prop :=
  forall w, I w -> I (snd (m w)).

(** A post with an identifier and a title. *)
Definition sample_item (i title : string) : gmap string string :=
  <["id" := i]> (<["title" := title]> ∅).

(** The lines [load_enriched_data] is written to put up with: blank
    lines, lines that do not parse, and objects, with no identifier or
    with a hashable one. *)
Definition tolerated_line (json_loads : string -> exn + json) (line : string) : Prop :=
  strip line = EmptyString \/
  (exists e, json_loads (strip line) = inl e /\ is_json_decode_error e = true) \/
  (exists d, json_loads (strip line) = inr (JObj d) /\
     (dict_get "id" d = None \/
      exists v k, dict_get "id" d = Some v /\ key_of v = Some k)).

(** The world of a sample run of [analyze_content] on the prompt ["p"]
    after the admission and [k] attempts. *)
Fixpoint sample_after (gen : nat -> string -> ApiOutcome * Q) (k : nat) : World :=
  match k with
  | O => snd (wait_if_needed 1 (estimate_tokens "p" + 600) initial_world)
  | S k' =>
      snd (attempt_body sample_json_loads gen "p" (Z.of_nat k') 3 (sample_after gen k'))
  end.

(** ** Further notions for the properties of the remaining code *)

(** The character [c] occurs in [s]. *)
Fixpoint has_char (c : ascii) (s : string) : bool :=
  match s with
  | EmptyString => false
  | String a s' => Ascii.eqb a c || has_char c s'
  end.


(** Every character of [s] satisfies [p]. *)
Fixpoint all_chars (p : ascii -> bool) (s : string) : bool :=
  match s with
  | EmptyString => true
  | String a s' => p a && all_chars p s'
  end.

(** A character that is no whitespace other than the plain space. *)
Definition plain (c : ascii) : bool := non_space c || Ascii.eqb c " ".

(** [s] does not start with whitespace. *)
Definition starts_clean (s : string) : Prop :=
  match s with
  | String c _ => is_space c = false
  | EmptyString => True
  end.


(** The governor as the enricher builds it and the run keeps it: both
    limits are the default ones, the windows are in step and hold at most
    720 requests. *)
Definition governed (w : World) : Prop :=
  governor_inv (rate_limiter w) /\
  tpm_limit (rate_limiter w) = tpm_limit default_rate_limiter.


(** The record the engine writes for an item (line 295). *)
Definition record (item_id : string) (analysis : json) : json :=
  JObj [("id", JStr item_id); ("analysis", analysis)].

(** The text of a JSON Lines file holding [records], as the engine writes
    it (line 332). *)
Definition jsonl (json_dumps : json -> string) (records : list json) : string :=
  fold_right (fun r text => json_dumps r +:+ nl +:+ text) EmptyString records.

(** From [w] to [w'], [data] was added at the end of the file [path] and
    no other file changed. *)
Definition appends_to (path data : string) (w w' : World) : Prop :=
  (forall p, p <> path -> files w' !! p = files w !! p) /\
  default EmptyString (files w' !! path) = default EmptyString (files w !! path) +:+ data.

(** From [st] to [st'], [n] items were counted, each in one class. *)
Definition counted (n : Z) (st st' : ProcessingStats) : Prop :=
  total_processed st' = total_processed st + n /\
  total_attempted st' = total_attempted st + n /\
  skipped st' = skipped st /\
  successful st <= successful st' /\ failed st <= failed st' /\ blocked st <= blocked st'.

(** The identifier of a record. *)
Definition record_id (r : json) : option string :=
  match r with
  | JObj d => match dict_get "id" d with Some (JStr i) => Some i | _ => None end
  | _ => None
  end.


(** ** What a run of the engine makes of the items it works on *)

(** The engine's work on one item: the item, the number of calls of the
    API made with its prompt, and the analysis that came back. *)
Record handled := mkHandled {
  handled_item : gmap string string;
  handled_calls : nat;
  handled_analysis : json
}.

Definition handled_record (h : handled) : json :=
  record (item_get (handled_item h) "id") (handled_analysis h).

(** The calls of the API made for an item. *)
Definition handled_prompts (item_type mineral : string) (h : handled) : list string :=
  repeat (prompt_of item_type mineral (handled_item h)) (handled_calls h).

(** The line of the item's record can be written to the output file. *)
Definition is_saved (json_dumps : json -> string) (encodable : string -> bool)
    (h : handled) : bool :=
  encodable (json_dumps (handled_record h) +:+ nl).

(** The analysis is a dictionary classified as blocked. *)
Definition blocked_topic (analysis : json) : bool :=
  match topic_is_blocked analysis with
  | inr b => b
  | inl _ => false
  end.

(** The diagnostic for an item whose analysis is a dictionary: saved or
    blocked when its line was written, and the exception of the write
    when it was not. *)
Definition handled_entry (json_dumps : json -> string) (encodable : string -> bool)
    (h : handled) : log_entry :=
  let item_id := item_get (handled_item h) "id" in
  if is_saved json_dumps encodable h
  then if blocked_topic (handled_analysis h) then LogBlocked item_id else LogSaved item_id
  else LogException item_id encode_error.

(** From [st] to [st'], the items [hs] were counted: as successful or
    blocked when the line was written, as failed when it was not. *)
Definition tallied (json_dumps : json -> string) (encodable : string -> bool)
    (hs : list handled) (st st' : ProcessingStats) : Prop :=
  total_processed st' = total_processed st + Z.of_nat (length hs) /\
  successful st'
    = successful st
      + Z.of_nat (length (List.filter
                            (fun h => is_saved json_dumps encodable h
                                      && negb (blocked_topic (handled_analysis h))) hs)) /\
  blocked st'
    = blocked st
      + Z.of_nat (length (List.filter
                            (fun h => is_saved json_dumps encodable h
                                      && blocked_topic (handled_analysis h)) hs)) /\
  failed st'
    = failed st
      + Z.of_nat (length (List.filter
                            (fun h => negb (is_saved json_dumps encodable h)) hs)) /\
  skipped st' = skipped st.

(** A sample run of the engine: two posts, the first of them enriched
    already, and an API that answers with the sample reply. *)
Definition sample_run : outcome ProcessingStats * World :=
  _process_items sample_json_loads
    (api_always (ApiReturn (ok_response sample_reply_text))) 1441
    sample_json_dumps every_text first_pending
    "Post" [sample_item "a" "t"; sample_item "b" "u"]
    (<[KStr "a" := JNull]> ∅) new_stats "gold" "data/gold" initial_world.


(** A second sample run: three posts, the first of them enriched already;
    the pool completes the last future first, and the codec refuses the
    line of the post ["b"]. *)
Definition sample_pool_run : outcome ProcessingStats * World :=
  _process_items sample_json_loads
    (api_always (ApiReturn (ok_response sample_reply_text))) 1441
    sample_json_dumps all_but_b last_pending
    "Post" [sample_item "a" "t"; sample_item "b" "u"; sample_item "c" "v"]
    (<[KStr "a" := JNull]> ∅) new_stats "gold" "data/gold" initial_world.

(** The token window as the governor keeps it: no negative cost on
    record, and a total below the token limit. *)
Definition token_inv (rl : EfficientRateLimiter) : Prop :=
  Forall (fun tc => 0 <= snd tc) (token_counts rl) /\
  (inject_Z (sum_tokens (token_counts rl)) < tpm_limit rl)%Q.

(** What line 74 or line 82 raises when the window it indexes is empty. *)
Definition index_error : exn := mkExn IndexError "list index out of range".


(** What a line of an enriched file contributes to the enriched set: the
    key and the item, for a line that holds an object with a hashable
    identifier. *)
Definition line_record (json_loads : string -> exn + json) (line : string)
    : option (pykey * json) :=
  match strip line with
  | EmptyString => None
  | text =>
      match json_loads text with
      | inr (JObj d) =>
          match dict_get "id" d with
          | Some v =>
              match key_of v with
              | Some k => Some (k, JObj d)
              | None => None
              end
          | None => None
          end
      | _ => None
      end
  end.

(** The line carries the key [k]. *)
Definition line_key (json_loads : string -> exn + json) (k : pykey) (line : string) : Prop :=
  exists item, line_record json_loads line = Some (k, item).

(** A text without line feed or carriage return. *)
Definition no_line_break (s : string) : bool :=
  all_chars (fun c => negb (Ascii.eqb c (ascii_of_nat 10)) &&
                      negb (Ascii.eqb c (ascii_of_nat 13))) s.

(** The serialised record [r] reads back as an object with the identifier
    [i]: it is one non-blank line and parses to such an object. *)
Definition reads_back (json_loads : string -> exn + json) (json_dumps : json -> string)
    (r : json) (i : string) : Prop :=
  no_line_break (json_dumps r) = true /\
  strip (json_dumps r) <> EmptyString /\
  exists d, json_loads (strip (json_dumps r)) = inr (JObj d) /\
            dict_get "id" d = Some (JStr i).

(** A parser for the lines that [sample_json_dumps] writes. *)
Definition sample_record_loads (s : string) : exn + json :=
  if String.prefix "{id: " s && String.eqb (str_drop (String.length s - 1) s) "}"
  then inr (JObj [("id", JStr (str_take (String.length s - 6) (str_drop 5 s)))])
  else inl (mkExn JSONDecodeError "Expecting value").


(** The keys of a set loaded from a file of the engine's lines. *)
Definition ids_of (records : list json) (k : pykey) : Prop :=
  exists r i, In r records /\ record_id r = Some i /\ k = KStr i.


(** ** Orchestration: [process_mineral] and [_create_summary] (lines 350-426)

    The three exits of [process_mineral] are told apart by the line they
    log; the embedding hands that back. Lines logged at level info are
    left out. *)

Inductive mineral_report : Type :=
  | NoDirectory
  | NoSourceData
  | Completed.

(** [open(path, "w")]: the file is there and empty. *)
Definition open_write (path : string) : M unit :=
  fun w =>
    (Ok tt, set_opened (opened w ++ [path])%list (set_files (<[path := EmptyString]> (files w)) w)).

(** [json.dump(obj, f, ...)]: the encoder yields the text in chunks and
    each chunk is written in turn; a chunk that the codec refuses ends
    the writing with what was written before it. *)
Fixpoint write_chunks (encodable : string -> bool) (path : string) (chunks : list string)
    : M unit :=
  match chunks with
  | [] => mret tt
  | chunk :: rest =>
      _ ← file_write encodable path chunk;
      write_chunks encodable path rest
  end.

(** [path.exists()] for a file. *)
Definition path_exists (path : string) : M bool :=
  fun w => (Ok (bool_decide (is_Some (files w !! path))), w).

(** [len(d)] for the enriched set. *)
Definition dict_len (d : gmap pykey json) : Z := Z.of_nat (size d).

Section Orchestrator.

Variable json_loads : string -> exn + json.
Variable generate_content : nat -> string -> ApiOutcome * Q.
Variable fuel : nat.
Variable json_dumps : json -> string.
Variable encodable : string -> bool.
Variable pick : list (gmap string string) -> nat.

(** [Path.is_dir] *)
Variable is_dir : string -> bool.

(** [json.load] on the text of a source file: the work items it holds,
    or the exception it raises. *)
Variable load_items : string -> exn + list (gmap string string).

(** [datetime.now().isoformat()] at a time of the clock, the format
    [.1f], and the chunks that [json.dump(..., indent=2,
    ensure_ascii=False)] writes. *)
Variable isoformat : Q -> string.
Variable format_1f : Q -> string.
Variable json_dump_indent : json -> list string.

(** One [with open(...)] of lines 359-362 under the handler of line 363:
    [None] stands for the exit through the handler, taken for a file that
    cannot be opened and for a text that does not parse. *)
Definition read_source (path : string) : M (option (list (gmap string string))) :=
  fun w =>
    match files w !! path with
    | None => (Ok None, w)
    | Some text =>
        match load_items text with
        | inr items => (Ok (Some items), w)
        | inl e => if is_json_decode_error e then (Ok None, w) else (Raise e, w)
        end
    end.

(** The dictionary built for one kind of item (lines 407-418). *)
Definition stats_summary (total : Z) (st : ProcessingStats) : json :=
  JObj [ ("total_enriched_in_file", JInt total);
         ("processed_this_run", JInt (total_processed st));
         ("successful", JInt (successful st));
         ("failed", JInt (failed st));
         ("blocked", JInt (blocked st));
         ("skipped_this_run", JInt (skipped st));
         ("success_rate", JStr (format_1f (success_rate st) +:+ "%")) ].

(** Lines 404-426. The handler of line 425 is for an [IOError]: opening
    the file does not fail in the embedding, and the exception of a chunk
    that cannot be encoded is none, so it leaves [_create_summary]. *)
Definition _create_summary (mineral mineral_dir : string)
    (post_stats comment_stats : ProcessingStats) (total_posts total_comments : Z) : M unit :=
  t ← time_time;
  let summary :=
    JObj [ ("enrichment_date", JStr (isoformat t));
           ("mineral", JStr mineral);
           ("model_used", JStr "gemini-1.5-flash-latest");
           ("posts", stats_summary total_posts post_stats);
           ("comments", stats_summary total_comments comment_stats) ] in
  let path := mineral_dir +:+ "/" +:+ "enrichment_summary.json" in
  _ ← open_write path;
  write_chunks encodable path (json_dump_indent summary).

(** [jsonl if jsonl.exists() else json] (lines 375 and 378). *)
Definition preferred_path (mineral_dir kind : string) : M string :=
  is_there ← path_exists (mineral_dir +:+ "/" +:+ kind +:+ "_enriched.jsonl");
  if (is_there : bool)
  then mret (mineral_dir +:+ "/" +:+ kind +:+ "_enriched.jsonl")
  else mret (mineral_dir +:+ "/" +:+ kind +:+ "_enriched.json").

(** Lines 367-398, once the source data is loaded. *)
Definition process_loaded (mineral mineral_dir : string)
    (all_posts all_comments : list (gmap string string)) : M unit :=
  posts_path ← preferred_path mineral_dir "posts";
  enriched_posts ← load_enriched_data json_loads posts_path;
  comments_path ← preferred_path mineral_dir "comments";
  enriched_comments ← load_enriched_data json_loads comments_path;
  let post_stats := add_skipped (dict_len enriched_posts) new_stats in
  let comment_stats := add_skipped (dict_len enriched_comments) new_stats in
  post_stats ← _process_items json_loads generate_content fuel json_dumps encodable pick
                 "Post" all_posts enriched_posts post_stats mineral mineral_dir;
  comment_stats ← _process_items json_loads generate_content fuel json_dumps encodable pick
                    "Comment" all_comments enriched_comments comment_stats
                    mineral mineral_dir;
  _create_summary mineral mineral_dir post_stats comment_stats
    (dict_len enriched_posts + successful post_stats)
    (dict_len enriched_comments + successful comment_stats).

Definition process_mineral (mineral : string) : M mineral_report :=
  let mineral_dir := "data/" +:+ mineral in
  if negb (is_dir mineral_dir) then mret NoDirectory
  else
    all_posts ← read_source (mineral_dir +:+ "/" +:+ "posts.json");
    match all_posts with
    | None => mret NoSourceData
    | Some all_posts =>
        all_comments ← read_source (mineral_dir +:+ "/" +:+ "comments.json");
        match all_comments with
        | None => mret NoSourceData
        | Some all_comments =>
            _ ← process_loaded mineral mineral_dir all_posts all_comments;
            mret Completed
        end
    end.

End Orchestrator.


(** The enriched data of one kind of item, as a finished run leaves it:
    no file of the older format, and a JSON Lines file (or none) that
    holds the lines of [records], each of which reads back with its
    identifier. *)
Definition stored (json_loads : string -> exn + json) (json_dumps : json -> string)
    (mineral_dir kind : string) (records : list json) (w : World) : Prop :=
  files w !! (mineral_dir +:+ "/" +:+ kind +:+ "_enriched.json") = None /\
  default EmptyString (files w !! (mineral_dir +:+ "/" +:+ kind +:+ "_enriched.jsonl"))
    = jsonl json_dumps records /\
  Forall (fun r => exists i, record_id r = Some i /\
                             reads_back json_loads json_dumps r i) records.

(** The source data of a mineral is in place: the directory, and the two
    source files with the items they hold. *)
Definition sources (is_dir : string -> bool)
    (load_items : string -> exn + list (gmap string string))
    (mineral : string) (all_posts all_comments : list (gmap string string))
    (w : World) : Prop :=
  is_dir ("data/" +:+ mineral) = true /\
  (exists text, files w !! ("data/" +:+ mineral +:+ "/" +:+ "posts.json") = Some text /\
                load_items text = inr all_posts) /\
  (exists text, files w !! ("data/" +:+ mineral +:+ "/" +:+ "comments.json") = Some text /\
                load_items text = inr all_comments).

(** Every item has its identifier among those of [records]. *)
Definition all_stored (items : list (gmap string string)) (records : list json) : Prop :=
  forall item, In item items -> ids_of records (KStr (item_get item "id")).


(** A sample mineral directory: one post and one comment in the source
    files, nothing enriched yet. *)
Definition sample_load_items (text : string) : exn + list (gmap string string) :=
  if String.eqb text "posts" then inr [sample_item "a" "t"]
  else if String.eqb text "comments" then inr [sample_item "c" "u"]
  else inl (mkExn JSONDecodeError "Expecting value").

Definition sample_mineral_world : World :=
  set_files (<["data/gold/posts.json" := "posts"]>
               (<["data/gold/comments.json" := "comments"]> ∅)) initial_world.


(** ** Configuration: [_load_config] and [_configure_gemini] (lines 119-142)

    How [_load_config] ends: with the configuration; through the handler
    of line 127 (no file at the path); through the handler of line 130 (a
    JSON or value error, logged and raised again); or with an exception
    that none of its handlers catches. *)
Inductive config_result : Type :=
  | Loaded (config : json)
  | NotFound
  | Rejected (e : exn)
  | Escaped (e : exn).

(** [v[0]] *)
Definition py_getitem0 (v : json) : exn + json :=
  match v with
  | JArr (x :: _) => inr x
  | JArr [] => inl (mkExn IndexError "list index out of range")
  | JStr (String c _) => inr (JStr (String c EmptyString))
  | JStr EmptyString => inl (mkExn IndexError "string index out of range")
  | JObj _ => inl (mkExn KeyError "0")
  | _ => inl (mkExn TypeError "object is not subscriptable")
  end.

Definition config_error : exn :=
  mkExn ValueError
    "Config file is missing expected structure: [{'aistudio': {'apiKey': '...'}}]".

(** The test of line 124, evaluated left to right, and the [raise] of
    line 125. *)
Definition check_config (config : json) : exn + json :=
  match config with
  | JArr (first :: _) =>
      match py_in "aistudio" first with
      | inl e => inl e
      | inr false => inl config_error
      | inr true =>
          match py_getitem "aistudio" first with
          | inl e => inl e
          | inr section =>
              match py_in "apiKey" section with
              | inl e => inl e
              | inr false => inl config_error
              | inr true => inr config
              end
          end
      end
  | _ => inl config_error
  end.

Definition _load_config (json_loads : string -> exn + json)
    (fs : gmap string string) (config_path : string) : config_result :=
  match fs !! config_path with
  | None => NotFound
  | Some text =>
      match match json_loads text with
            | inl e => inl e
            | inr config => check_config config
            end with
      | inr config => Loaded config
      | inl e =>
          match exn_cls e with
          | JSONDecodeError | ValueError => Rejected e
          | _ => Escaped e
          end
      end
  end.

(** [_configure_gemini]: the key handed to [genai.configure], or the
    exception that is logged and raised again (lines 140-142). *)
Definition _configure_gemini (config : json) : exn + json :=
  match py_getitem0 config with
  | inl e => inl e
  | inr first =>
      match py_getitem "aistudio" first with
      | inl e => inl e
      | inr section => py_getitem "apiKey" section
      end
  end.

(** A parser that knows two configuration texts. *)
Definition sample_config_loads (s : string) : exn + json :=
  if String.eqb s "good"
  then inr (JArr [JObj [("aistudio", JObj [("apiKey", JStr "k")])]])
  else if String.eqb s "odd"
  then inr (JArr [JObj [("aistudio", JStr "see apiKey below")]])
  else inl (mkExn JSONDecodeError "Expecting value").


(** A response that the interpreter cannot use and that is no refusal:
    no candidate and no block reason, or a candidate that finished
    normally whose text holds no JSON object, one that does not parse, or
    one without all the required keys. [reason] is the code the
    interpreter gives the case. *)
Definition structural_failure (json_loads : string -> exn + json)
    (r : Response) (reason : string) : Prop :=
  (candidates r = [] /\ has_block_reason r = false /\ reason = "no_candidates") \/
  (exists c rest t,
      candidates r = c :: rest /\ normal_finish (finish_reason_name c) = true /\
      text r = inl t /\
      ((extract_json_from_response t = None /\ reason = "no_json") \/
       (exists j e, extract_json_from_response t = Some j /\ json_loads j = inl e /\
                    is_json_decode_error e = true /\ reason = "json_error") \/
       (exists j v, extract_json_from_response t = Some j /\ json_loads j = inr v /\
                    all_keys_in required_keys v = inr false /\
                    reason = "invalid_structure"))).

(** Total of a list of durations. *)
Definition Qsum (l : list Q) : Q := fold_right Qplus 0%Q l.

(** A computation that sleeps at most once, for at most [bound] seconds,
    and returns normally when it has slept. *)
Definition sleeps_once {A} (bound : Q) (m : M A) : Prop :=
  forall w,
    sleeps (snd (m w)) = sleeps w \/
    exists d, (0 <= d <= bound)%Q /\ sleeps (snd (m w)) = (sleeps w ++ [d])%list /\
              exists a, fst (m w) = Ok a.

(** An API whose every reply is the text without a JSON object. *)
Definition prose_reply : Response := ok_response "I cannot answer that.".


(** No entry of the two windows is stamped later than [b]. *)
Definition stamped_by (b : Q) (rl : EfficientRateLimiter) : Prop :=
  Forall (fun t => (t <= b)%Q) (request_timestamps rl) /\
  Forall (fun tc => (fst tc <= b)%Q) (token_counts rl).






(** The counters of one kind of item as a run in a governed world leaves
    them when every line is written: the items found enriched are the
    skipped ones, every other item is counted, none as failed. *)
Definition report_ok (enriched : gmap pykey json) (items : list (gmap string string))
    (st : ProcessingStats) : Prop :=
  skipped st = dict_len enriched /\
  total_processed st = Z.of_nat (length (List.filter (not_enriched enriched) items)) /\
  failed st = 0 /\
  successful st + blocked st = total_processed st /\
  0 <= successful st /\ 0 <= blocked st.

(* ===================================================================== *)
(** * Part II: properties                                                 *)
(* ===================================================================== *)

Example clean_text_ex1 :
  clean_text ("see http://x.org/a?b  now" ++ nl ++ " [Removed]ok ") = "see now ok".
Proof. vm_compute. reflexivity. Qed.

Example clean_text_ex2 : clean_text "a [deleted] b" = "a  b".
Proof. vm_compute. reflexivity. Qed.

Example clean_text_ex3 : clean_text "[del[deleted]eted]" = "[deleted]".
Proof. vm_compute. reflexivity. Qed.

Example clean_text_ex4 : clean_text "http:/[removed]/x" = "http://x".
Proof. vm_compute. reflexivity. Qed.

(** ** Strings: basic facts *)

Lemma string_length_ind (P : string -> Prop) :
  (forall s, (forall t, (String.length t < String.length s)%nat -> P t) -> P s) ->
  forall s, P s.
Proof.
  intros step s.
  remember (String.length s) as n eqn:Hn.
  revert s Hn. induction n as [n IH] using lt_wf_ind.
  intros s ->. apply step. intros t Ht. eapply IH; [exact Ht | reflexivity].
Qed.

Lemma prefix_nil s : String.prefix EmptyString s = true.
Proof. destruct s; reflexivity. Qed.

Lemma prefix_cons a p b s :
  String.prefix (String a p) (String b s) = true <-> a = b /\ String.prefix p s = true.
Proof.
  simpl. destruct (ascii_dec a b) as [->|Hne]; split; try tauto; try discriminate.
Qed.

Lemma prefix_refl s : String.prefix s s = true.
Proof. induction s as [|a s IH]; [reflexivity|]. apply prefix_cons. auto. Qed.


Lemma str_take_prefix n s : String.prefix (str_take n s) s = true.
Proof.
  revert n. induction s as [|a s IH]; intros [|n]; simpl; try reflexivity.
  destruct (ascii_dec a a); [apply IH | contradiction].
Qed.

Lemma str_take_length n s : (String.length (str_take n s) <= n)%nat.
Proof.
  revert s. induction n as [|n IH]; intros [|a s]; simpl; try lia.
  specialize (IH s). lia.
Qed.

Lemma str_drop_length n s : (String.length (str_drop n s) <= String.length s)%nat.
Proof.
  revert s. induction n as [|n IH]; intros [|a s]; simpl; try lia.
  specialize (IH s). lia.
Qed.





(** After the longest [p]-prefix has been dropped, the rest is empty or
    starts with a character outside [p]. *)
Lemma span_drop_head p s :
  match str_drop (span_len p s) s with
  | EmptyString => True
  | String c _ => p c = false
  end.
Proof.
  induction s as [|a s IH]; simpl; [exact I|].
  destruct (p a) eqn:E; simpl; [exact IH | exact E].
Qed.

(** ** Case folding never turns a non-space character into whitespace *)





(** ** The three patterns are run-local *)

Lemma url_match_Some s :
  is_Some (url_match s) <->
  (String.prefix "http://" s = true /\ (7 < span_len non_space s)%nat) \/
  (String.prefix "https://" s = true /\ (8 < span_len non_space s)%nat).
Proof.
  unfold url_match.
  rewrite <- !Nat.ltb_lt, <- !andb_true_iff, <- orb_true_iff.
  destruct (_ || _); split; intros H; try reflexivity; try (eexists; reflexivity).
  - destruct H as [? H]. discriminate H.
  - discriminate H.
Qed.

Lemma url_match_run s n : url_match s = Some n -> n = span_len non_space s /\ (7 < n)%nat.
Proof.
  intros H. pose proof (proj1 (url_match_Some s) (ex_intro _ n H)) as Hs.
  unfold url_match in H.
  destruct (_ || _) in H; [|discriminate]. injection H as <-. split; [reflexivity|].
  destruct Hs as [[_ ?]|[_ ?]]; lia.
Qed.




(** ** Substitution, one position at a time *)

Lemma re_sub_from_skip m r k s :
  re_sub_from m r k s = re_sub_from m r O (str_drop k s).
Proof. revert k. induction s as [|c s IH]; intros [|k]; simpl; auto. Qed.

Lemma re_sub_cons m r c s :
  re_sub m r (String c s) =
  match m (String c s) with
  | Some (S k) => r +:+ re_sub m r (str_drop k s)
  | _ => String c (re_sub m r s)
  end.
Proof.
  unfold re_sub. simpl. destruct (m (String c s)) as [[|k]|]; try reflexivity.
  now rewrite re_sub_from_skip.
Qed.

Lemma str_app_nil_l s : EmptyString +:+ s = s.
Proof. reflexivity. Qed.










Lemma rstrip_prefix s : String.prefix (rstrip s) s = true.
Proof.
  induction s as [|a s IH]; [reflexivity|]. cbn [rstrip].
  destruct (rstrip s) as [|b r] eqn:E.
  - destruct (is_space a); [reflexivity|].
    apply prefix_cons. split; [reflexivity | apply prefix_nil].
  - apply prefix_cons. auto.
Qed.

(** ** Removing URLs *)






(** ** Collapsing whitespace *)

Lemma ws_match_cons c s :
  ws_match (String c s) =
  if is_space c then Some (S (span_len is_space s)) else None.
Proof. unfold ws_match. simpl. destruct (is_space c); reflexivity. Qed.

Lemma non_space_true c : is_space c = false -> non_space c = true.
Proof. unfold non_space. now intros ->. Qed.



Lemma re_sub_ws_collapsed s : ws_collapsed (re_sub ws_match " " s) = true.
Proof.
  induction s as [s IH] using string_length_ind.
  destruct s as [|c s]; [reflexivity|].
  rewrite re_sub_cons, ws_match_cons. destruct (is_space c) eqn:E.
  - pose proof (span_drop_head is_space s) as Hd.
    assert (ws_collapsed (re_sub ws_match " " (str_drop (span_len is_space s) s)) = true)
      as Hrest.
    { apply IH. simpl. pose proof (str_drop_length (span_len is_space s) s). lia. }
    change (" " +:+ ?x) with (String " " x).
    cbn [ws_collapsed]. rewrite Hrest, andb_true_r.
    destruct (str_drop (span_len is_space s) s) as [|d u]; [reflexivity|].
    rewrite re_sub_cons, ws_match_cons, Hd. now rewrite (non_space_true _ Hd).
  - cbn [ws_collapsed]. rewrite (non_space_true _ E). apply IH. simpl. lia.
Qed.

(** ** Removing markers *)


(** ** [strip] and the slice keep what holds of the whole *)



Lemma clean_text_length text : (String.length (clean_text text) <= 3000)%nat.
Proof.
  destruct text as [|c s]; [simpl; lia|]. unfold clean_text. apply str_take_length.
Qed.





(** The same junction can spell a new marker or a new URL. *)
Example clean_text_junctions :
  occurs marker_match (clean_text "[del[deleted]eted]") = true /\
  occurs url_match (clean_text "http:/[removed]/x") = true.
Proof. split; vm_compute; reflexivity. Qed.

(** ** Run counters *)

Lemma increment_ok a b c st : stats_ok st -> stats_ok (increment a b c st).
Proof.
  unfold stats_ok. intros (? & ? & ? & ? & ?).
  destruct a, b, c; simpl; repeat split; lia.
Qed.

Lemma add_skipped_ok n st : 0 <= n -> stats_ok st -> stats_ok (add_skipped n st).
Proof. unfold stats_ok. intros ? (? & ? & ? & ? & ?). simpl. repeat split; lia. Qed.

(** C5, as the code has it: the derived rate is a percentage, one hundred
    times the ratio of the specification, and 0 when nothing was attempted. *)
Theorem success_rate_is_percentage (st : ProcessingStats) :
  stats_ok st ->
  (total_attempted st <> 0 -> (success_rate st == 100 * success_ratio_spec st)%Q) /\
  (total_attempted st = 0 -> (success_rate st == 0)%Q).
Proof.
  intros (_ & Hs & Hf & Hb & _). unfold success_rate, success_ratio_spec, total_attempted.
  split; intros Ht.
  - rewrite Z.max_l by lia. field.
    intros H. apply Ht, (proj1 (inject_Z_injective _ 0)). exact H.
  - assert (successful st = 0) as -> by lia.
    unfold Qdiv. rewrite Qmult_0_l, Qmult_0_l. reflexivity.
Qed.

Lemma success_rate_is_percentage_witness :
  (success_rate (mkStats 4 1 2 1 0) == 100 * success_ratio_spec (mkStats 4 1 2 1 0))%Q /\
  (success_rate new_stats == 0)%Q.
Proof.
  split.
  - apply (success_rate_is_percentage (mkStats 4 1 2 1 0)).
    + unfold stats_ok; simpl; lia.
    + vm_compute. discriminate.
  - apply (success_rate_is_percentage new_stats).
    + unfold stats_ok; simpl; lia.
    + reflexivity.
Defined.

(** C5 as stated fails: one success out of two attempts gives 50, not 1/2. *)
Lemma success_rate_counterexample :
  ~ (success_rate (mkStats 2 1 1 0 0) == success_ratio_spec (mkStats 2 1 1 0 0))%Q.
Proof. vm_compute. discriminate. Qed.

(** ** Rate governor *)

Lemma wait_pass_eq est w :
  wait_pass est w =
  let rl := rate_limiter w in
  let t := now w in
  let rts := in_window t (request_timestamps rl) in
  let tcs := List.filter (fun tc => Qltb (t - 60)%Q (fst tc)) (token_counts rl) in
  let pruned := set_rate_limiter (mkLimiter (rpm_limit rl) (tpm_limit rl) rts tcs) w in
  let sleep_on (oldest : Q) :=
    match time_sleep (60 - (t - oldest) + 0.1)%Q pruned with
    | (Ok _, w') => (Ok None, w')
    | (Raise e, w') => (Raise e, w')
    | (Blocked, w') => (Blocked, w')
    end in
  if Qle_bool (rpm_limit rl) (inject_Z (Z.of_nat (length rts))) then
    match rts with
    | [] => (Raise (mkExn IndexError "list index out of range"), pruned)
    | oldest :: _ => sleep_on oldest
    end
  else if Qle_bool (tpm_limit rl) (inject_Z (sum_tokens tcs + est)) then
    match tcs with
    | [] => (Raise (mkExn IndexError "list index out of range"), pruned)
    | (oldest, _) :: _ => sleep_on oldest
    end
  else
    (Ok (Some tt),
     set_rate_limiter
       (mkLimiter (rpm_limit rl) (tpm_limit rl)
          (rts ++ [t])%list (tcs ++ [(t, est)])%list) w).
Proof.
  unfold wait_pass, mbind, M_bind, time_time, get_rate_limiter, put_rate_limiter, in_window.
  cbn.
  destruct (Qle_bool _ _).
  - destruct (List.filter _ (request_timestamps _)); reflexivity.
  - destruct (Qle_bool _ _); [|reflexivity].
    destruct (List.filter _ (token_counts _)) as [|[? ?] ?]; reflexivity.
Qed.

Lemma time_sleep_rate_limiter d w :
  rate_limiter (snd (time_sleep d w)) = rate_limiter w.
Proof. unfold time_sleep. destruct (Qle_bool 0 d); reflexivity. Qed.

Lemma wait_pass_cases est w :
  let rl := rate_limiter w in
  let t := now w in
  let rts := in_window t (request_timestamps rl) in
  let tcs := List.filter (fun tc => Qltb (t - 60)%Q (fst tc)) (token_counts rl) in
  (exists o w',
      wait_pass est w = (o, w') /\ o <> Ok (Some tt) /\
      rate_limiter w' = mkLimiter (rpm_limit rl) (tpm_limit rl) rts tcs) \/
  (Qle_bool (rpm_limit rl) (inject_Z (Z.of_nat (length rts))) = false /\
   Qle_bool (tpm_limit rl) (inject_Z (sum_tokens tcs + est)) = false /\
   wait_pass est w =
     (Ok (Some tt),
      set_rate_limiter
        (mkLimiter (rpm_limit rl) (tpm_limit rl)
           (rts ++ [t])%list (tcs ++ [(t, est)])%list) w)).
Proof.
  intros rl t rts tcs. rewrite wait_pass_eq. cbv zeta. fold rl t rts tcs.
  assert (forall oldest,
    exists o w',
      match time_sleep (60 - (t - oldest) + 0.1)%Q
              (set_rate_limiter (mkLimiter (rpm_limit rl) (tpm_limit rl) rts tcs) w) with
      | (Ok _, w') => (Ok None, w')
      | (Raise e, w') => (Raise e, w')
      | (Blocked, w') => (Blocked, w')
      end = (o, w') /\ o <> Ok (Some tt) /\
      rate_limiter w' = mkLimiter (rpm_limit rl) (tpm_limit rl) rts tcs) as Hsleep.
  { intros oldest.
    pose proof (time_sleep_rate_limiter (60 - (t - oldest) + 0.1)%Q
                  (set_rate_limiter (mkLimiter (rpm_limit rl) (tpm_limit rl) rts tcs) w)) as Hrl.
    destruct (time_sleep _ _) as [[?|?|] w1]; simpl in Hrl;
      eexists _, _; (split; [reflexivity|]); (split; [discriminate | exact Hrl]). }
  destruct (Qle_bool (rpm_limit rl) _) eqn:E1.
  { left. destruct rts as [|oldest ?]; [|apply Hsleep].
    eexists _, _. split; [reflexivity|]. split; [discriminate | reflexivity]. }
  destruct (Qle_bool (tpm_limit rl) _) eqn:E2.
  { left. destruct tcs as [|[oldest ?] ?]; [|apply Hsleep].
    eexists _, _. split; [reflexivity|]. split; [discriminate | reflexivity]. }
  right. auto.
Qed.

Lemma filter_sublist {A} (f : A -> bool) (l : list A) : sublist (List.filter f l) l.
Proof.
  induction l as [|a l IH]; simpl; [constructor|].
  destruct (f a); now constructor.
Qed.

Lemma filter_idem {A} (f : A -> bool) (l : list A) :
  List.filter f (List.filter f l) = List.filter f l.
Proof.
  induction l as [|a l IH]; simpl; [reflexivity|].
  destruct (f a) eqn:E; simpl; rewrite ?E, IH; reflexivity.
Qed.

Lemma Qle_bool_false x y : Qle_bool x y = false -> (y < x)%Q.
Proof.
  intros H. apply Qnot_le_lt. intros Hle. apply Qle_bool_iff in Hle. congruence.
Qed.

(** What one call of [wait_if_needed] does to the governor, however it
    ends and however many passes it is followed for. *)
Lemma wait_if_needed_spec fuel est w o w' :
  wait_if_needed fuel est w = (o, w') ->
  rpm_limit (rate_limiter w') = rpm_limit (rate_limiter w) /\
  tpm_limit (rate_limiter w') = tpm_limit (rate_limiter w) /\
  match o with
  | Ok _ => recorded_with_headroom est (rate_limiter w) (rate_limiter w')
  | _ =>
      sublist (request_timestamps (rate_limiter w')) (request_timestamps (rate_limiter w)) /\
      sublist (token_counts (rate_limiter w')) (token_counts (rate_limiter w))
  end.
Proof.
  revert w. induction fuel as [|fuel IH]; intros w H.
  { simpl in H. injection H as <- <-. auto. }
  cbn [wait_if_needed] in H. unfold mbind, M_bind in H.
  destruct (wait_pass_cases est w) as [(o1 & w1 & Hp & Hne & Hrl)|(E1 & E2 & Hp)];
    rewrite Hp in H.
  - assert (sublist (request_timestamps (rate_limiter w1)) (request_timestamps (rate_limiter w)) /\
            sublist (token_counts (rate_limiter w1)) (token_counts (rate_limiter w))) as [S1 S2].
    { rewrite Hrl. simpl. split; apply filter_sublist. }
    destruct o1 as [[[]|]|e|].
    + now destruct Hne.
    + apply IH in H as (L1 & L2 & H). rewrite Hrl in L1, L2. simpl in L1, L2.
      split; [exact L1|]. split; [exact L2|].
      destruct o as [[]|e|].
      * destruct H as (t & rts & tcs & H1 & H2 & H3 & H4 & H5 & H6 & H7).
        exists t, rts, tcs. rewrite Hrl in H6, H7. simpl in H6, H7.
        repeat split; try assumption; try (etrans; eassumption).
      * destruct H. split; etrans; eassumption.
      * destruct H. split; etrans; eassumption.
    + injection H as <- <-. rewrite Hrl at 1 2. simpl. auto.
    + injection H as <- <-. rewrite Hrl at 1 2. simpl. auto.
  - injection H as <- <-. simpl. split; [reflexivity|]. split; [reflexivity|].
    eexists _, _, _. split; [reflexivity|]. split; [reflexivity|].
    split; [apply filter_sublist|]. split; [apply filter_sublist|].
    split; [apply filter_idem|].
    split; apply Qle_bool_false; assumption.
Qed.

Lemma default_rpm_limit : (rpm_limit default_rate_limiter == 720)%Q.
Proof. vm_compute. reflexivity. Qed.

(** The invariant of the governor the enricher builds: its limits are the
    defaults after the margin and at most 720 requests are on record. *)
Lemma wait_if_needed_bound fuel est w :
  rpm_limit (rate_limiter w) = rpm_limit default_rate_limiter ->
  (length (request_timestamps (rate_limiter w)) <= 720)%nat ->
  let w' := snd (wait_if_needed fuel est w) in
  rpm_limit (rate_limiter w') = rpm_limit default_rate_limiter /\
  (length (request_timestamps (rate_limiter w')) <= 720)%nat.
Proof.
  intros Hlim Hlen w'.
  destruct (wait_if_needed fuel est w) as [o w1] eqn:E. subst w'. cbn [snd].
  apply wait_if_needed_spec in E as (L1 & _ & H).
  split; [rewrite L1; exact Hlim|].
  destruct o as [[]|e|].
  - destruct H as (t & rts & tcs & H1 & _ & _ & _ & _ & H6 & _).
    rewrite H1, length_app. simpl. rewrite Hlim, default_rpm_limit in H6.
    assert (Z.of_nat (length rts) < 720) as Hlt by (rewrite Zlt_Qlt; exact H6).
    lia.
  - destruct H as [H _]. apply sublist_length in H. lia.
  - destruct H as [H _]. apply sublist_length in H. lia.
Qed.

Lemma inject_Z_le a b : a <= b -> (inject_Z a <= inject_Z b)%Q.
Proof. intros H. now rewrite <- Zle_Qle. Qed.

(** Whatever its limits, the governor keeps its request window less than
    one entry above the request limit: a request is recorded only on a
    window that is below the limit. *)
Lemma wait_if_needed_ceiling fuel est w :
  under_request_ceiling (rate_limiter w) (request_timestamps (rate_limiter w)) ->
  let w' := snd (wait_if_needed fuel est w) in
  under_request_ceiling (rate_limiter w') (request_timestamps (rate_limiter w')).
Proof.
  intros Hlen w'. unfold under_request_ceiling in *.
  destruct (wait_if_needed fuel est w) as [o w1] eqn:E. subst w'. cbn [snd].
  apply wait_if_needed_spec in E as (L1 & _ & H). rewrite L1.
  assert (forall l : list Q,
            sublist l (request_timestamps (rate_limiter w)) ->
            (inject_Z (Z.of_nat (length l)) < rpm_limit (rate_limiter w) + 1)%Q) as Hsub.
  { intros l Hl. apply sublist_length in Hl.
    eapply Qle_lt_trans; [|exact Hlen]. rewrite <- Zle_Qle. lia. }
  destruct o as [[]|e|].
  - destruct H as (t & rts & tcs & H1 & _ & _ & _ & _ & H6 & _).
    rewrite H1, length_app, Nat2Z.inj_add, inject_Z_plus.
    change (inject_Z (Z.of_nat (length [t]))) with 1%Q. lra.
  - apply Hsub, H.
  - apply Hsub, H.
Qed.

Lemma run_admissions_ceiling calls w :
  under_request_ceiling (rate_limiter w) (request_timestamps (rate_limiter w)) ->
  rpm_limit (rate_limiter (run_admissions calls w)) = rpm_limit (rate_limiter w) /\
  under_request_ceiling (rate_limiter w)
    (request_timestamps (rate_limiter (run_admissions calls w))).
Proof.
  revert w. induction calls as [|[fuel [d est]] calls IH]; intros w Hlen; [split; auto|].
  cbn [run_admissions]. unfold mbind, M_bind, elapse.
  pose proof (wait_if_needed_ceiling fuel est (set_now (now w + d)%Q w) Hlen) as B.
  cbv zeta in B.
  destruct (wait_if_needed fuel est (set_now (now w + d)%Q w)) as [o w1] eqn:E.
  apply wait_if_needed_spec in E as (L1 & _ & _). cbn [snd] in *.
  destruct (IH w1 B) as [I1 I2]. unfold under_request_ceiling in *.
  rewrite I1, L1. split; [reflexivity|]. rewrite L1 in I2. exact I2.
Qed.

(** C2, as the code has it: starting from a governor built with any
    request limit that is not negative, after any sequence of admissions
    with any token costs, at any clock readings and seen between any two
    passes of the waiting loop, the requests on record in the trailing 60
    seconds of any instant are less than one above the configured limit
    times 0.9; they are within that product whenever it is a whole number,
    as the 720 of the governor the enricher builds is; and a call that
    returns has recorded its request on top of a pruned window that showed
    headroom under both budgets. *)
Theorem rate_window_under_ceiling :
  (forall rpm tpm calls w t,
      0 <= rpm ->
      rate_limiter w = new_rate_limiter rpm tpm ->
      let stamps :=
        in_window t (request_timestamps (rate_limiter (run_admissions calls w))) in
      under_request_ceiling (new_rate_limiter rpm tpm) stamps /\
      (forall n, (rpm_limit (new_rate_limiter rpm tpm) == inject_Z n)%Q ->
                 within_request_limit (new_rate_limiter rpm tpm) stamps)) /\
  (forall fuel est w w',
      wait_if_needed fuel est w = (Ok tt, w') ->
      recorded_with_headroom est (rate_limiter w) (rate_limiter w')).
Proof.
  split.
  - intros rpm tpm calls w t Hrpm Hw stamps.
    assert (under_request_ceiling (new_rate_limiter rpm tpm) stamps) as Hc.
    { destruct (run_admissions_ceiling calls w) as [_ Hb].
      { rewrite Hw. unfold under_request_ceiling.
        change (request_timestamps (new_rate_limiter rpm tpm)) with (@nil Q).
        change (rpm_limit (new_rate_limiter rpm tpm)) with (inject_Z rpm * 0.9)%Q.
        change (inject_Z (Z.of_nat (length (@nil Q)))) with 0%Q.
        assert (0 <= inject_Z rpm)%Q by (apply (inject_Z_le 0); exact Hrpm). lra. }
      rewrite Hw in Hb. unfold under_request_ceiling in *.
      eapply Qle_lt_trans; [|exact Hb]. rewrite <- Zle_Qle.
      pose proof (filter_length_le (fun x => Qltb (t - 60)%Q x)
                    (request_timestamps (rate_limiter (run_admissions calls w)))).
      unfold stamps, in_window. lia. }
    split; [exact Hc|].
    intros n Hn. unfold within_request_limit, under_request_ceiling in *.
    rewrite Hn in *. change 1%Q with (inject_Z 1) in Hc.
    rewrite <- inject_Z_plus, <- Zlt_Qlt in Hc. rewrite <- Zle_Qle. lia.
  - intros fuel est w w' H. now apply wait_if_needed_spec in H as (_ & _ & H).
Qed.

(** C2 as stated fails for a limit that the margin does not turn into a
    whole number: with a request limit of 5 the test of line 73 compares
    the window with 4.5, admits a request on a window of four, and leaves
    five requests on record in the same minute. *)
Lemma rate_window_counterexample :
  rpm_limit (rate_limiter five_admissions) = (inject_Z 5 * 0.9)%Q /\
  length (in_window 0 (request_timestamps (rate_limiter five_admissions))) = 5%nat /\
  ~ within_request_limit (rate_limiter five_admissions)
      (in_window 0 (request_timestamps (rate_limiter five_admissions))).
Proof.
  split; [reflexivity|]. split; [vm_compute; reflexivity|].
  unfold within_request_limit. intros H. vm_compute in H. apply H. reflexivity.
Qed.

Lemma rate_window_under_ceiling_witness :
  (under_request_ceiling default_rate_limiter
     (in_window 10%Q
        (request_timestamps
           (rate_limiter
              (run_admissions [(3%nat, (0%Q, 1500)); (3%nat, (1%Q, 1500))] initial_world)))) /\
   within_request_limit default_rate_limiter
     (in_window 10%Q
        (request_timestamps
           (rate_limiter
              (run_admissions [(3%nat, (0%Q, 1500)); (3%nat, (1%Q, 1500))] initial_world))))) /\
  under_request_ceiling (new_rate_limiter 5 900000)
    (in_window 0 (request_timestamps (rate_limiter five_admissions))) /\
  recorded_with_headroom 1500 (rate_limiter initial_world)
    (rate_limiter (snd (wait_if_needed 3 1500 initial_world))).
Proof.
  split; [|split].
  - destruct (proj1 rate_window_under_ceiling 800 900000
                [(3%nat, (0%Q, 1500)); (3%nat, (1%Q, 1500))] initial_world 10%Q
                ltac:(lia) eq_refl) as [H1 H2].
    split; [exact H1|]. apply (H2 720). vm_compute. reflexivity.
  - exact (proj1 (proj1 rate_window_under_ceiling 5 900000
                    (repeat (1%nat, (0%Q, 1500)) 5)
                    (set_rate_limiter (new_rate_limiter 5 900000) initial_world) 0%Q
                    ltac:(lia) eq_refl)).
  - apply (proj2 rate_window_under_ceiling 3%nat 1500 initial_world). reflexivity.
Defined.

(** ** Response interpreter *)

Lemma time_sleep_ok d w : (0 <= d)%Q -> time_sleep d w = (Ok tt, after_sleep d w).
Proof.
  intros H. unfold time_sleep. apply Qle_bool_iff in H. now rewrite H.
Qed.

Lemma time_sleep_Z z w :
  0 <= z -> time_sleep (inject_Z z) w = (Ok tt, after_sleep (inject_Z z) w).
Proof.
  intros H. apply time_sleep_ok. change 0%Q with (inject_Z 0). now rewrite <- Zle_Qle.
Qed.

Lemma backoff_nonneg attempt : 0 <= Z.min 300 (60 * 2 ^ attempt).
Proof. pose proof (Z.pow_nonneg 2 attempt). lia. Qed.

Lemma generic_backoff_nonneg attempt : 0 <= 10 * 2 ^ attempt.
Proof. pose proof (Z.pow_nonneg 2 attempt). lia. Qed.

Section InterpreterFacts.

Variable json_loads : string -> exn + json.
Variable generate_content : nat -> string -> ApiOutcome * Q.
Variable fuel : nat.

Lemma api_call_eq prompt w out took :
  generate_content (length (api_calls w)) prompt = (out, took) ->
  api_call generate_content prompt w =
    (match out with
     | ApiReturn r => Ok r
     | ApiRaise msg => Raise (mkExn RuntimeError msg)
     end, after_call prompt took w).
Proof. intros H. unfold api_call. rewrite H. destruct out; reflexivity. Qed.

Lemma retry_or_give_up_retry attempt max_retries reason w :
  attempt < max_retries - 1 ->
  retry_or_give_up attempt max_retries reason w = (Ok Next, after_sleep 5 w).
Proof.
  intros H. unfold retry_or_give_up. apply Z.ltb_lt in H. rewrite H.
  unfold mbind, M_bind. rewrite time_sleep_ok by (vm_compute; discriminate). reflexivity.
Qed.

Lemma retry_or_give_up_last attempt max_retries reason w :
  max_retries - 1 <= attempt ->
  retry_or_give_up attempt max_retries reason w =
    (Ok (Return (create_blocked_analysis reason)), w).
Proof.
  intros H. unfold retry_or_give_up. apply Z.ltb_ge in H. now rewrite H.
Qed.

(** What the handlers do with an exception that is not a decode error. *)
Lemma attempt_except_rate_limit attempt max_retries e w :
  is_json_decode_error e = false -> is_rate_limit_error e = true ->
  attempt_except attempt max_retries e w =
    (Ok Next, after_sleep (inject_Z (Z.min 300 (60 * 2 ^ attempt))) w).
Proof.
  intros H1 H2. unfold attempt_except. rewrite H1, H2. unfold mbind, M_bind.
  rewrite time_sleep_Z by apply backoff_nonneg. reflexivity.
Qed.

Lemma attempt_except_generic_retry attempt max_retries e w :
  is_json_decode_error e = false -> is_rate_limit_error e = false ->
  attempt < max_retries - 1 ->
  attempt_except attempt max_retries e w =
    (Ok Next, after_sleep (inject_Z (10 * 2 ^ attempt)) w).
Proof.
  intros H1 H2 H3. unfold attempt_except. rewrite H1, H2.
  apply Z.ltb_lt in H3. rewrite H3. unfold mbind, M_bind.
  rewrite time_sleep_Z by apply generic_backoff_nonneg. reflexivity.
Qed.

Lemma attempt_except_generic_last attempt max_retries e w :
  is_json_decode_error e = false -> is_rate_limit_error e = false ->
  max_retries - 1 <= attempt ->
  attempt_except attempt max_retries e w =
    (Ok (Return (create_blocked_analysis "api_error")), w).
Proof.
  intros H1 H2 H3. unfold attempt_except. rewrite H1, H2.
  apply Z.ltb_ge in H3. now rewrite H3.
Qed.

Lemma attempt_body_api_raise prompt attempt max_retries w msg took :
  generate_content (length (api_calls w)) prompt = (ApiRaise msg, took) ->
  attempt_body json_loads generate_content prompt attempt max_retries w =
    attempt_except attempt max_retries (mkExn RuntimeError msg) (after_call prompt took w).
Proof.
  intros H. unfold attempt_body, try_except, attempt_try, mbind, M_bind.
  now rewrite (api_call_eq _ _ _ _ H).
Qed.

Lemma attempt_loop_S n prompt attempt max_retries w :
  attempt_loop json_loads generate_content (S n) prompt attempt max_retries w =
  match attempt_body json_loads generate_content prompt attempt max_retries w with
  | (Ok (Return v), w') => (Ok v, w')
  | (Ok Next, w') =>
      attempt_loop json_loads generate_content n prompt (attempt + 1) max_retries w'
  | (Raise e, w') => (Raise e, w')
  | (Blocked, w') => (Blocked, w')
  end.
Proof.
  cbn [attempt_loop]. unfold mbind, M_bind.
  destruct (attempt_body _ _ _ _ _ w) as [[[v|]|e|] w']; reflexivity.
Qed.

(** A read of the block message that raises is handled like any other
    exception of the [try] block. *)
Lemma attempt_body_message_raise prompt attempt max_retries w r pf msg took :
  generate_content (length (api_calls w)) prompt = (ApiReturn r, took) ->
  candidates r = [] -> prompt_feedback r = Some pf ->
  block_reason pf <> BLOCK_REASON_UNSPECIFIED ->
  block_reason_message pf = inr msg ->
  attempt_body json_loads generate_content prompt attempt max_retries w =
    attempt_except attempt max_retries (mkExn AttributeError msg) (after_call prompt took w).
Proof.
  intros Hapi Hc Hpf Hb Hm.
  unfold attempt_body, try_except, attempt_try, mbind, M_bind.
  rewrite (api_call_eq _ _ _ _ Hapi), Hc.
  unfold has_block_reason, prompt_block_message. rewrite Hpf, Hm.
  destruct (block_reason pf); [contradiction|reflexivity..].
Qed.

(** C8: a reply whose first candidate did not finish with STOP or
    MAX_TOKENS ends the loop at once, at whatever attempt it comes: the
    result is the blocked placeholder with the reason code, and the world
    is the one right after that single call (no sleep, no further call).
    A reply with no candidate and an explicit block reason ends the loop
    in that way, with [prompt_blocked], only when the read of the block
    message for the diagnostic of line 217 goes through. When that read
    raises, the handler of line 246 takes the exception for an error of
    the call: the attempt is followed by a sleep and the next attempt,
    and on the last attempt the result is the placeholder [api_error]. *)
Theorem prompt_block_return_needs_message prompt attempt max_retries n w r took :
  generate_content (length (api_calls w)) prompt = (ApiReturn r, took) ->
  let w1 := after_call prompt took w in
  (forall pf,
     candidates r = [] -> prompt_feedback r = Some pf ->
     block_reason pf <> BLOCK_REASON_UNSPECIFIED ->
     match block_reason_message pf with
     | inl _ =>
         attempt_loop json_loads generate_content (S n) prompt attempt max_retries w =
           (Ok (create_blocked_analysis "prompt_blocked"), w1)
     | inr msg =>
         let e := mkExn AttributeError msg in
         (is_rate_limit_error e = true ->
          attempt_body json_loads generate_content prompt attempt max_retries w =
            (Ok Next, after_sleep (inject_Z (Z.min 300 (60 * 2 ^ attempt))) w1)) /\
         (is_rate_limit_error e = false -> attempt < max_retries - 1 ->
          attempt_body json_loads generate_content prompt attempt max_retries w =
            (Ok Next, after_sleep (inject_Z (10 * 2 ^ attempt)) w1)) /\
         (is_rate_limit_error e = false -> max_retries - 1 <= attempt ->
          attempt_loop json_loads generate_content (S n) prompt attempt max_retries w =
            (Ok (create_blocked_analysis "api_error"), w1))
     end) /\
  (forall c rest,
     candidates r = c :: rest -> normal_finish (finish_reason_name c) = false ->
     attempt_loop json_loads generate_content (S n) prompt attempt max_retries w =
       (Ok (create_blocked_analysis ("safety_blocked_" +:+ lower (finish_reason_name c))),
        w1)).
Proof.
  intros Hapi w1. split.
  - intros pf Hc Hpf Hb. destruct (block_reason_message pf) as [message|msg] eqn:Hm.
    + rewrite attempt_loop_S.
      unfold attempt_body, try_except, attempt_try, mbind, M_bind.
      rewrite (api_call_eq _ _ _ _ Hapi), Hc.
      unfold has_block_reason, prompt_block_message. rewrite Hpf, Hm.
      destruct (block_reason pf); [contradiction|reflexivity..].
    + intros e.
      pose proof (attempt_body_message_raise prompt attempt max_retries w r pf msg took
                    Hapi Hc Hpf Hb Hm) as Hbody.
      split; [|split].
      * intros He. rewrite Hbody. now apply attempt_except_rate_limit.
      * intros He Hlt. rewrite Hbody. now apply attempt_except_generic_retry.
      * intros He Hge. rewrite attempt_loop_S, Hbody.
        now rewrite attempt_except_generic_last.
  - intros c rest Hc Hf. rewrite attempt_loop_S.
    unfold attempt_body, try_except, attempt_try, mbind, M_bind.
    rewrite (api_call_eq _ _ _ _ Hapi), Hc, Hf. reflexivity.
Qed.

(** C9: an error raised by the API call at attempt [attempt] whose
    lowercased text has one of the rate-limit markers is followed by a
    sleep of exactly [min(300, 60 * 2^attempt)] seconds and the next
    attempt; any other error is followed by a sleep of exactly
    [10 * 2^attempt] seconds and the next attempt while the budget lasts,
    and by the placeholder [api_error], with no sleep, on the last
    attempt. *)
Theorem api_error_backoff prompt attempt max_retries w msg took :
  0 <= attempt ->
  generate_content (length (api_calls w)) prompt = (ApiRaise msg, took) ->
  let e := mkExn RuntimeError msg in
  let w1 := after_call prompt took w in
  (is_rate_limit_error e = true ->
   attempt_body json_loads generate_content prompt attempt max_retries w =
     (Ok Next, after_sleep (inject_Z (Z.min 300 (60 * 2 ^ attempt))) w1)) /\
  (is_rate_limit_error e = false -> attempt < max_retries - 1 ->
   attempt_body json_loads generate_content prompt attempt max_retries w =
     (Ok Next, after_sleep (inject_Z (10 * 2 ^ attempt)) w1)) /\
  (is_rate_limit_error e = false -> max_retries - 1 <= attempt ->
   forall n,
   attempt_loop json_loads generate_content (S n) prompt attempt max_retries w =
     (Ok (create_blocked_analysis "api_error"), w1)).
Proof.
  intros _ Hapi e w1. repeat split.
  - intros He. rewrite (attempt_body_api_raise _ _ _ _ _ _ Hapi).
    now apply attempt_except_rate_limit.
  - intros He Hlt. rewrite (attempt_body_api_raise _ _ _ _ _ _ Hapi).
    now apply attempt_except_generic_retry.
  - intros He Hge n. rewrite attempt_loop_S, (attempt_body_api_raise _ _ _ _ _ _ Hapi).
    now rewrite attempt_except_generic_last.
Qed.

End InterpreterFacts.

Lemma from_first_head c s r : from_first c s = Some r -> exists rest, r = String c rest.
Proof.
  induction s as [|a s IH]; simpl; [discriminate|].
  destruct (Ascii.eqb a c) eqn:E; [|exact IH].
  apply Ascii.eqb_eq in E as ->. intros [= <-]. eauto.
Qed.

Lemma extract_json_head s j :
  extract_json_from_response s = Some j -> exists rest, j = String "{" rest.
Proof.
  unfold extract_json_from_response.
  destruct (from_first "{" s) as [[|a r]|] eqn:E; try discriminate.
  apply from_first_head in E as [rest [= -> ->]].
  destruct (through_last "}" rest); [|discriminate]. intros [= <-]. eauto.
Qed.

Section LastAttempt.

Variable json_loads : string -> exn + json.
Variable generate_content : nat -> string -> ApiOutcome * Q.
Variable fuel : nat.

Local Abbreviation body := (attempt_body json_loads generate_content).
Local Abbreviation loop := (attempt_loop json_loads generate_content).

Ltac crunch H :=
  repeat match type of H with
  | context [match ?x with _ => _ end] => destruct x eqn:?
  end.

(** On the last attempt the [try] block returns from the function or
    raises; it has no way to go round again. *)
Lemma attempt_try_last prompt attempt max_retries w f w' :
  max_retries - 1 <= attempt ->
  attempt_try json_loads generate_content prompt attempt max_retries w = (Ok f, w') ->
  exists v, f = Return v /\
    (accepted_reply json_loads v \/
     exists reason, v = create_blocked_analysis reason /\ last_attempt_reason reason).
Proof.
  intros Hlast H.
  assert (forall reason w0,
            In reason ["prompt_blocked"; "no_candidates"; "no_json"; "invalid_structure";
                       "json_error"; "api_error"] ->
            retry_or_give_up attempt max_retries reason w0 = (Ok f, w') ->
            exists v, f = Return v /\
              (accepted_reply json_loads v \/
               exists reason, v = create_blocked_analysis reason /\ last_attempt_reason reason))
    as Hgive.
  { intros reason w0 Hin Hr. rewrite retry_or_give_up_last in Hr by exact Hlast.
    injection Hr as <- <-. eexists. split; [reflexivity|]. right.
    eexists. split; [reflexivity|]. left. exact Hin. }
  unfold attempt_try, mbind, M_bind, response_text, prompt_block_message, lift, raise,
    mret, M_ret in H.
  destruct (api_call generate_content prompt w) as [[r| |] w1]; try discriminate.
  destruct (candidates r) as [|c rest].
  { destruct (has_block_reason r).
    - destruct (prompt_feedback r) as [pf|]; [|discriminate].
      destruct (block_reason_message pf) as [message|msg]; [|discriminate].
      injection H as <- <-. eexists. split; [reflexivity|]. right.
      eexists. split; [reflexivity|]. left. simpl. tauto.
    - eapply Hgive; [|exact H]. simpl. tauto. }
  destruct (negb (normal_finish (finish_reason_name c))).
  { injection H as <- <-. eexists. split; [reflexivity|]. right.
    eexists. split; [reflexivity|]. right. eauto. }
  destruct (text r) as [t|msg]; [|discriminate].
  destruct (extract_json_from_response t) as [j|] eqn:Ej.
  2:{ eapply Hgive; [|exact H]. simpl. tauto. }
  apply extract_json_head in Ej as [jr ->].
  destruct (json_loads (String "{" jr)) as [e|v] eqn:Ev; [discriminate|].
  destruct (all_keys_in required_keys v) as [e|[|]] eqn:Ek; [discriminate| |].
  - injection H as <- <-. eexists. split; [reflexivity|]. left.
    exists "{"%char, jr. auto.
  - eapply Hgive; [|exact H]. simpl. tauto.
Qed.

(** On the last attempt, the loop body goes on to the end of the loop only
    after an exception with a rate-limit marker; every other way out
    returns a reply or a placeholder with a reason code of its own. *)
Lemma attempt_body_last prompt attempt max_retries w f w' :
  max_retries - 1 <= attempt ->
  body prompt attempt max_retries w = (Ok f, w') ->
  (f = Next /\
   exists e w1,
     attempt_try json_loads generate_content prompt attempt max_retries w = (Raise e, w1) /\
     is_json_decode_error e = false /\ is_rate_limit_error e = true) \/
  (exists v, f = Return v /\
     (accepted_reply json_loads v \/
      exists reason, v = create_blocked_analysis reason /\ last_attempt_reason reason)).
Proof.
  intros Hlast H. unfold attempt_body, try_except in H.
  destruct (attempt_try json_loads generate_content prompt attempt max_retries w)
    as [[f1|e|] w1] eqn:Et.
  - right. injection H as <- <-. eapply attempt_try_last; eassumption.
  - unfold attempt_except in H.
    destruct (is_json_decode_error e) eqn:Ed.
    { rewrite retry_or_give_up_last in H by exact Hlast. injection H as <- <-.
      right. eexists. split; [reflexivity|]. right.
      eexists. split; [reflexivity|]. left. simpl. tauto. }
    destruct (is_rate_limit_error e) eqn:Er.
    { left. unfold mbind, M_bind in H.
      rewrite time_sleep_Z in H by apply backoff_nonneg.
      injection H as <- <-. split; [reflexivity|]. eauto. }
    apply Z.ltb_ge in Hlast. rewrite Hlast in H. injection H as <- <-.
    right. eexists. split; [reflexivity|]. right.
    eexists. split; [reflexivity|]. left. simpl. tauto.
  - discriminate.
Qed.

(** C4, as the code has it: with [max_retries = 3], once the rate governor
    has admitted the request and two attempts have gone round, a third
    attempt that goes round as well -- which it does only after an
    exception with a rate-limit marker -- leaves the placeholder
    [max_retries_exceeded]; a third attempt that ends in any other way
    returns a reply or a placeholder with that failure's own reason. *)
Theorem max_retries_exceeded_after_rate_limit prompt w w0 w1 w2 w3 (f : flow) :
  wait_if_needed fuel (estimate_tokens prompt + 600) w = (Ok tt, w0) ->
  body prompt 0 3 w0 = (Ok Next, w1) ->
  body prompt 1 3 w1 = (Ok Next, w2) ->
  body prompt 2 3 w2 = (Ok f, w3) ->
  match f with
  | Next =>
      analyze_content json_loads generate_content fuel prompt 3 w =
        (Ok (create_blocked_analysis "max_retries_exceeded"), w3) /\
      exists e w',
        attempt_try json_loads generate_content prompt 2 3 w2 = (Raise e, w') /\
        is_json_decode_error e = false /\ is_rate_limit_error e = true
  | Return v =>
      analyze_content json_loads generate_content fuel prompt 3 w = (Ok v, w3) /\
      (accepted_reply json_loads v \/
       exists reason, v = create_blocked_analysis reason /\ last_attempt_reason reason)
  end.
Proof.
  intros Hw H0 H1 H2.
  assert (analyze_content json_loads generate_content fuel prompt 3 w =
          match f with
          | Next => (Ok (create_blocked_analysis "max_retries_exceeded"), w3)
          | Return v => (Ok v, w3)
          end) as Hrun.
  { unfold analyze_content, mbind at 1, M_bind at 1. rewrite Hw.
    change (Z.to_nat 3) with 3%nat.
    rewrite attempt_loop_S, H0. change (0 + 1) with 1.
    rewrite attempt_loop_S, H1. change (1 + 1) with 2.
    rewrite attempt_loop_S, H2. destruct f; reflexivity. }
  destruct (attempt_body_last prompt 2 3 w2 f w3 ltac:(lia) H2)
    as [[-> Hex]|(v & -> & Hv)]; split; assumption.
Qed.

End LastAttempt.

(** C4 as stated fails: three generic API errors use up the three
    attempts and leave [api_error], not [max_retries_exceeded]. *)
Lemma max_retries_counterexample :
  length (api_calls (snd (analyze_content sample_json_loads
            (api_always (ApiRaise "boom")) 1 "p" 3 initial_world))) = 3%nat /\
  fst (analyze_content sample_json_loads
         (api_always (ApiRaise "boom")) 1 "p" 3 initial_world)
    = Ok (create_blocked_analysis "api_error") /\
  fst (analyze_content sample_json_loads
         (api_always (ApiRaise "boom")) 1 "p" 3 initial_world)
    <> Ok (create_blocked_analysis "max_retries_exceeded").
Proof.
  split; [vm_compute; reflexivity|]. split; [vm_compute; reflexivity|].
  vm_compute. intros H. discriminate H.
Qed.

(** The prompt refusal of the sample client, whose feedback has no
    block message to read, through a whole run with three attempts: three
    calls, sleeps of 10 and 20 seconds, and [api_error] in the end. *)
Example prompt_refusal_ends_as_api_error :
  let run := analyze_content sample_json_loads (api_always (ApiReturn prompt_refusal)) 1
               "p" 3 initial_world in
  fst run = Ok (create_blocked_analysis "api_error") /\
  api_calls (snd run) = ["p"; "p"; "p"] /\
  sleeps (snd run) = [inject_Z 10; inject_Z 20].
Proof. vm_compute. repeat split. Qed.

Lemma prompt_block_return_needs_message_witness :
  (attempt_body sample_json_loads (api_always (ApiReturn prompt_refusal)) "p" 0 3 initial_world
     = (Ok Next, after_sleep (inject_Z (10 * 2 ^ 0)) (after_call "p" 1 initial_world)) /\
   attempt_loop sample_json_loads (api_always (ApiReturn prompt_refusal)) 1 "p" 2 3 initial_world
     = (Ok (create_blocked_analysis "api_error"), after_call "p" 1 initial_world)) /\
  attempt_loop sample_json_loads (api_always (ApiReturn worded_refusal)) 3 "p" 0 3 initial_world
    = (Ok (create_blocked_analysis "prompt_blocked"), after_call "p" 1 initial_world) /\
  attempt_loop sample_json_loads (api_always (ApiReturn safety_refusal)) 3 "p" 1 3 initial_world
    = (Ok (create_blocked_analysis ("safety_blocked_" +:+ lower "SAFETY")),
       after_call "p" 1 initial_world).
Proof.
  split; [split|split].
  - apply (proj1 (prompt_block_return_needs_message sample_json_loads
                    (api_always (ApiReturn prompt_refusal)) "p" 0 3 0 initial_world
                    prompt_refusal 1%Q eq_refl)
             (mkFeedback SAFETY (inr "Unknown field for PromptFeedback: block_reason_message"))
             eq_refl eq_refl ltac:(discriminate)); [reflexivity | lia].
  - apply (proj1 (prompt_block_return_needs_message sample_json_loads
                    (api_always (ApiReturn prompt_refusal)) "p" 2 3 0 initial_world
                    prompt_refusal 1%Q eq_refl)
             (mkFeedback SAFETY (inr "Unknown field for PromptFeedback: block_reason_message"))
             eq_refl eq_refl ltac:(discriminate)); [reflexivity | lia].
  - exact (proj1 (prompt_block_return_needs_message sample_json_loads
                    (api_always (ApiReturn worded_refusal)) "p" 0 3 2 initial_world
                    worded_refusal 1%Q eq_refl)
             (mkFeedback SAFETY (inl "blocked")) eq_refl eq_refl ltac:(discriminate)).
  - apply (proj2 (prompt_block_return_needs_message sample_json_loads
                    (api_always (ApiReturn safety_refusal)) "p" 1 3 2 initial_world
                    safety_refusal 1%Q eq_refl) (mkCandidate "SAFETY") []); reflexivity.
Defined.

Lemma api_error_backoff_witness :
  attempt_body sample_json_loads (api_always (ApiRaise "HTTP 429: Quota exceeded")) "p" 3 5
      initial_world
    = (Ok Next, after_sleep (inject_Z (Z.min 300 (60 * 2 ^ 3))) (after_call "p" 1 initial_world)) /\
  attempt_body sample_json_loads (api_always (ApiRaise "boom")) "p" 1 3 initial_world
    = (Ok Next, after_sleep (inject_Z (10 * 2 ^ 1)) (after_call "p" 1 initial_world)) /\
  attempt_loop sample_json_loads (api_always (ApiRaise "boom")) 1 "p" 2 3 initial_world
    = (Ok (create_blocked_analysis "api_error"), after_call "p" 1 initial_world).
Proof.
  split; [|split].
  - apply (api_error_backoff sample_json_loads
             (api_always (ApiRaise "HTTP 429: Quota exceeded")) "p" 3 5 initial_world
             "HTTP 429: Quota exceeded" 1%Q ltac:(lia) eq_refl). reflexivity.
  - apply (api_error_backoff sample_json_loads (api_always (ApiRaise "boom")) "p" 1 3
             initial_world "boom" 1%Q ltac:(lia) eq_refl); [reflexivity | lia].
  - apply (api_error_backoff sample_json_loads (api_always (ApiRaise "boom")) "p" 2 3
             initial_world "boom" 1%Q ltac:(lia) eq_refl); [reflexivity | lia].
Defined.

Lemma max_retries_exceeded_after_rate_limit_witness :
  (analyze_content sample_json_loads (api_always (ApiRaise "quota exceeded")) 1 "p" 3
     initial_world
   = (Ok (create_blocked_analysis "max_retries_exceeded"),
      sample_after (api_always (ApiRaise "quota exceeded")) 3) /\
   exists e w',
     attempt_try sample_json_loads (api_always (ApiRaise "quota exceeded")) "p" 2 3
       (sample_after (api_always (ApiRaise "quota exceeded")) 2) = (Raise e, w') /\
     is_json_decode_error e = false /\ is_rate_limit_error e = true) /\
  (analyze_content sample_json_loads (api_always (ApiRaise "boom")) 1 "p" 3 initial_world
   = (Ok (create_blocked_analysis "api_error"), sample_after (api_always (ApiRaise "boom")) 3) /\
   (accepted_reply sample_json_loads (create_blocked_analysis "api_error") \/
    exists reason,
      create_blocked_analysis "api_error" = create_blocked_analysis reason /\
      last_attempt_reason reason)).
Proof.
  split.
  - exact (max_retries_exceeded_after_rate_limit sample_json_loads
             (api_always (ApiRaise "quota exceeded")) 1 "p" initial_world
             (sample_after (api_always (ApiRaise "quota exceeded")) 0)
             (sample_after (api_always (ApiRaise "quota exceeded")) 1)
             (sample_after (api_always (ApiRaise "quota exceeded")) 2)
             (sample_after (api_always (ApiRaise "quota exceeded")) 3)
             Next
             ltac:(vm_compute; reflexivity) ltac:(vm_compute; reflexivity)
             ltac:(vm_compute; reflexivity) ltac:(vm_compute; reflexivity)).
  - exact (max_retries_exceeded_after_rate_limit sample_json_loads
             (api_always (ApiRaise "boom")) 1 "p" initial_world
             (sample_after (api_always (ApiRaise "boom")) 0)
             (sample_after (api_always (ApiRaise "boom")) 1)
             (sample_after (api_always (ApiRaise "boom")) 2)
             (sample_after (api_always (ApiRaise "boom")) 3)
             (Return (create_blocked_analysis "api_error"))
             ltac:(vm_compute; reflexivity) ltac:(vm_compute; reflexivity)
             ltac:(vm_compute; reflexivity) ltac:(vm_compute; reflexivity)).
Defined.

(** ** The schema of the prompt and the keys that are checked *)

Lemma dict_has_In k d : dict_has k d = true <-> In k (dict_keys d).
Proof.
  unfold dict_has. induction d as [|[k' v] d IH]; simpl; [split; [discriminate | tauto]|].
  destruct (String.eqb k k') eqn:E.
  - apply String.eqb_eq in E as ->. split; auto.
  - apply String.eqb_neq in E. rewrite IH. split; [auto|]. intros [H|H]; [congruence | exact H].
Qed.

Lemma all_keys_in_obj keys d :
  (forall k, In k keys -> In k (dict_keys d)) -> all_keys_in keys (JObj d) = inr true.
Proof.
  induction keys as [|k keys IH]; intros H; [reflexivity|].
  simpl. rewrite (proj2 (dict_has_In k d)) by (apply H; now left).
  apply IH. intros k' Hk'. apply H. now right.
Qed.

(** Every key the interpreter checks is a key of the schema block. *)
Lemma required_keys_in_schema mineral k :
  In k required_keys -> In k (schema_keys mineral).
Proof. unfold required_keys, schema_keys. simpl. tauto. Qed.

(** The schema block also demands the relevance key, which is not among
    the keys that are checked. *)
Lemma relevance_key_demanded_not_required mineral :
  In (relevance_key mineral) (schema_keys mineral) /\
  ~ In (relevance_key mineral) required_keys.
Proof.
  split.
  - unfold schema_keys. simpl. tauto.
  - unfold required_keys, relevance_key. simpl.
    intros H. repeat destruct H as [H|H]; try (cbv in H; discriminate H). exact H.
Qed.

(** C3, at the failing input: a reply that carries the six fixed keys and
    not the relevance key that the prompt demanded is returned as a
    successful analysis. The key is demanded and is not checked. *)
Theorem reply_without_relevance_key_is_accepted
    (json_loads : string -> exn + json) (generate_content : nat -> string -> ApiOutcome * Q)
    mineral title body attempt max_retries n w pf rest reply_text json_text d took :
  generate_content (length (api_calls w)) (create_analysis_prompt mineral title body)
    = (ApiReturn (mkResponse (mkCandidate "STOP" :: rest) pf (inl reply_text)), took) ->
  extract_json_from_response reply_text = Some json_text ->
  json_loads json_text = inr (JObj d) ->
  dict_keys d = required_keys ->
  In (relevance_key mineral) (schema_keys mineral) /\
  ~ In (relevance_key mineral) required_keys /\
  ~ In (relevance_key mineral) (dict_keys d) /\
  attempt_loop json_loads generate_content (S n)
      (create_analysis_prompt mineral title body) attempt max_retries w
    = (Ok (JObj d), after_call (create_analysis_prompt mineral title body) took w).
Proof.
  intros Hapi Hex Hload Hkeys.
  destruct (relevance_key_demanded_not_required mineral) as [H1 H2].
  split; [exact H1|]. split; [exact H2|]. split; [now rewrite Hkeys|].
  rewrite attempt_loop_S.
  unfold attempt_body, try_except, attempt_try, mbind, M_bind.
  rewrite (api_call_eq _ _ _ _ _ Hapi). cbn [candidates finish_reason_name text].
  change (negb (normal_finish "STOP")) with false. cbv iota.
  unfold response_text. cbn [text]. unfold mret at 1, M_ret at 1.
  rewrite Hex. unfold lift. rewrite Hload.
  rewrite all_keys_in_obj by (intros k Hk; now rewrite Hkeys).
  reflexivity.
Qed.

Lemma reply_without_relevance_key_is_accepted_witness :
  In (relevance_key "gold") (schema_keys "gold") /\
  ~ In (relevance_key "gold") required_keys /\
  ~ In (relevance_key "gold") (dict_keys (dict_set "sentiment" (JStr "Positive") default_analysis)) /\
  attempt_loop sample_json_loads
      (api_always (ApiReturn (ok_response ("Here you go: " +:+ sample_reply_text))))
      3 (create_analysis_prompt "gold" "t" "s") 0 3 initial_world
    = (Ok sample_reply, after_call (create_analysis_prompt "gold" "t" "s") 1 initial_world).
Proof.
  apply (reply_without_relevance_key_is_accepted sample_json_loads
           (api_always (ApiReturn (ok_response ("Here you go: " +:+ sample_reply_text))))
           "gold" "t" "s" 0 3 2 initial_world None [] ("Here you go: " +:+ sample_reply_text)
           sample_reply_text (dict_set "sentiment" (JStr "Positive") default_analysis) 1%Q);
    reflexivity.
Defined.

(** ** How computations end, and what they leave alone *)

Lemma ends_ret {A} (P : A -> Prop) r a : P a -> ends P r (mret a).
Proof. intros H w. exact H. Qed.

Lemma ends_bind {A B} (Q : A -> Prop) (P : B -> Prop) r (m : M A) (k : A -> M B) :
  ends Q r m -> (forall a, Q a -> ends P r (k a)) -> ends P r (m ≫= k).
Proof.
  intros Hm Hk w. specialize (Hm w). unfold mbind, M_bind.
  destruct (m w) as [[a|e|] w1]; simpl in *; [|exact Hm|exact Hm].
  apply (Hk a Hm).
Qed.

Lemma ends_may_raise {A} (P : A -> Prop) r (m : M A) : ends P r m -> ends P true m.
Proof. intros H w. specialize (H w). destruct (fst (m w)); auto. Qed.

Lemma ends_lift {A} (P : A -> Prop) (x : exn + A) :
  (forall a, x = inr a -> P a) -> ends P true (lift x).
Proof. intros H w. destruct x; simpl; auto. Qed.

Lemma ends_raise {A} (P : A -> Prop) c msg : ends P true (raise c msg).
Proof. intros w. reflexivity. Qed.

Lemma ends_try_except {A} (P : A -> Prop) (body : M A) (h : exn -> M A) :
  ends P true body -> (forall e, ends P false (h e)) -> ends P false (try_except body h).
Proof.
  intros Hb Hh w. specialize (Hb w). unfold try_except.
  destruct (body w) as [[a|e|] w1]; simpl in *; [exact Hb | apply Hh | exact Hb].
Qed.

Lemma ends_time_sleep d : (0 <= d)%Q -> ends (fun _ => True) false (time_sleep d).
Proof. intros H w. now rewrite time_sleep_ok. Qed.

Lemma ends_time_sleep_Z z : 0 <= z -> ends (fun _ => True) false (time_sleep (inject_Z z)).
Proof. intros H w. now rewrite time_sleep_Z. Qed.

Lemma ends_api_call gen prompt : ends (fun _ => True) true (api_call gen prompt).
Proof.
  intros w. unfold api_call. destruct (gen _ _) as [[r|msg] took]; reflexivity.
Qed.

Lemma keeps_ret {A X} (proj : World -> X) (a : A) : keeps proj (mret a).
Proof. intros w. reflexivity. Qed.

Lemma keeps_bind {A B X} (proj : World -> X) (m : M A) (k : A -> M B) :
  keeps proj m -> (forall a, keeps proj (k a)) -> keeps proj (m ≫= k).
Proof.
  intros Hm Hk w. specialize (Hm w). unfold mbind, M_bind.
  destruct (m w) as [[a|e|] w1]; simpl in *; try exact Hm.
  rewrite Hk. exact Hm.
Qed.

Lemma keeps_lift {A X} (proj : World -> X) (x : exn + A) : keeps proj (lift x).
Proof. intros w. destruct x; reflexivity. Qed.

Lemma keeps_raise {A X} (proj : World -> X) c msg : keeps proj (@raise A c msg).
Proof. intros w. reflexivity. Qed.

Lemma keeps_reraise {A X} (proj : World -> X) e : keeps proj (@reraise A e).
Proof. intros w. reflexivity. Qed.

Lemma keeps_prompt_block_message {X} (proj : World -> X) r :
  keeps proj (prompt_block_message r).
Proof.
  intros w. unfold prompt_block_message.
  destruct (prompt_feedback r) as [pf|]; [destruct (block_reason_message pf)|]; reflexivity.
Qed.

Lemma ends_prompt_block_message r : ends (fun _ => True) true (prompt_block_message r).
Proof.
  intros w. unfold prompt_block_message.
  destruct (prompt_feedback r) as [pf|]; [destruct (block_reason_message pf)|]; reflexivity.
Qed.

Lemma keeps_try_except {A X} (proj : World -> X) (body : M A) (h : exn -> M A) :
  keeps proj body -> (forall e, keeps proj (h e)) -> keeps proj (try_except body h).
Proof.
  intros Hb Hh w. specialize (Hb w). unfold try_except.
  destruct (body w) as [[a|e|] w1]; simpl in *; try exact Hb.
  rewrite Hh. exact Hb.
Qed.

Lemma keeps_time_sleep_journal d : keeps journal (time_sleep d).
Proof. intros w. unfold time_sleep. destruct (Qle_bool 0 d); reflexivity. Qed.

Lemma keeps_time_sleep_rate_limiter d : keeps rate_limiter (time_sleep d).
Proof. intros w. unfold time_sleep. destruct (Qle_bool 0 d); reflexivity. Qed.

Lemma keeps_api_call_journal gen prompt : keeps journal (api_call gen prompt).
Proof. intros w. unfold api_call. destruct (gen _ _) as [[r|msg] took]; reflexivity. Qed.

Lemma keeps_api_call_rate_limiter gen prompt : keeps rate_limiter (api_call gen prompt).
Proof. intros w. unfold api_call. destruct (gen _ _) as [[r|msg] took]; reflexivity. Qed.

Lemma keeps_file_write_journal enc path data : keeps journal (file_write enc path data).
Proof. intros w. unfold file_write. destruct (enc data); reflexivity. Qed.

Lemma keeps_file_write_rate_limiter enc path data :
  keeps rate_limiter (file_write enc path data).
Proof. intros w. unfold file_write. destruct (enc data); reflexivity. Qed.

Lemma keeps_logger_rate_limiter e : keeps rate_limiter (logger e).
Proof. intros w. reflexivity. Qed.

Lemma keeps_open_append_rate_limiter path : keeps rate_limiter (open_append path).
Proof. intros w. unfold open_append. simpl. destruct (files w !! path); reflexivity. Qed.

Lemma keeps_wait_pass_journal est : keeps journal (wait_pass est).
Proof.
  intros w. rewrite wait_pass_eq. cbv zeta.
  repeat match goal with
  | |- context [Qle_bool ?a ?b] => destruct (Qle_bool a b) eqn:?
  | |- context [match ?l with [] => _ | _ :: _ => _ end] => destruct l as [|[? ?] ?] eqn:?
  | |- context [match ?l with [] => _ | _ :: _ => _ end] => destruct l eqn:?
  | |- context [time_sleep ?d ?w0] =>
      let H := fresh in
      pose proof (keeps_time_sleep_journal d w0) as H;
      destruct (time_sleep d w0) as [[?|?|] ?]; simpl in H
  end; simpl; auto.
Qed.

Lemma keeps_wait_if_needed_journal fuel est : keeps journal (wait_if_needed fuel est).
Proof.
  induction fuel as [|fuel IH]; [intros w; reflexivity|].
  cbn [wait_if_needed]. apply keeps_bind; [apply keeps_wait_pass_journal|].
  intros [[]|]; [apply keeps_ret | exact IH].
Qed.

Create HintDb keeps.

#[local] Hint Resolve keeps_ret keeps_lift keeps_raise keeps_reraise
  keeps_prompt_block_message
  keeps_time_sleep_journal keeps_time_sleep_rate_limiter
  keeps_api_call_journal keeps_api_call_rate_limiter
  keeps_file_write_journal keeps_file_write_rate_limiter
  keeps_logger_rate_limiter keeps_open_append_rate_limiter
  keeps_wait_if_needed_journal : keeps.

(** Breaks a goal [keeps proj m] down along the shape of [m]. *)
Ltac keeps_step :=
  first
    [ apply keeps_bind; [|intros ?]
    | apply keeps_try_except; [|intros ?]
    | match goal with
      | |- keeps _ (match ?x with _ => _ end) => destruct x
      | |- keeps _ (if ?x then _ else _) => destruct x
      | |- keeps _ (let '(_, _) := ?x in _) => destruct x
      end
    | solve [auto with keeps] ].

Ltac keeps_tac := repeat keeps_step.

(** ** The interpreter always answers *)

Lemma blocked_analysis_nonempty reason : nonempty_dict (create_blocked_analysis reason).
Proof. eexists. split; [reflexivity | discriminate]. Qed.

Lemma blocked_analysis_truthy reason : py_truthy (create_blocked_analysis reason) = true.
Proof. reflexivity. Qed.

Lemma str_contains_nonempty sub s :
  sub <> EmptyString -> str_contains sub s = true -> s <> EmptyString.
Proof.
  intros Hsub H ->. destruct sub; [now apply Hsub | discriminate H].
Qed.

(** A value that passed the key check counts as true in a condition. *)
Lemma checked_reply_truthy v : all_keys_in required_keys v = inr true -> py_truthy v = true.
Proof.
  destruct v as [| | | |s|l|d]; try discriminate.
  - intros H. change required_keys with ("sentiment" :: tl required_keys) in H.
    cbn [all_keys_in py_in] in H.
    destruct (str_contains "sentiment" s) eqn:E; [|discriminate].
    simpl. destruct s; [discriminate E | reflexivity].
  - intros H. destruct l; [discriminate H | reflexivity].
  - intros H. destruct d; [discriminate H | reflexivity].
Qed.

Lemma checked_object_nonempty d :
  all_keys_in required_keys (JObj d) = inr true -> nonempty_dict (JObj d).
Proof.
  intros H. exists d. split; [reflexivity|]. intros ->. discriminate H.
Qed.

Section Answers.

Variable json_loads : string -> exn + json.
Variable generate_content : nat -> string -> ApiOutcome * Q.
Variable fuel : nat.

(** What holds of every placeholder and of every accepted reply holds of
    every result of the attempt loop. *)
Variable P : json -> Prop.
Hypothesis P_blocked : forall reason, P (create_blocked_analysis reason).
Hypothesis P_reply : forall v, accepted_reply json_loads v -> P v.

Lemma ends_retry_or_give_up attempt max_retries reason r :
  ends (flow_with P) r (retry_or_give_up attempt max_retries reason).
Proof.
  unfold retry_or_give_up. destruct (attempt <? max_retries - 1).
  - eapply ends_bind.
    + destruct r; [eapply ends_may_raise|]; apply ends_time_sleep; vm_compute; discriminate.
    + intros _ _. now apply ends_ret.
  - apply ends_ret. apply P_blocked.
Qed.

Lemma ends_attempt_try prompt attempt max_retries :
  ends (flow_with P) true
    (attempt_try json_loads generate_content prompt attempt max_retries).
Proof.
  unfold attempt_try. eapply ends_bind; [apply ends_api_call|]. intros r _.
  destruct (candidates r) as [|c rest].
  { destruct (has_block_reason r); [|apply ends_retry_or_give_up].
    eapply ends_bind; [apply ends_prompt_block_message|].
    intros _ _. apply ends_ret, P_blocked. }
  destruct (negb (normal_finish (finish_reason_name c))); [apply ends_ret, P_blocked|].
  apply (ends_bind (fun _ => True)).
  { unfold response_text. destruct (text r); [now apply ends_ret | apply ends_raise]. }
  intros t _. destruct (extract_json_from_response t) as [j|] eqn:Ej;
    [|apply ends_retry_or_give_up].
  apply extract_json_head in Ej as [jr ->].
  apply (ends_bind (fun v => json_loads (String "{" jr) = inr v)); [now apply ends_lift|].
  intros v Hv.
  apply (ends_bind (fun b => all_keys_in required_keys v = inr b)); [now apply ends_lift|].
  intros [|] Hk; simpl; [|apply ends_retry_or_give_up].
  apply ends_ret. apply P_reply. exists "{"%char, jr. auto.
Qed.

Lemma ends_attempt_except attempt max_retries e :
  ends (flow_with P) false (attempt_except attempt max_retries e).
Proof.
  unfold attempt_except. destruct (is_json_decode_error e); [apply ends_retry_or_give_up|].
  destruct (is_rate_limit_error e).
  { eapply ends_bind; [apply ends_time_sleep_Z, backoff_nonneg|]. intros _ _. now apply ends_ret. }
  destruct (attempt <? max_retries - 1); [|apply ends_ret, P_blocked].
  eapply ends_bind; [apply ends_time_sleep_Z, generic_backoff_nonneg|].
  intros _ _. now apply ends_ret.
Qed.

Lemma ends_attempt_body prompt attempt max_retries :
  ends (flow_with P) false
    (attempt_body json_loads generate_content prompt attempt max_retries).
Proof.
  apply ends_try_except; [apply ends_attempt_try | apply ends_attempt_except].
Qed.

Lemma ends_attempt_loop n prompt attempt max_retries :
  ends P false (attempt_loop json_loads generate_content n prompt attempt max_retries).
Proof.
  revert attempt. induction n as [|n IH]; intros attempt; cbn [attempt_loop].
  - apply ends_ret, P_blocked.
  - eapply ends_bind; [apply ends_attempt_body|].
    intros [v|] Hf; [now apply ends_ret | apply IH].
Qed.

(** Whatever the governor does, a value that [analyze_content] returns
    satisfies [P]; and once the governor lets the request through,
    [analyze_content] does return. *)
Lemma analyze_content_result prompt max_retries w v w' :
  analyze_content json_loads generate_content fuel prompt max_retries w = (Ok v, w') -> P v.
Proof.
  unfold analyze_content, mbind, M_bind.
  destruct (wait_if_needed fuel _ w) as [[[]|e|] w0]; try discriminate.
  intros H. pose proof (ends_attempt_loop (Z.to_nat max_retries) prompt 0 max_retries w0) as He.
  rewrite H in He. exact He.
Qed.

Lemma analyze_content_answers prompt max_retries w w0 :
  wait_if_needed fuel (estimate_tokens prompt + 600) w = (Ok tt, w0) ->
  exists v w',
    analyze_content json_loads generate_content fuel prompt max_retries w = (Ok v, w') /\ P v.
Proof.
  intros Hw. unfold analyze_content, mbind, M_bind. rewrite Hw.
  pose proof (ends_attempt_loop (Z.to_nat max_retries) prompt 0 max_retries w0) as He.
  destruct (attempt_loop _ _ _ _ _ _ w0) as [[v|e|] w']; simpl in He;
    [eauto | discriminate | contradiction].
Qed.

End Answers.

(** ** The governor lets every affordable request through *)

Lemma Qltb_true x y : Qltb x y = true -> (x < y)%Q.
Proof. unfold Qltb. intros H. apply negb_true_iff in H. now apply Qle_bool_false. Qed.

Lemma Qltb_false_intro x y : (y <= x)%Q -> Qltb x y = false.
Proof. unfold Qltb. intros H. apply Qle_bool_iff in H. now rewrite H. Qed.

Lemma filter_head {A} (f : A -> bool) l x r : List.filter f l = x :: r -> f x = true.
Proof.
  intros H. assert (In x (List.filter f l)) as Hin by (rewrite H; now left).
  now apply filter_In in Hin.
Qed.

Lemma filter_drop_head {A} (f : A -> bool) x l :
  f x = false -> (length (List.filter f (x :: l)) <= length l)%nat.
Proof. intros H. simpl. rewrite H. apply filter_length_le. Qed.

(** The wait is long enough for the oldest entry to leave the window. *)
Lemma wait_time_nonneg t oldest :
  Qltb (t - 60) oldest = true -> (0 <= 60 - (t - oldest) + 0.1)%Q.
Proof. intros H. apply Qltb_true in H. lra. Qed.

Lemma oldest_expires t oldest :
  Qltb (t + (60 - (t - oldest) + 0.1) - 60) oldest = false.
Proof. apply Qltb_false_intro. lra. Qed.

Lemma wait_if_needed_S fuel est w :
  wait_if_needed (S fuel) est w =
  match wait_pass est w with
  | (Ok (Some _), w') => (Ok tt, w')
  | (Ok None, w') => wait_if_needed fuel est w'
  | (Raise e, w') => (Raise e, w')
  | (Blocked, w') => (Blocked, w')
  end.
Proof.
  cbn [wait_if_needed]. unfold mbind, M_bind.
  destruct (wait_pass est w) as [[[[]|]|e|] w']; reflexivity.
Qed.

(** The four ways a pass can end. *)
Lemma wait_pass_outcomes est w :
  let t := now w in
  let rl := rate_limiter w in
  let rts := in_window t (request_timestamps rl) in
  let tcs := List.filter (fun tc => Qltb (t - 60)%Q (fst tc)) (token_counts rl) in
  let pruned := set_rate_limiter (mkLimiter (rpm_limit rl) (tpm_limit rl) rts tcs) w in
  (exists e, wait_pass est w = (Raise e, pruned) /\
     ((rpm_limit rl <= 0)%Q \/ (tpm_limit rl <= inject_Z est)%Q)) \/
  (exists oldest r, rts = oldest :: r /\
     wait_pass est w = (Ok None, after_sleep (60 - (t - oldest) + 0.1)%Q pruned)) \/
  (exists oldest n r, tcs = (oldest, n) :: r /\
     wait_pass est w = (Ok None, after_sleep (60 - (t - oldest) + 0.1)%Q pruned)) \/
  (exists w', wait_pass est w = (Ok (Some tt), w')).
Proof.
  intros t rl rts tcs pruned. rewrite wait_pass_eq. cbv zeta.
  fold t rl rts tcs pruned.
  destruct (Qle_bool (rpm_limit rl) (inject_Z (Z.of_nat (length rts)))) eqn:E1.
  { destruct rts as [|oldest r] eqn:Erts.
    - left. eexists. split; [reflexivity|]. left. now apply Qle_bool_iff in E1.
    - right. left. exists oldest, r. split; [reflexivity|].
      rewrite time_sleep_ok; [reflexivity|].
      apply wait_time_nonneg. exact (filter_head _ _ _ _ Erts). }
  destruct (Qle_bool (tpm_limit rl) (inject_Z (sum_tokens tcs + est))) eqn:E2.
  { destruct tcs as [|[oldest n] r] eqn:Etcs.
    - left. eexists. split; [reflexivity|]. right. now apply Qle_bool_iff in E2.
    - right. right. left. exists oldest, n, r. split; [reflexivity|].
      rewrite time_sleep_ok; [reflexivity|].
      apply wait_time_nonneg. exact (filter_head _ _ _ _ Etcs). }
  right. right. right. eauto.
Qed.

Lemma wait_if_needed_ends_aux fuel est w rpm tpm :
  rpm = rpm_limit (rate_limiter w) -> tpm = tpm_limit (rate_limiter w) ->
  (0 < rpm)%Q ->
  (window_size w < fuel)%nat ->
  match fst (wait_if_needed fuel est w) with
  | Ok _ => True
  | Raise _ => (tpm <= inject_Z est)%Q
  | Blocked => False
  end.
Proof.
  revert w. induction fuel as [|fuel IH]; intros w Erpm Etpm Hrpm Hsize; [lia|].
  rewrite wait_if_needed_S. unfold window_size in Hsize.
  destruct (wait_pass_outcomes est w)
    as [(e & -> & [H|H])|[(oldest & r & Er & ->)|[(oldest & n & r & Er & ->)|(w' & ->)]]];
    simpl.
  - subst rpm. lra.
  - subst tpm. exact H.
  - apply IH; [exact Erpm | exact Etpm | exact Hrpm |].
    unfold window_size, after_sleep, in_window. cbn.
    unfold in_window in Er, Hsize. rewrite Er in *.
    pose proof (filter_drop_head
                  (fun x => Qltb (now w + (60 - (now w - oldest) + 0.1) - 60)%Q x) oldest r
                  (oldest_expires (now w) oldest)) as H1.
    pose proof (filter_length_le
                  (fun tc : Q * Z =>
                     Qltb (now w + (60 - (now w - oldest) + 0.1) - 60)%Q (fst tc))
                  (List.filter (fun tc : Q * Z => Qltb (now w - 60)%Q (fst tc))
                     (token_counts (rate_limiter w)))) as H2.
    simpl in Hsize. lia.
  - apply IH; [exact Erpm | exact Etpm | exact Hrpm |].
    unfold window_size, after_sleep, in_window. cbn.
    rewrite Er in *.
    pose proof (filter_drop_head
                  (fun tc : Q * Z =>
                     Qltb (now w + (60 - (now w - oldest) + 0.1) - 60)%Q (fst tc))
                  (oldest, n) r (oldest_expires (now w) oldest)) as H1.
    pose proof (filter_length_le
                  (fun x => Qltb (now w + (60 - (now w - oldest) + 0.1) - 60)%Q x)
                  (List.filter (fun x => Qltb (now w - 60)%Q x)
                     (request_timestamps (rate_limiter w)))) as H2.
    unfold in_window in Hsize. simpl in Hsize. lia.
  - exact I.
Qed.

Lemma window_size_le w :
  (window_size w <=
   length (request_timestamps (rate_limiter w)) + length (token_counts (rate_limiter w)))%nat.
Proof.
  unfold window_size, in_window.
  pose proof (filter_length_le (fun x => Qltb (now w - 60)%Q x)
                (request_timestamps (rate_limiter w))).
  pose proof (filter_length_le (fun tc : Q * Z => Qltb (now w - 60)%Q (fst tc))
                (token_counts (rate_limiter w))).
  lia.
Qed.

(** With a positive request limit and more passes than the windows hold
    entries, the wait is over within the passes; and it ends with the
    request admitted when the cost fits the token budget. *)
Lemma wait_if_needed_not_blocked fuel est w :
  (0 < rpm_limit (rate_limiter w))%Q ->
  (window_size w < fuel)%nat ->
  fst (wait_if_needed fuel est w) <> Blocked.
Proof.
  intros H1 H2 Hb.
  pose proof (wait_if_needed_ends_aux fuel est w _ _ eq_refl eq_refl H1 H2) as H.
  now rewrite Hb in H.
Qed.

Lemma wait_if_needed_returns fuel est w :
  (0 < rpm_limit (rate_limiter w))%Q ->
  (window_size w < fuel)%nat ->
  (inject_Z est < tpm_limit (rate_limiter w))%Q ->
  exists w', wait_if_needed fuel est w = (Ok tt, w').
Proof.
  intros H1 H2 H3.
  pose proof (wait_if_needed_ends_aux fuel est w _ _ eq_refl eq_refl H1 H2) as H.
  destruct (wait_if_needed fuel est w) as [[[]|e|] w']; simpl in H.
  - eauto.
  - lra.
  - contradiction.
Qed.

(** ** Results of [analyze_content] and of [_process_single_item] *)

Section Results.

Variable json_loads : string -> exn + json.
Variable generate_content : nat -> string -> ApiOutcome * Q.
Variable fuel : nat.

Lemma analyze_content_truthy prompt max_retries w v w' :
  analyze_content json_loads generate_content fuel prompt max_retries w = (Ok v, w') ->
  py_truthy v = true.
Proof.
  apply (analyze_content_result json_loads generate_content fuel
           (fun v => py_truthy v = true)).
  - apply blocked_analysis_truthy.
  - intros x (a & rest & _ & _ & Hk). now apply checked_reply_truthy.
Qed.

Lemma analyze_content_dict prompt max_retries w :
  yields_objects json_loads ->
  (0 < rpm_limit (rate_limiter w))%Q ->
  (window_size w < fuel)%nat ->
  within_token_budget prompt w ->
  exists v w',
    analyze_content json_loads generate_content fuel prompt max_retries w = (Ok v, w') /\
    nonempty_dict v.
Proof.
  intros Hobj Hrpm Hsize Hbudget.
  destruct (wait_if_needed_returns fuel _ w Hrpm Hsize Hbudget) as [w0 Hw].
  apply (analyze_content_answers json_loads generate_content fuel nonempty_dict) with (w0 := w0).
  - apply blocked_analysis_nonempty.
  - intros x (a & rest & Hl & Ha & Hk).
    destruct (Hobj a rest x Hl Ha) as [d ->]. now apply checked_object_nonempty.
  - exact Hw.
Qed.

Lemma nonempty_dict_truthy v : nonempty_dict v -> py_truthy v = true.
Proof. intros (d & -> & Hd). destruct d; [now destruct Hd | reflexivity]. Qed.

Lemma process_single_item_eq item item_type mineral i w :
  item !! "id" = Some i ->
  _process_single_item json_loads generate_content fuel item item_type mineral w =
  match analyze_content json_loads generate_content fuel
          (prompt_of item_type mineral item) 3 w with
  | (Ok analysis, w') =>
      if py_truthy analysis
      then (Ok (i, Some (JObj [("id", JStr i); ("analysis", analysis)])), w')
      else (Ok (i, None), w')
  | (Raise e, w') => (Raise e, w')
  | (Blocked, w') => (Blocked, w')
  end.
Proof.
  intros Hid. unfold _process_single_item, item_id_of, prompt_of. rewrite Hid.
  unfold mbind at 1, M_bind at 1. unfold mret at 1, M_ret at 1.
  destruct (String.eqb item_type "Post"); unfold mbind, M_bind;
    destruct (analyze_content _ _ _ _ _ w) as [[v|e|] w']; try reflexivity;
    destruct (py_truthy v); reflexivity.
Qed.

(** Whatever [_process_single_item] returns, its second component is a
    record, not [None]. *)
Lemma process_single_item_some item item_type mineral w i r w' :
  _process_single_item json_loads generate_content fuel item item_type mineral w
    = (Ok (i, r), w') ->
  exists analysis,
    r = Some (JObj [("id", JStr i); ("analysis", analysis)]) /\ item !! "id" = Some i.
Proof.
  destruct (item !! "id") as [i0|] eqn:Hid.
  - rewrite (process_single_item_eq _ _ _ _ _ Hid).
    destruct (analyze_content _ _ _ _ _ w) as [[v|e|] w1] eqn:Ea; try discriminate.
    rewrite (analyze_content_truthy _ _ _ _ _ Ea). intros [= <- <- <-]. eauto.
  - unfold _process_single_item, item_id_of. rewrite Hid. discriminate.
Qed.

End Results.

(** ** The governor's invariant along a run *)

Lemma preserves_ret {A} I (a : A) : preserves I (mret a).
Proof. intros w H. exact H. Qed.

Lemma preserves_bind {A B} I (m : M A) (k : A -> M B) :
  preserves I m -> (forall a, preserves I (k a)) -> preserves I (m ≫= k).
Proof.
  intros Hm Hk w H. specialize (Hm w H). unfold mbind, M_bind.
  destruct (m w) as [[a|e|] w1]; simpl in *; try exact Hm. now apply Hk.
Qed.

Lemma preserves_try_except {A} I (body : M A) (h : exn -> M A) :
  preserves I body -> (forall e, preserves I (h e)) -> preserves I (try_except body h).
Proof.
  intros Hb Hh w H. specialize (Hb w H). unfold try_except.
  destruct (body w) as [[a|e|] w1]; simpl in *; try exact Hb. now apply Hh.
Qed.

Lemma keeps_preserves {A X} (proj : World -> X) (P : X -> Prop) (m : M A) :
  keeps proj m -> preserves (fun w => P (proj w)) m.
Proof. intros Hk w H. now rewrite Hk. Qed.

Lemma map_fst_filter (f : Q -> bool) (l : list (Q * Z)) :
  map fst (List.filter (fun tc => f (fst tc)) l) = List.filter f (map fst l).
Proof.
  induction l as [|[t n] l IH]; simpl; [reflexivity|].
  destruct (f t); simpl; now rewrite IH.
Qed.

Lemma wait_pass_in_step est w :
  map fst (token_counts (rate_limiter w)) = request_timestamps (rate_limiter w) ->
  map fst (token_counts (rate_limiter (snd (wait_pass est w))))
    = request_timestamps (rate_limiter (snd (wait_pass est w))).
Proof.
  intros H.
  destruct (wait_pass_cases est w) as [(o & w1 & Hp & _ & Hrl)|(_ & _ & Hp)];
    rewrite Hp; cbn [snd].
  - rewrite Hrl. simpl. unfold in_window. now rewrite map_fst_filter, H.
  - simpl. unfold in_window. now rewrite map_app, map_fst_filter, H.
Qed.

Lemma wait_if_needed_in_step fuel est w :
  map fst (token_counts (rate_limiter w)) = request_timestamps (rate_limiter w) ->
  map fst (token_counts (rate_limiter (snd (wait_if_needed fuel est w))))
    = request_timestamps (rate_limiter (snd (wait_if_needed fuel est w))).
Proof.
  revert w. induction fuel as [|fuel IH]; intros w H; [exact H|].
  rewrite wait_if_needed_S. pose proof (wait_pass_in_step est w H) as Hp.
  destruct (wait_pass est w) as [[[[]|]|e|] w1]; simpl in *; auto.
Qed.

Lemma preserves_wait_if_needed fuel est :
  preserves (fun w => governor_inv (rate_limiter w)) (wait_if_needed fuel est).
Proof.
  intros w (H1 & H2 & H3).
  destruct (wait_if_needed_bound fuel est w H1 H3) as [B1 B2].
  split; [exact B1|]. split; [|exact B2]. now apply wait_if_needed_in_step.
Qed.

Lemma governor_inv_ready fuel w :
  governor_inv (rate_limiter w) -> (1440 < fuel)%nat ->
  (0 < rpm_limit (rate_limiter w))%Q /\ (window_size w < fuel)%nat.
Proof.
  intros (H1 & H2 & H3) Hf. split.
  - rewrite H1. vm_compute. reflexivity.
  - pose proof (window_size_le w) as Hle.
    rewrite <- H2, length_map in H3. rewrite <- H2, length_map in Hle. lia.
Qed.

(** ** Lists of the world that only grow *)

Lemma grows_keeps {A X} (proj : World -> list X) P (m : M A) : keeps proj m -> grows proj P m.
Proof. intros H w. exists []. rewrite H, app_nil_r. auto. Qed.

Lemma grows_bind {A B X} (proj : World -> list X) P (m : M A) (k : A -> M B) :
  grows proj P m -> (forall a, grows proj P (k a)) -> grows proj P (m ≫= k).
Proof.
  intros Hm Hk w. destruct (Hm w) as (l1 & E1 & F1). unfold mbind, M_bind.
  destruct (m w) as [[a|e|] w1]; simpl in *; eauto.
  destruct (Hk a w1) as (l2 & E2 & F2). exists (l1 ++ l2)%list.
  rewrite E2, E1, app_assoc. split; [reflexivity | now apply Forall_app].
Qed.

Lemma grows_try_except {A X} (proj : World -> list X) P (body : M A) (h : exn -> M A) :
  grows proj P body -> (forall e, grows proj P (h e)) -> grows proj P (try_except body h).
Proof.
  intros Hb Hh w. destruct (Hb w) as (l1 & E1 & F1). unfold try_except.
  destruct (body w) as [[a|e|] w1]; simpl in *; eauto.
  destruct (Hh e w1) as (l2 & E2 & F2). exists (l1 ++ l2)%list.
  rewrite E2, E1, app_assoc. split; [reflexivity | now apply Forall_app].
Qed.

Lemma grows_mono {A X} (proj : World -> list X) (P P' : X -> Prop) (m : M A) :
  (forall x, P x -> P' x) -> grows proj P m -> grows proj P' m.
Proof.
  intros HP H w. destruct (H w) as (l & E & F). exists l. split; [exact E|].
  eapply Forall_impl; eassumption.
Qed.

Lemma grows_api_call gen prompt : grows api_calls (eq prompt) (api_call gen prompt).
Proof.
  intros w. exists [prompt]. unfold api_call.
  destruct (gen _ _) as [[r|msg] took]; simpl; auto.
Qed.

Lemma keeps_time_sleep_api_calls d : keeps api_calls (time_sleep d).
Proof. intros w. unfold time_sleep. destruct (Qle_bool 0 d); reflexivity. Qed.

Lemma keeps_file_write_api_calls enc path data : keeps api_calls (file_write enc path data).
Proof. intros w. unfold file_write. destruct (enc data); reflexivity. Qed.

Lemma keeps_logger_api_calls e : keeps api_calls (logger e).
Proof. intros w. reflexivity. Qed.

Lemma keeps_open_append_api_calls path : keeps api_calls (open_append path).
Proof. intros w. unfold open_append. simpl. destruct (files w !! path); reflexivity. Qed.

Lemma keeps_wait_pass_api_calls est : keeps api_calls (wait_pass est).
Proof.
  intros w.
  destruct (wait_pass_outcomes est w)
    as [(e & -> & _)|[(oldest & r & _ & ->)|[(oldest & n & r & _ & ->)|(w' & Hw)]]];
    try reflexivity.
  destruct (wait_pass_cases est w) as [(o & w1 & Hp & Hne & _)|(_ & _ & Hp)].
  - rewrite Hw in Hp. injection Hp as <- <-. now destruct Hne.
  - rewrite Hp. reflexivity.
Qed.

Lemma keeps_wait_if_needed_api_calls fuel est : keeps api_calls (wait_if_needed fuel est).
Proof.
  induction fuel as [|fuel IH]; [intros w; reflexivity|].
  cbn [wait_if_needed]. apply keeps_bind; [apply keeps_wait_pass_api_calls|].
  intros [[]|]; [apply keeps_ret | exact IH].
Qed.

#[local] Hint Resolve keeps_time_sleep_api_calls keeps_file_write_api_calls
  keeps_logger_api_calls keeps_open_append_api_calls keeps_wait_if_needed_api_calls : keeps.

(** Breaks a goal [grows proj P m] down along the shape of [m]. *)
Ltac grows_step :=
  first
    [ apply grows_api_call
    | apply grows_bind; [|intros ?]
    | apply grows_try_except; [|intros ?]
    | match goal with
      | |- grows _ _ (match ?x with _ => _ end) => destruct x
      | |- grows _ _ (if ?x then _ else _) => destruct x
      end
    | apply grows_keeps; solve [auto with keeps] ].

Ltac grows_tac := repeat grows_step.

(** ** What the interpreter leaves alone *)

Section Frames.

Variable json_loads : string -> exn + json.
Variable generate_content : nat -> string -> ApiOutcome * Q.
Variable fuel : nat.

Lemma keeps_attempt_body_journal prompt attempt max_retries :
  keeps journal (attempt_body json_loads generate_content prompt attempt max_retries).
Proof.
  unfold attempt_body, attempt_try, attempt_except, retry_or_give_up, response_text.
  keeps_tac.
Qed.

Lemma keeps_attempt_body_rate_limiter prompt attempt max_retries :
  keeps rate_limiter (attempt_body json_loads generate_content prompt attempt max_retries).
Proof.
  unfold attempt_body, attempt_try, attempt_except, retry_or_give_up, response_text.
  keeps_tac.
Qed.

Lemma keeps_attempt_loop_journal n prompt attempt max_retries :
  keeps journal (attempt_loop json_loads generate_content n prompt attempt max_retries).
Proof.
  revert attempt. induction n as [|n IH]; intros attempt; cbn [attempt_loop].
  - apply keeps_ret.
  - apply keeps_bind; [apply keeps_attempt_body_journal|]. intros [v|]; [apply keeps_ret | apply IH].
Qed.

Lemma keeps_attempt_loop_rate_limiter n prompt attempt max_retries :
  keeps rate_limiter (attempt_loop json_loads generate_content n prompt attempt max_retries).
Proof.
  revert attempt. induction n as [|n IH]; intros attempt; cbn [attempt_loop].
  - apply keeps_ret.
  - apply keeps_bind; [apply keeps_attempt_body_rate_limiter|].
    intros [v|]; [apply keeps_ret | apply IH].
Qed.

Lemma keeps_analyze_content_journal prompt max_retries :
  keeps journal (analyze_content json_loads generate_content fuel prompt max_retries).
Proof.
  unfold analyze_content. apply keeps_bind; [apply keeps_wait_if_needed_journal|].
  intros _. apply keeps_attempt_loop_journal.
Qed.

Lemma keeps_process_single_item_journal item item_type mineral :
  keeps journal (_process_single_item json_loads generate_content fuel item item_type mineral).
Proof.
  unfold _process_single_item, item_id_of.
  apply keeps_bind; [destruct (item !! "id"); auto with keeps|]. intros i.
  destruct (String.eqb item_type "Post");
    (apply keeps_bind; [apply keeps_analyze_content_journal|]);
    intros v; destruct (py_truthy v); apply keeps_ret.
Qed.

Lemma grows_attempt_body_api_calls prompt attempt max_retries :
  grows api_calls (eq prompt)
    (attempt_body json_loads generate_content prompt attempt max_retries).
Proof.
  unfold attempt_body, attempt_try, attempt_except, retry_or_give_up, response_text.
  grows_tac.
Qed.

Lemma grows_attempt_loop_api_calls n prompt attempt max_retries :
  grows api_calls (eq prompt)
    (attempt_loop json_loads generate_content n prompt attempt max_retries).
Proof.
  revert attempt. induction n as [|n IH]; intros attempt; cbn [attempt_loop].
  - apply grows_keeps, keeps_ret.
  - apply grows_bind; [apply grows_attempt_body_api_calls|].
    intros [v|]; [apply grows_keeps, keeps_ret | apply IH].
Qed.

Lemma grows_analyze_content_api_calls prompt max_retries :
  grows api_calls (eq prompt)
    (analyze_content json_loads generate_content fuel prompt max_retries).
Proof.
  unfold analyze_content.
  apply grows_bind; [apply grows_keeps, keeps_wait_if_needed_api_calls|].
  intros _. apply grows_attempt_loop_api_calls.
Qed.

Lemma grows_process_single_item_api_calls item item_type mineral :
  grows api_calls (eq (prompt_of item_type mineral item))
    (_process_single_item json_loads generate_content fuel item item_type mineral).
Proof.
  unfold _process_single_item, item_id_of, prompt_of.
  apply grows_bind; [destruct (item !! "id"); apply grows_keeps; auto with keeps|].
  intros i.
  destruct (String.eqb item_type "Post");
    (apply grows_bind; [apply grows_analyze_content_api_calls|]);
    intros v; destruct (py_truthy v); apply grows_keeps, keeps_ret.
Qed.

Lemma preserves_analyze_content prompt max_retries :
  preserves (fun w => governor_inv (rate_limiter w))
    (analyze_content json_loads generate_content fuel prompt max_retries).
Proof.
  unfold analyze_content. apply preserves_bind; [apply preserves_wait_if_needed|].
  intros _. apply (keeps_preserves rate_limiter governor_inv).
  apply keeps_attempt_loop_rate_limiter.
Qed.

Lemma preserves_process_single_item item item_type mineral :
  preserves (fun w => governor_inv (rate_limiter w))
    (_process_single_item json_loads generate_content fuel item item_type mineral).
Proof.
  unfold _process_single_item, item_id_of.
  apply preserves_bind.
  { apply (keeps_preserves rate_limiter governor_inv). destruct (item !! "id"); auto with keeps. }
  intros i.
  destruct (String.eqb item_type "Post");
    (apply preserves_bind; [apply preserves_analyze_content|]);
    intros v; destruct (py_truthy v); apply preserves_ret.
Qed.

Lemma analyze_content_not_blocked prompt max_retries w :
  (0 < rpm_limit (rate_limiter w))%Q ->
  (window_size w < fuel)%nat ->
  fst (analyze_content json_loads generate_content fuel prompt max_retries w) <> Blocked.
Proof.
  intros H1 H2. pose proof (wait_if_needed_not_blocked fuel (estimate_tokens prompt + 600) w H1 H2) as Hw.
  unfold analyze_content, mbind, M_bind.
  destruct (wait_if_needed fuel _ w) as [[[]|e|] w0]; simpl in *;
    [|discriminate|contradiction].
  pose proof (ends_attempt_loop json_loads generate_content (fun _ => True)
                (fun _ => I) (fun _ _ => I) (Z.to_nat max_retries) prompt 0 max_retries w0) as He.
  intros Hb. now rewrite Hb in He.
Qed.

Lemma process_single_item_not_blocked item item_type mineral w :
  (0 < rpm_limit (rate_limiter w))%Q ->
  (window_size w < fuel)%nat ->
  fst (_process_single_item json_loads generate_content fuel item item_type mineral w)
    <> Blocked.
Proof.
  intros H1 H2. destruct (item !! "id") as [i|] eqn:Hid.
  - rewrite (process_single_item_eq _ _ _ _ _ _ _ _ Hid).
    pose proof (analyze_content_not_blocked (prompt_of item_type mineral item) 3 w H1 H2) as Hn.
    destruct (analyze_content _ _ _ _ _ w) as [[v|e|] w']; simpl in *;
      [destruct (py_truthy v)| |]; try discriminate. contradiction.
  - unfold _process_single_item, item_id_of. rewrite Hid. discriminate.
Qed.

End Frames.

(** ** Enrichment engine *)

Lemma try_except_bind_ok {A B} (m : M A) (k : A -> M B) h w a w1 :
  m w = (Ok a, w1) -> try_except (m ≫= k) h w = try_except (k a) h w1.
Proof. intros H. unfold try_except, mbind, M_bind. now rewrite H. Qed.

Lemma try_except_bind_raise {A B} (m : M A) (k : A -> M B) h w e w1 :
  m w = (Raise e, w1) -> try_except (m ≫= k) h w = h e w1.
Proof. intros H. unfold try_except, mbind, M_bind. now rewrite H. Qed.

Lemma try_except_bind_blocked {A B} (m : M A) (k : A -> M B) h w w1 :
  m w = (Blocked, w1) -> try_except (m ≫= k) h w = (Blocked, w1).
Proof. intros H. unfold try_except, mbind, M_bind. now rewrite H. Qed.

(** The futures complete in some order: each of them once. *)
Lemma as_completed_perm {A} (pick : list A -> nat) (l : list A) :
  as_completed pick (length l) l ≡ₚ l.
Proof.
  remember (length l) as n eqn:En. revert l En.
  induction n as [|n IH]; intros [|x l] En; try discriminate En; [reflexivity..|].
  cbn [as_completed]. set (i := (pick (x :: l) mod length (x :: l))%nat).
  assert (i < length (x :: l))%nat as Hi by (apply Nat.mod_upper_bound; discriminate).
  destruct (lookup_lt_is_Some_2 (x :: l) i Hi) as [y Hy]. rewrite Hy.
  change (default x (Some y)) with y.
  rewrite (delete_Permutation (x :: l) i y Hy) at 2. constructor. apply IH.
  rewrite length_delete by eauto. simpl in En. simpl. lia.
Qed.

Lemma as_completed_In {A} (pick : list A -> nat) (l : list A) x :
  In x (as_completed pick (length l) l) <-> In x l.
Proof.
  split; apply Permutation_in; [|symmetry]; apply as_completed_perm.
Qed.

Lemma as_completed_length {A} (pick : list A -> nat) (l : list A) :
  length (as_completed pick (length l) l) = length l.
Proof. apply Permutation_length, as_completed_perm. Qed.

Section EngineFacts.

Variable json_loads : string -> exn + json.
Variable generate_content : nat -> string -> ApiOutcome * Q.
Variable fuel : nat.
Variable json_dumps : json -> string.
Variable encodable : string -> bool.
Variable pick : list (gmap string string) -> nat.

Local Abbreviation single := (_process_single_item json_loads generate_content fuel).
Local Abbreviation collect := (collect_result json_loads generate_content fuel json_dumps encodable).
Local Abbreviation collect_all := (collect_results json_loads generate_content fuel json_dumps encodable).
Local Abbreviation process := (_process_items json_loads generate_content fuel json_dumps encodable pick).

(** One item of the loop: unless the governor's wait outlasts the passes
    it is followed for, the item is counted once and reported once, and
    the report is never the one of the branch for a missing result. *)
Lemma collect_result_cases item item_type mineral output_file stats w :
  (fst (collect item item_type mineral output_file stats w) = Blocked /\
   fst (single item item_type mineral w) = Blocked /\
   journal (snd (collect item item_type mineral output_file stats w)) = journal w) \/
  (exists e a b c,
     fst (collect item item_type mineral output_file stats w) = Ok (increment a b c stats) /\
     fst (single item item_type mineral w) <> Blocked /\
     journal (snd (collect item item_type mineral output_file stats w))
       = (journal w ++ [e])%list /\
     reported_id e = Some (item_get item "id") /\ is_failed_analysis e = false).
Proof.
  pose proof (keeps_process_single_item_journal json_loads generate_content fuel
                item item_type mineral w) as Hj.
  unfold collect_result.
  destruct (single item item_type mineral w) as [[[i r]|e|] w1] eqn:Ep; simpl in Hj.
  - right. rewrite (try_except_bind_ok _ _ _ _ _ _ Ep). cbn [snd].
    destruct (process_single_item_some _ _ _ _ _ _ _ _ _ _ Ep) as (analysis & -> & Hid).
    unfold try_except, mbind, M_bind, file_write, lift, logger, mret, M_ret.
    cbn [dict_get String.eqb Ascii.eqb Bool.eqb].
    destruct (encodable _); [destruct (topic_is_blocked analysis) as [e|[|]]|]; cbn;
      eexists _, _, _, _; (split; [reflexivity|]); (split; [discriminate|]);
      rewrite Hj; (split; [reflexivity|]); split; reflexivity.
  - right. rewrite (try_except_bind_raise _ _ _ _ _ _ Ep).
    unfold mbind, M_bind, logger, mret, M_ret. cbn.
    eexists _, _, _, _. split; [reflexivity|]. split; [discriminate|].
    rewrite Hj. split; [reflexivity|]. split; reflexivity.
  - left. rewrite (try_except_bind_blocked _ _ _ _ _ Ep). simpl. auto.
Qed.

Lemma increment_total a b c st :
  total_processed (increment a b c st) = total_processed st + 1.
Proof. reflexivity. Qed.

(** The list comprehension, when every item has an identifier. *)
Lemma select_new_eq items enriched w :
  (forall item, In item items -> is_Some (item !! "id")) ->
  select_new items enriched w = (Ok (List.filter (not_enriched enriched) items), w).
Proof.
  induction items as [|item items IH]; intros Hids; [reflexivity|].
  destruct (Hids item (or_introl eq_refl)) as [i Hi].
  cbn [select_new List.filter]. unfold item_id_of. rewrite Hi.
  unfold mbind at 1, M_bind at 1. unfold mret at 1, M_ret at 1.
  unfold mbind, M_bind. rewrite IH by (intros x Hx; apply Hids; now right).
  unfold not_enriched, item_get. rewrite Hi.
  change (default EmptyString (Some i)) with i.
  destruct (enriched !! KStr i) eqn:E.
  - rewrite bool_decide_eq_false_2 by discriminate. reflexivity.
  - rewrite bool_decide_eq_true_2 by reflexivity. reflexivity.
Qed.

Lemma preserves_collect_result item item_type mineral output_file stats :
  preserves (fun w => governor_inv (rate_limiter w))
    (collect item item_type mineral output_file stats).
Proof.
  unfold collect_result. apply preserves_try_except.
  - apply preserves_bind; [apply preserves_process_single_item|]. intros r.
    apply (keeps_preserves rate_limiter governor_inv). keeps_tac.
  - intros e. apply (keeps_preserves rate_limiter governor_inv). keeps_tac.
Qed.

Lemma grows_collect_result_api_calls item item_type mineral output_file stats :
  grows api_calls (eq (prompt_of item_type mineral item))
    (collect item item_type mineral output_file stats).
Proof.
  unfold collect_result. apply grows_try_except.
  - apply grows_bind; [apply grows_process_single_item_api_calls|]. intros r.
    apply grows_keeps. keeps_tac.
  - intros e. apply grows_keeps. keeps_tac.
Qed.

Lemma grows_collect_results_api_calls items item_type mineral output_file stats :
  grows api_calls
    (fun p => exists item, In item items /\ p = prompt_of item_type mineral item)
    (collect_all items item_type mineral output_file stats).
Proof.
  revert stats. induction items as [|item items IH]; intros stats; cbn [collect_results].
  - apply grows_keeps, keeps_ret.
  - apply grows_bind.
    + eapply grows_mono; [|apply grows_collect_result_api_calls].
      intros p <-. exists item. split; [now left | reflexivity].
    + intros st. eapply grows_mono; [|apply IH].
      intros p (x & Hx & ->). exists x. split; [now right | reflexivity].
Qed.

(** The reports of a run never come from the branch for a missing
    result, whatever the inputs. *)
Lemma collect_results_journal items item_type mineral output_file stats w :
  exists entries,
    journal (snd (collect_all items item_type mineral output_file stats w))
      = (journal w ++ entries)%list /\
    Forall (fun e => is_failed_analysis e = false) entries.
Proof.
  revert stats w. induction items as [|item items IH]; intros stats w; cbn [collect_results].
  - exists []. simpl. rewrite app_nil_r. auto.
  - unfold mbind, M_bind.
    destruct (collect_result_cases item item_type mineral output_file stats w)
      as [(Hb & _ & Hj)|(e & a & b & c & Ho & _ & Hj & _ & Hf)];
      destruct (collect item item_type mineral output_file stats w) as [[st|x|] w1];
      simpl in *; try discriminate.
    + exists []. rewrite Hj, app_nil_r. auto.
    + destruct (IH st w1) as (entries & E & F). exists (e :: entries).
      rewrite E, Hj, <- app_assoc. split; [reflexivity | now constructor].
Qed.

(** A loop that the governor does not hold up: every item it is given is
    counted and reported once, in the order of the loop. *)
Lemma collect_results_run items item_type mineral output_file stats w :
  governor_inv (rate_limiter w) -> (1440 < fuel)%nat ->
  exists stats' entries,
    fst (collect_all items item_type mineral output_file stats w) = Ok stats' /\
    total_processed stats' = total_processed stats + Z.of_nat (length items) /\
    journal (snd (collect_all items item_type mineral output_file stats w))
      = (journal w ++ entries)%list /\
    omap reported_id entries = map (fun item => item_get item "id") items.
Proof.
  intros Hg Hf. revert stats w Hg.
  induction items as [|item items IH]; intros stats w Hg; cbn [collect_results].
  - exists stats, []. simpl. rewrite app_nil_r. repeat split; lia.
  - unfold mbind, M_bind.
    pose proof (preserves_collect_result item item_type mineral output_file stats w Hg) as Hg1.
    destruct (governor_inv_ready fuel w Hg Hf) as [R1 R2].
    pose proof (process_single_item_not_blocked json_loads generate_content fuel
                  item item_type mineral w R1 R2) as Hnb.
    destruct (collect_result_cases item item_type mineral output_file stats w)
      as [(_ & Hb & _)|(e & a & b & c & Ho & _ & Hj & Hid & _)]; [contradiction|].
    destruct (collect item item_type mineral output_file stats w) as [[st|x|] w1];
      simpl in *; try discriminate.
    injection Ho as ->.
    destruct (IH (increment a b c stats) w1 Hg1) as (stats' & entries & E1 & E2 & E3 & E4).
    exists stats', (e :: entries). split; [exact E1|].
    split; [rewrite E2, increment_total; lia|].
    split; [rewrite E3, Hj, <- app_assoc; reflexivity|].
    cbn [omap list_omap]. rewrite Hid. simpl. now rewrite <- E4.
Qed.

(** The engine, when every item has an identifier: nothing to do, or the
    loop over the futures in the order in which they complete. *)
Lemma process_items_eq item_type items enriched stats mineral mineral_dir w :
  (forall item, In item items -> is_Some (item !! "id")) ->
  process item_type items enriched stats mineral mineral_dir w =
  match List.filter (not_enriched enriched) items with
  | [] => (Ok stats, set_journal (journal w ++ [LogNothingNew item_type])%list w)
  | new_items =>
      collect_all (as_completed pick (length new_items) new_items) item_type mineral
        (mineral_dir +:+ "/" +:+ lower item_type +:+ "s_enriched.jsonl") stats
        (snd (open_append
                (mineral_dir +:+ "/" +:+ lower item_type +:+ "s_enriched.jsonl") w))
  end.
Proof.
  intros Hids. unfold _process_items. unfold mbind at 1, M_bind at 1.
  rewrite (select_new_eq _ _ _ Hids).
  destruct (List.filter (not_enriched enriched) items); reflexivity.
Qed.

End EngineFacts.

Lemma sample_items_have_ids l :
  Forall (fun item => exists i t, item = sample_item i t) l ->
  forall item, In item l -> is_Some (item !! "id").
Proof.
  intros H item Hin. rewrite Forall_forall in H.
  destruct (H item ltac:(now apply list_elem_of_In)) as (i & t & ->).
  exists i. unfold sample_item. now rewrite lookup_insert_eq.
Qed.

Lemma initial_world_governor_inv : governor_inv (rate_limiter initial_world).
Proof. repeat split. simpl. lia. Qed.

(** ** No result is ever missing *)

Lemma select_new_world items enriched w : snd (select_new items enriched w) = w.
Proof.
  induction items as [|item items IH]; [reflexivity|].
  cbn [select_new]. unfold item_id_of, mbind, M_bind.
  destruct (item !! "id") as [i|]; [|reflexivity].
  unfold mret at 1, M_ret at 1.
  destruct (select_new items enriched w) as [[l|e|] w1]; simpl in *; try exact IH.
  destruct (enriched !! KStr i); exact IH.
Qed.

Lemma process_items_journal json_loads generate_content fuel json_dumps encodable pick
    item_type items enriched stats mineral mineral_dir w :
  exists entries,
    journal (snd (_process_items json_loads generate_content fuel json_dumps encodable pick
                    item_type items enriched stats mineral mineral_dir w))
      = (journal w ++ entries)%list /\
    Forall (fun e => is_failed_analysis e = false) entries.
Proof.
  unfold _process_items, mbind at 1, M_bind at 1.
  pose proof (select_new_world items enriched w) as Hw.
  destruct (select_new items enriched w) as [[l|e|] w1]; simpl in Hw; subst w1.
  - destruct l as [|item l].
    + exists [LogNothingNew item_type]. split; [reflexivity | repeat constructor].
    + unfold mbind, M_bind, open_append.
      match goal with
      | |- context [collect_results _ _ _ _ _ ?l ?a ?b ?c ?d ?w0] =>
          destruct (collect_results_journal json_loads generate_content fuel json_dumps
                      encodable l a b c d w0) as (entries & E & F)
      end.
      exists entries. split; [|exact F]. rewrite E.
      destruct (files w !! _); reflexivity.
  - exists []. simpl. rewrite app_nil_r. auto.
  - exists []. simpl. rewrite app_nil_r. auto.
Qed.

(** C10, as the code has it: once the governor lets the request through
    -- its wait comes to an end and the prompt's estimated cost is below
    the token budget -- [analyze_content] returns a non-empty dictionary,
    whatever the API does, and raises nothing; so, then,
    [_process_single_item] returns a record for every item that has an
    identifier; and on every run, the branch of [_process_items] for a
    missing result is never taken. *)
Theorem analyze_content_always_answers
    (json_loads : string -> exn + json) (generate_content : nat -> string -> ApiOutcome * Q)
    (fuel : nat) (json_dumps : json -> string)
    (encodable : string -> bool) (pick : list (gmap string string) -> nat) :
  yields_objects json_loads ->
  (forall prompt max_retries w,
      (0 < rpm_limit (rate_limiter w))%Q -> (window_size w < fuel)%nat ->
      within_token_budget prompt w ->
      exists v w',
        analyze_content json_loads generate_content fuel prompt max_retries w = (Ok v, w') /\
        nonempty_dict v) /\
  (forall item item_type mineral w i,
      item !! "id" = Some i ->
      (0 < rpm_limit (rate_limiter w))%Q -> (window_size w < fuel)%nat ->
      within_token_budget (prompt_of item_type mineral item) w ->
      exists analysis w',
        _process_single_item json_loads generate_content fuel item item_type mineral w
          = (Ok (i, Some (JObj [("id", JStr i); ("analysis", analysis)])), w') /\
        nonempty_dict analysis) /\
  (forall item_type items enriched stats mineral mineral_dir w,
      exists entries,
        journal (snd (_process_items json_loads generate_content fuel json_dumps encodable pick
                        item_type items enriched stats mineral mineral_dir w))
          = (journal w ++ entries)%list /\
        Forall (fun e => is_failed_analysis e = false) entries).
Proof.
  intros Hobj. split; [|split].
  - intros prompt max_retries w H1 H2 H3. now apply analyze_content_dict.
  - intros item item_type mineral w i Hid H1 H2 H3.
    rewrite (process_single_item_eq _ _ _ _ _ _ _ _ Hid).
    destruct (analyze_content_dict json_loads generate_content fuel
                (prompt_of item_type mineral item) 3 w Hobj H1 H2 H3) as (v & w' & -> & Hv).
    rewrite (nonempty_dict_truthy _ Hv). eauto.
  - intros. apply process_items_journal.
Qed.

Lemma sample_json_loads_yields_objects : yields_objects sample_json_loads.
Proof.
  intros a rest v H ->. unfold sample_json_loads in H.
  destruct (String.eqb (String "{" rest) sample_reply_text).
  - injection H as <-. eexists. reflexivity.
  - change (String.eqb (String "{" rest) "5") with false in H. cbv iota in H. discriminate H.
Qed.

Lemma analyze_content_always_answers_witness :
  exists v w',
    analyze_content sample_json_loads (api_always (ApiRaise "boom")) 1 "p" 3 initial_world
      = (Ok v, w') /\
    nonempty_dict v.
Proof.
  apply (proj1 (analyze_content_always_answers sample_json_loads
                  (api_always (ApiRaise "boom")) 1 sample_json_dumps
                  every_text first_pending sample_json_loads_yields_objects)).
  - vm_compute. reflexivity.
  - vm_compute. lia.
  - vm_compute. reflexivity.
Defined.

Lemma str_repeat_length c n : String.length (str_repeat c n) = n.
Proof. induction n as [|n IH]; simpl; [reflexivity | now rewrite IH]. Qed.

Lemma estimate_tokens_len s : estimate_tokens s = len s / 4.
Proof. destruct s; reflexivity. Qed.

Lemma oversized_prompt_cost : estimate_tokens oversized_prompt + 600 = 810000.
Proof.
  rewrite estimate_tokens_len. unfold len, oversized_prompt.
  rewrite str_repeat_length, N_nat_Z. reflexivity.
Qed.

(** C10 as stated fails: a prompt whose estimated cost is the whole token
    budget finds the token window empty, and the governor's read of its
    oldest entry raises out of [analyze_content]. *)
Lemma analyze_content_oversized_prompt_counterexample :
  fst (analyze_content sample_json_loads
         (api_always (ApiReturn (ok_response sample_reply_text))) 1
         oversized_prompt 3 initial_world)
    = Raise (mkExn IndexError "list index out of range").
Proof.
  unfold analyze_content, mbind, M_bind. rewrite oversized_prompt_cost.
  assert (fst (wait_if_needed 1 810000 initial_world)
          = Raise (mkExn IndexError "list index out of range")) as Hw
    by (vm_compute; reflexivity).
  destruct (wait_if_needed 1 810000 initial_world) as [[[]|e|] w0]; simpl in Hw;
    try discriminate Hw.
  injection Hw as ->. reflexivity.
Qed.

(** ** Checkpoint store *)

Section CheckpointFacts.

Variable json_loads : string -> exn + json.

Lemma load_line_tolerated enriched line w :
  tolerated_line json_loads line ->
  exists enriched', load_line json_loads enriched line w = (Ok enriched', w).
Proof.
  intros Ht. unfold load_line. unfold tolerated_line in Ht.
  destruct (strip line) as [|a s] eqn:Es; [eexists; reflexivity|].
  destruct Ht as [H|[(e & He & Hd)|(d & Hl & Hid)]]; [discriminate| |];
    unfold try_except, mbind, M_bind, lift.
  - rewrite He, Hd. eexists. reflexivity.
  - rewrite Hl. cbn [py_in]. unfold dict_has.
    destruct Hid as [Hn|(v & k & Hv & Hk)].
    + rewrite Hn. eexists. reflexivity.
    + rewrite Hv. cbn [py_getitem]. rewrite Hv. unfold enriched_set. rewrite Hk.
      eexists. reflexivity.
Qed.

(** What [load_enriched_data] does put up with: a file whose lines are
    all blank, unparseable or objects (with no identifier, or a hashable
    one) loads without an exception and leaves the world as it was. *)
Lemma load_lines_tolerated lines enriched w :
  Forall (tolerated_line json_loads) lines ->
  exists enriched', load_lines json_loads enriched lines w = (Ok enriched', w).
Proof.
  intros H. revert enriched. induction H as [|line lines Hl _ IH]; intros enriched.
  - eexists. reflexivity.
  - cbn [load_lines]. unfold mbind, M_bind.
    destruct (load_line_tolerated enriched line w Hl) as [e1 ->]. apply IH.
Qed.

(** C6, at the failing input: a line that parses to a number makes
    [load_enriched_data] raise a [TypeError], whatever else the file
    holds after it. *)
Theorem load_enriched_data_raises_on_scalar_line path content line rest z w :
  files w !! path = Some content ->
  file_lines content = line :: rest ->
  strip line <> EmptyString ->
  json_loads (strip line) = inr (JInt z) ->
  load_enriched_data json_loads path w
    = (Raise (mkExn TypeError "argument is not iterable"), w).
Proof.
  intros Hf Hl Hs Hj. unfold load_enriched_data. rewrite Hf, Hl.
  cbn [load_lines]. unfold mbind, M_bind, load_line.
  destruct (strip line) as [|a s] eqn:Es; [now destruct Hs|].
  unfold try_except, mbind, M_bind, lift. rewrite Hj. reflexivity.
Qed.

End CheckpointFacts.

Lemma load_enriched_data_raises_on_scalar_line_witness :
  load_enriched_data sample_json_loads "data/gold/posts_enriched.json"
    (set_files (<["data/gold/posts_enriched.json" := "5" +:+ nl]> ∅) initial_world)
  = (Raise (mkExn TypeError "argument is not iterable"),
     set_files (<["data/gold/posts_enriched.json" := "5" +:+ nl]> ∅) initial_world).
Proof.
  apply (load_enriched_data_raises_on_scalar_line sample_json_loads
           "data/gold/posts_enriched.json" ("5" +:+ nl) "5" [] 5).
  - reflexivity.
  - reflexivity.
  - discriminate.
  - reflexivity.
Defined.

(* ===================================================================== *)
(** * Part III: further properties of the code                            *)
(* ===================================================================== *)

(** ** Strings *)

Lemma str_app_cons a s t : String a s +:+ t = String a (s +:+ t).
Proof. reflexivity. Qed.

Lemma str_app_length s t : String.length (s +:+ t) = (String.length s + String.length t)%nat.
Proof. induction s as [|a s IH]; [reflexivity|]. rewrite str_app_cons. simpl. now rewrite IH. Qed.

Lemma str_app_assoc s t u : (s +:+ t) +:+ u = s +:+ (t +:+ u).
Proof. induction s as [|a s IH]; [reflexivity|]. rewrite !str_app_cons. now rewrite IH. Qed.

Lemma str_app_nil_r s : s +:+ EmptyString = s.
Proof. induction s as [|a s IH]; [reflexivity|]. rewrite str_app_cons. now rewrite IH. Qed.

(** ** The brace match of [extract_json_from_response] *)

Lemma from_first_skip c pre rest :
  has_char c pre = false ->
  from_first c (pre +:+ String c rest) = Some (String c rest).
Proof.
  induction pre as [|a pre IH]; intros H.
  - rewrite str_app_nil_l. simpl. now rewrite Ascii.eqb_refl.
  - simpl in H. apply orb_false_iff in H as [Ha H].
    rewrite str_app_cons. simpl. rewrite Ha. auto.
Qed.

Lemma through_last_none c s : has_char c s = false -> through_last c s = None.
Proof.
  induction s as [|a s IH]; intros H; [reflexivity|].
  simpl in H. apply orb_false_iff in H as [Ha H]. simpl. now rewrite IH, Ha.
Qed.

Lemma through_last_stop c body post :
  has_char c post = false ->
  through_last c (body +:+ String c post) = Some (body +:+ String c EmptyString).
Proof.
  intros H. induction body as [|a body IH].
  - rewrite !str_app_nil_l. simpl. now rewrite through_last_none, Ascii.eqb_refl.
  - rewrite !str_app_cons. simpl. now rewrite IH.
Qed.

(** X1: a JSON object embedded in prose is found whole: when no opening
    brace comes before it and no closing brace after it, the match is the
    object, braces included. *)
Theorem extract_json_embedded pre body post :
  has_char "{" pre = false -> has_char "}" post = false ->
  extract_json_from_response (pre +:+ "{" +:+ body +:+ "}" +:+ post)
    = Some ("{" +:+ body +:+ "}").
Proof.
  intros Hpre Hpost. unfold extract_json_from_response.
  change ("{" +:+ body +:+ "}" +:+ post) with (String "{" (body +:+ String "}" post)).
  rewrite (from_first_skip _ _ _ Hpre), (through_last_stop _ _ _ Hpost). reflexivity.
Qed.

Lemma extract_json_embedded_witness :
  extract_json_from_response ("Sure: " +:+ "{" +:+ "k: {n: 1}" +:+ "}" +:+ " done.")
    = Some ("{" +:+ "k: {n: 1}" +:+ "}").
Proof. apply extract_json_embedded; reflexivity. Defined.

Lemma from_first_split c s r :
  from_first c s = Some r ->
  exists pre rest, s = pre +:+ String c rest /\ r = String c rest /\ has_char c pre = false.
Proof.
  revert r. induction s as [|a s IH]; intros r H; [discriminate|].
  simpl in H. destruct (Ascii.eqb a c) eqn:E.
  - apply Ascii.eqb_eq in E as ->. injection H as <-.
    exists EmptyString, s. auto.
  - destruct (IH _ H) as (pre & rest & -> & -> & Hp).
    exists (String a pre), rest. simpl. rewrite E. auto.
Qed.

Lemma through_last_split c s r :
  through_last c s = Some r ->
  exists body post, s = body +:+ String c post /\ r = body +:+ String c EmptyString /\
                    has_char c post = false.
Proof.
  revert r. induction s as [|a s IH]; intros r H; [discriminate|].
  simpl in H. destruct (through_last c s) as [r'|] eqn:E.
  - injection H as <-. destruct (IH _ eq_refl) as (body & post & -> & -> & Hp).
    exists (String a body), post. auto.
  - destruct (Ascii.eqb a c) eqn:Ea; [|discriminate]. injection H as <-.
    apply Ascii.eqb_eq in Ea as ->. exists EmptyString, s. repeat split.
    clear IH. induction s as [|b s IH]; [reflexivity|].
    simpl in E. destruct (through_last c s); [discriminate|].
    destruct (Ascii.eqb b c) eqn:Eb; [discriminate|]. simpl. rewrite Eb. auto.
Qed.

(** X2: whatever [extract_json_from_response] returns runs from the first
    opening brace of the text to its last closing brace. *)
Theorem extract_json_span s j :
  extract_json_from_response s = Some j ->
  exists pre body post,
    s = pre +:+ "{" +:+ body +:+ "}" +:+ post /\
    j = "{" +:+ body +:+ "}" /\
    has_char "{" pre = false /\ has_char "}" post = false.
Proof.
  unfold extract_json_from_response. intros H.
  destruct (from_first "{" s) as [[|a rest]|] eqn:E1; try discriminate.
  destruct (from_first_split _ _ _ E1) as (pre & rest' & -> & [= -> ->] & Hpre).
  destruct (through_last "}" rest') as [r|] eqn:E2; [|discriminate]. injection H as <-.
  destruct (through_last_split _ _ _ E2) as (body & post & -> & -> & Hpost).
  exists pre, body, post. auto.
Qed.

Lemma extract_json_span_witness :
  exists pre body post,
    "a {b} c}" +:+ "d" = pre +:+ "{" +:+ body +:+ "}" +:+ post /\
    "{b} c}" = "{" +:+ body +:+ "}" /\
    has_char "{" pre = false /\ has_char "}" post = false.
Proof. apply (extract_json_span ("a {b} c}" +:+ "d") "{b} c}"). reflexivity. Defined.

(** ** [clean_text] on every input *)

Lemma all_chars_prefix p t s :
  String.prefix t s = true -> all_chars p s = true -> all_chars p t = true.
Proof.
  revert s. induction t as [|a t IH]; intros [|b s] H Hs; try reflexivity; try discriminate.
  apply prefix_cons in H as [-> H]. simpl in *.
  apply andb_true_iff in Hs as [Hb Hs]. rewrite Hb. simpl. eauto.
Qed.

Lemma all_chars_lstrip p s : all_chars p s = true -> all_chars p (lstrip s) = true.
Proof.
  induction s as [|a s IH]; intros H; [reflexivity|].
  simpl. destruct (is_space a); [|exact H].
  simpl in H. apply andb_true_iff in H as [_ H]. auto.
Qed.

Lemma all_chars_re_sub_from p m k s :
  all_chars p s = true -> all_chars p (re_sub_from m EmptyString k s) = true.
Proof.
  revert k. induction s as [|a s IH]; intros k H; [reflexivity|].
  simpl in H. apply andb_true_iff in H as [Ha H].
  cbn [re_sub_from]. destruct k as [|k]; [|auto].
  destruct (m (String a s)) as [[|n]|].
  - simpl. rewrite Ha. simpl. auto.
  - change (EmptyString ++ re_sub_from m EmptyString n s)%string
      with (EmptyString +:+ re_sub_from m EmptyString n s).
    rewrite str_app_nil_l. auto.
  - simpl. rewrite Ha. simpl. auto.
Qed.

Lemma ws_collapsed_plain s : ws_collapsed s = true -> all_chars plain s = true.
Proof.
  induction s as [|a s IH]; intros H; [reflexivity|].
  cbn [ws_collapsed] in H. apply andb_true_iff in H as [Ha H].
  cbn [all_chars]. rewrite (IH H), andb_true_r. unfold plain.
  destruct (non_space a); [reflexivity|]. simpl in *.
  now apply andb_true_iff in Ha as [-> _].
Qed.

Lemma lstrip_starts_clean s : starts_clean (lstrip s).
Proof.
  induction s as [|a s IH]; [exact I|].
  simpl. destruct (is_space a) eqn:E; [exact IH | exact E].
Qed.

Lemma prefix_starts_clean t s :
  String.prefix t s = true -> starts_clean s -> starts_clean t.
Proof.
  destruct t as [|a t], s as [|b s]; simpl; try easy.
  intros H. change (String.prefix (String a t) (String b s) = true) in H.
  apply prefix_cons in H as [-> _]. auto.
Qed.

Lemma starts_clean_lstrip s : starts_clean s -> lstrip s = s.
Proof. destruct s as [|a s]; [reflexivity|]. simpl. now intros ->. Qed.

Lemma rstrip_idem s : rstrip (rstrip s) = rstrip s.
Proof.
  induction s as [|c s IH]; [reflexivity|].
  cbn [rstrip]. destruct (rstrip s) as [|d r] eqn:E.
  - destruct (is_space c) eqn:Ec; [reflexivity|]. cbn [rstrip]. now rewrite Ec.
  - change (rstrip (String c (String d r))) with
      (match rstrip (String d r) with
       | EmptyString => if is_space c then EmptyString else String c EmptyString
       | String x y => String c (String x y)
       end).
    now rewrite IH.
Qed.

Lemma strip_idem s : strip (strip s) = strip s.
Proof.
  unfold strip. rewrite (starts_clean_lstrip (rstrip (lstrip s))).
  - apply rstrip_idem.
  - eapply prefix_starts_clean; [apply rstrip_prefix | apply lstrip_starts_clean].
Qed.

Lemma str_take_short n s : (String.length (str_take n s) < n)%nat -> str_take n s = s.
Proof.
  revert s. induction n as [|n IH]; intros s H; [lia|].
  destruct s as [|c s]; [reflexivity|]. simpl in *. rewrite IH; [reflexivity | lia].
Qed.

(** X3: whatever the text, the cleaned text holds no whitespace but plain
    spaces -- no line break or tab survives --, it does not start with
    whitespace, and below the cut-off of 3000 characters it does not end
    with whitespace either. *)
Theorem clean_text_single_line text :
  all_chars plain (clean_text text) = true /\
  lstrip (clean_text text) = clean_text text /\
  ((String.length (clean_text text) < 3000)%nat ->
   strip (clean_text text) = clean_text text).
Proof.
  destruct text as [|c text]; [repeat split; reflexivity|].
  unfold clean_text.
  set (t := re_sub marker_match EmptyString
              (re_sub ws_match " " (re_sub url_match EmptyString (String c text)))).
  split; [|split].
  - apply (all_chars_prefix _ _ (strip t)); [apply str_take_prefix|].
    unfold strip. apply (all_chars_prefix _ _ (lstrip t)); [apply rstrip_prefix|].
    apply all_chars_lstrip. unfold t, re_sub at 1.
    apply all_chars_re_sub_from, ws_collapsed_plain, re_sub_ws_collapsed.
  - apply starts_clean_lstrip.
    eapply prefix_starts_clean; [apply str_take_prefix|].
    eapply prefix_starts_clean; [apply rstrip_prefix | apply lstrip_starts_clean].
  - intros H. rewrite (str_take_short _ _ H). apply strip_idem.
Qed.

Lemma str_drop_length_eq k s :
  String.length (str_drop k s) = (String.length s - k)%nat.
Proof.
  revert s. induction k as [|k IH]; intros [|c s]; simpl; try lia. apply IH.
Qed.

(** A substitution whose replacement is no longer than any match does not
    lengthen the text. *)
Lemma re_sub_length m r s :
  (forall t n, m t = Some n -> (String.length r <= n <= String.length t)%nat) ->
  (String.length (re_sub m r s) <= String.length s)%nat.
Proof.
  intros Hm. induction s as [s IH] using string_length_ind.
  destruct s as [|c s]; [reflexivity|].
  rewrite re_sub_cons. destruct (m (String c s)) as [[|k]|] eqn:E.
  - simpl. specialize (IH s ltac:(simpl; lia)). lia.
  - apply Hm in E. simpl in E. rewrite str_app_length.
    assert (String.length (re_sub m r (str_drop k s)) <= String.length (str_drop k s))%nat
      as H by (apply IH; rewrite str_drop_length_eq; simpl; lia).
    rewrite str_drop_length_eq in H. simpl. lia.
  - simpl. specialize (IH s ltac:(simpl; lia)). lia.
Qed.

Lemma span_len_le p s : (span_len p s <= String.length s)%nat.
Proof. induction s as [|c s IH]; simpl; [lia|]. destruct (p c); simpl; lia. Qed.

Lemma prefix_ci_length p s : prefix_ci p s = true -> (String.length p <= String.length s)%nat.
Proof.
  revert s. induction p as [|a p IH]; intros [|b s] H; simpl in *; try lia; try discriminate.
  apply andb_true_iff in H as [_ H]. apply IH in H. lia.
Qed.

Lemma prefix_length t s : String.prefix t s = true -> (String.length t <= String.length s)%nat.
Proof.
  revert s. induction t as [|a t IH]; intros [|b s] H; simpl in *; try lia; try discriminate.
  change (String.prefix (String a t) (String b s) = true) in H.
  apply prefix_cons in H as [_ H]. apply IH in H. lia.
Qed.

Lemma lstrip_length s : (String.length (lstrip s) <= String.length s)%nat.
Proof. induction s as [|c s IH]; simpl; [lia|]. destruct (is_space c); simpl; lia. Qed.

Lemma strip_length s : (String.length (strip s) <= String.length s)%nat.
Proof.
  unfold strip. pose proof (prefix_length _ _ (rstrip_prefix (lstrip s))).
  pose proof (lstrip_length s). lia.
Qed.

(** X4: cleaning never lengthens a text. *)
Theorem clean_text_shrinks text :
  (String.length (clean_text text) <= String.length text)%nat.
Proof.
  destruct text as [|c text]; [reflexivity|]. unfold clean_text.
  set (s := String c text).
  pose proof (prefix_length _ _
    (str_take_prefix 3000
       (strip (re_sub marker_match EmptyString
                 (re_sub ws_match " " (re_sub url_match EmptyString s)))))) as H1.
  pose proof (strip_length
    (re_sub marker_match EmptyString
       (re_sub ws_match " " (re_sub url_match EmptyString s)))) as H2.
  assert (forall t, String.length (re_sub marker_match EmptyString t) <= String.length t)%nat
    as H3.
  { intros t. apply re_sub_length. intros u n Hn. unfold marker_match in Hn.
    destruct (prefix_ci "[deleted]" u || prefix_ci "[removed]" u) eqn:E; [|discriminate].
    injection Hn as <-. simpl. split; [lia|].
    apply orb_true_iff in E as [E|E]; apply prefix_ci_length in E; exact E. }
  assert (forall t, String.length (re_sub ws_match " " t) <= String.length t)%nat as H4.
  { intros t. apply re_sub_length. intros u n Hn. unfold ws_match in Hn.
    pose proof (span_len_le is_space u).
    destruct (span_len is_space u); [discriminate|]. injection Hn as <-. simpl. lia. }
  assert (forall t, String.length (re_sub url_match EmptyString t) <= String.length t)%nat
    as H5.
  { intros t. apply re_sub_length. intros u n Hn. apply url_match_run in Hn as [-> _].
    pose proof (span_len_le non_space u). simpl. lia. }
  specialize (H3 (re_sub ws_match " " (re_sub url_match EmptyString s))).
  specialize (H4 (re_sub url_match EmptyString s)). specialize (H5 s). lia.
Qed.

(** ** Size of the prompt and its estimated cost *)

(** Replaces the length of every closed string of the goal by its value. *)
Ltac count_closed :=
  repeat match goal with
  | |- context [String.length ?s] =>
      let n := eval vm_compute in (String.length s) in
      let b := eval vm_compute in (Nat.leb n n) in
      match b with true => change (String.length s) with n end
  end.

Lemma prompt_length mineral title body :
  String.length (create_analysis_prompt mineral title body) =
  (1076 + 2 * String.length mineral +
   String.length (strip ("Title: " +:+ clean_text title +:+ nl +:+ nl +:+
                         "Body: " +:+ clean_text body)))%nat.
Proof.
  unfold create_analysis_prompt.
  generalize (strip ("Title: " +:+ clean_text title +:+ nl +:+ nl +:+
                     "Body: " +:+ clean_text body)).
  intros content. cbv zeta.
  unfold schema_entries. cbn [String.concat map]. unfold schema_line, quoted. cbn [fst snd].
  rewrite !str_app_length. count_closed. lia.
Qed.

Lemma content_length title body :
  len (strip ("Title: " +:+ clean_text title +:+ nl +:+ nl +:+
              "Body: " +:+ clean_text body)) <= 6015.
Proof.
  unfold len.
  pose proof (strip_length ("Title: " +:+ clean_text title +:+ nl +:+ nl +:+
                            "Body: " +:+ clean_text body)) as H.
  rewrite !str_app_length in H.
  pose proof (clean_text_length title) as Ht. pose proof (clean_text_length body) as Hb.
  revert H Ht Hb. generalize (clean_text title) (clean_text body). intros t b.
  count_closed. lia.
Qed.

(** X5: the prompt is the fixed template of 1076 characters, the mineral
    name twice, and the cleaned content of at most 6015 characters; so its
    estimated cost does not depend on the size of the post or comment. *)
Theorem prompt_size_bounded mineral title body :
  1076 + 2 * len mineral <= len (create_analysis_prompt mineral title body)
    <= 7091 + 2 * len mineral /\
  estimate_tokens (create_analysis_prompt mineral title body) + 600
    <= 2372 + len mineral / 2 + 1.
Proof.
  assert (1076 + 2 * len mineral <= len (create_analysis_prompt mineral title body)
            <= 7091 + 2 * len mineral) as H.
  { pose proof (content_length title body). unfold len in *. rewrite prompt_length. lia. }
  split; [exact H|]. rewrite estimate_tokens_len.
  assert (0 <= len mineral) by (unfold len; lia).
  Z.div_mod_to_equations. lia.
Qed.

(** Under the default token limit, the prompt for a mineral name of at
    most 1000 characters is within the budget. *)
Lemma prompt_within_budget item_type mineral item w :
  tpm_limit (rate_limiter w) = tpm_limit default_rate_limiter ->
  len mineral <= 1000 ->
  within_token_budget (prompt_of item_type mineral item) w.
Proof.
  intros Ht Hm. unfold within_token_budget. rewrite Ht.
  assert (estimate_tokens (prompt_of item_type mineral item) + 600 <= 2873) as H.
  { unfold prompt_of. assert (len mineral / 2 <= 500) by (Z.div_mod_to_equations; lia).
    destruct (String.eqb item_type "Post");
      match goal with
      | |- context [create_analysis_prompt ?m ?t ?b] =>
          pose proof (proj2 (prompt_size_bounded m t b))
      end; lia. }
  apply Qlt_le_trans with (inject_Z 2874).
  - rewrite <- Zlt_Qlt. lia.
  - vm_compute. discriminate.
Qed.

(** ** Cost of a run in API calls *)

Lemma select_new_ok items enriched w l w' :
  select_new items enriched w = (Ok l, w') ->
  l = List.filter (not_enriched enriched) items /\ w' = w /\
  forall item, In item items -> is_Some (item !! "id").
Proof.
  revert l w'. induction items as [|item items IH]; intros l w' H.
  - injection H as <- <-. repeat split. intros item [].
  - cbn [select_new] in H. unfold item_id_of in H.
    destruct (item !! "id") as [i|] eqn:Hi; [|discriminate].
    unfold mbind at 1, M_bind at 1 in H. unfold mret at 1, M_ret at 1 in H.
    unfold mbind, M_bind in H.
    destruct (select_new items enriched w) as [[l0|e|] w0]; try discriminate.
    destruct (IH l0 w0 eq_refl) as (-> & -> & Hids).
    cbn [List.filter]. unfold not_enriched at 1, item_get. rewrite Hi.
    change (default EmptyString (Some i)) with i.
    assert (forall x, In x (item :: items) -> is_Some (x !! "id")) as Hall
      by (intros x [<-|Hx]; [rewrite Hi; eauto | auto]).
    destruct (enriched !! KStr i) eqn:E.
    + rewrite bool_decide_eq_false_2 by discriminate. injection H as <- <-. auto.
    + rewrite bool_decide_eq_true_2 by reflexivity. injection H as <- <-. auto.
Qed.

Section Budget.

Variable json_loads : string -> exn + json.
Variable generate_content : nat -> string -> ApiOutcome * Q.
Variable fuel : nat.
Variable json_dumps : json -> string.
Variable encodable : string -> bool.
Variable pick : list (gmap string string) -> nat.

(** Every attempt makes one call, however it ends. *)
Lemma attempt_body_one_call prompt attempt max_retries w :
  api_calls (snd (attempt_body json_loads generate_content prompt attempt max_retries w))
    = (api_calls w ++ [prompt])%list.
Proof.
  unfold attempt_body, attempt_try.
  destruct (generate_content (length (api_calls w)) prompt) as [out took] eqn:G.
  pose proof (api_call_eq generate_content prompt w out took G) as Hc.
  destruct out as [r|msg].
  - rewrite (try_except_bind_ok _ _ _ _ _ _ Hc).
    match goal with
    | |- api_calls (snd (?m _)) = _ =>
        assert (keeps api_calls m) as K
          by (unfold attempt_except, retry_or_give_up, response_text; keeps_tac)
    end.
    rewrite K. reflexivity.
  - rewrite (try_except_bind_raise _ _ _ _ _ _ Hc).
    match goal with
    | |- api_calls (snd (?m _)) = _ =>
        assert (keeps api_calls m) as K
          by (unfold attempt_except, retry_or_give_up; keeps_tac)
    end.
    rewrite K. reflexivity.
Qed.

Lemma attempt_loop_calls n prompt attempt max_retries w :
  exists k, (k <= n)%nat /\
    api_calls (snd (attempt_loop json_loads generate_content n prompt attempt max_retries w))
      = (api_calls w ++ repeat prompt k)%list.
Proof.
  revert attempt w. induction n as [|n IH]; intros attempt w.
  - exists 0%nat. simpl. now rewrite app_nil_r.
  - rewrite attempt_loop_S.
    pose proof (attempt_body_one_call prompt attempt max_retries w) as H1.
    destruct (attempt_body _ _ _ _ _ w) as [[[v|]|e|] w1]; simpl in H1;
      try (exists 1%nat; split; [lia | exact H1]).
    destruct (IH (attempt + 1) w1) as (k & Hk & E). exists (S k). split; [lia|].
    rewrite E, H1, <- app_assoc. reflexivity.
Qed.

Lemma attempt_loop_first_call n prompt attempt max_retries w :
  exists k, (1 <= k <= S n)%nat /\
    api_calls (snd (attempt_loop json_loads generate_content (S n) prompt attempt
                      max_retries w))
      = (api_calls w ++ repeat prompt k)%list.
Proof.
  rewrite attempt_loop_S.
  pose proof (attempt_body_one_call prompt attempt max_retries w) as H1.
  destruct (attempt_body _ _ _ _ _ w) as [[[v|]|e|] w1]; simpl in H1;
    try (exists 1%nat; split; [lia | exact H1]).
  destruct (attempt_loop_calls n prompt (attempt + 1) max_retries w1) as (k & Hk & E).
  exists (S k). split; [lia|]. rewrite E, H1, <- app_assoc. reflexivity.
Qed.

Lemma analyze_content_calls prompt max_retries w :
  exists k, (k <= Z.to_nat max_retries)%nat /\
    api_calls (snd (analyze_content json_loads generate_content fuel prompt max_retries w))
      = (api_calls w ++ repeat prompt k)%list.
Proof.
  unfold analyze_content, mbind, M_bind.
  pose proof (keeps_wait_if_needed_api_calls fuel (estimate_tokens prompt + 600) w) as Hw.
  destruct (wait_if_needed fuel _ w) as [[[]|e|] w0]; simpl in Hw;
    try (exists 0%nat; simpl; rewrite app_nil_r; split; [lia | exact Hw]).
  destruct (attempt_loop_calls (Z.to_nat max_retries) prompt 0 max_retries w0) as (k & Hk & E).
  exists k. split; [exact Hk|]. now rewrite E, Hw.
Qed.

Lemma process_single_item_calls item item_type mineral w :
  exists k, (k <= 3)%nat /\
    api_calls (snd (_process_single_item json_loads generate_content fuel
                      item item_type mineral w))
      = (api_calls w ++ repeat (prompt_of item_type mineral item) k)%list.
Proof.
  destruct (item !! "id") as [i|] eqn:Hid.
  - rewrite (process_single_item_eq _ _ _ _ _ _ _ _ Hid).
    destruct (analyze_content_calls (prompt_of item_type mineral item) 3 w) as (k & Hk & E).
    exists k. split; [exact Hk|].
    destruct (analyze_content _ _ _ _ _ w) as [[v|e|] w']; simpl in *;
      [destruct (py_truthy v)| |]; exact E.
  - exists 0%nat. unfold _process_single_item, item_id_of. rewrite Hid. simpl.
    rewrite app_nil_r. split; [lia | reflexivity].
Qed.

Lemma collect_result_calls item item_type mineral output_file stats w :
  (length (api_calls (snd (collect_result json_loads generate_content fuel json_dumps encodable
                             item item_type mineral output_file stats w)))
   <= length (api_calls w) + 3)%nat.
Proof.
  destruct (process_single_item_calls item item_type mineral w) as (k & Hk & E).
  unfold collect_result.
  destruct (_process_single_item _ _ _ item item_type mineral w) as [[r|e|] w1] eqn:Ep;
    simpl in E.
  - rewrite (try_except_bind_ok _ _ _ _ _ _ Ep).
    match goal with
    | |- (length (api_calls (snd (?m _))) <= _)%nat =>
        assert (keeps api_calls m) as K by keeps_tac
    end.
    rewrite K, E, length_app, repeat_length. lia.
  - rewrite (try_except_bind_raise _ _ _ _ _ _ Ep).
    match goal with
    | |- (length (api_calls (snd (?m _))) <= _)%nat =>
        assert (keeps api_calls m) as K by keeps_tac
    end.
    rewrite K, E, length_app, repeat_length. lia.
  - rewrite (try_except_bind_blocked _ _ _ _ _ Ep). simpl.
    rewrite E, length_app, repeat_length. lia.
Qed.

Lemma collect_results_calls items item_type mineral output_file stats w :
  (length (api_calls (snd (collect_results json_loads generate_content fuel json_dumps encodable
                             items item_type mineral output_file stats w)))
   <= length (api_calls w) + 3 * length items)%nat.
Proof.
  revert stats w. induction items as [|item items IH]; intros stats w; cbn [collect_results].
  - simpl. lia.
  - unfold mbind, M_bind.
    pose proof (collect_result_calls item item_type mineral output_file stats w) as H1.
    destruct (collect_result _ _ _ _ _ item item_type mineral output_file stats w)
      as [[st|e|] w1]; simpl in *; try lia.
    specialize (IH st w1). lia.
Qed.

(** X6: a call of [analyze_content] makes at most [max_retries] calls of
    the API, all with its prompt; a run of [_process_items] makes at most
    three for each item that is not enriched yet. *)
Theorem api_call_budget :
  (forall prompt max_retries w,
      exists k, (k <= Z.to_nat max_retries)%nat /\
        api_calls (snd (analyze_content json_loads generate_content fuel
                          prompt max_retries w))
          = (api_calls w ++ repeat prompt k)%list) /\
  (forall item_type items enriched stats mineral mineral_dir w,
      (length (api_calls (snd (_process_items json_loads generate_content fuel json_dumps encodable pick
                                 item_type items enriched stats mineral mineral_dir w)))
       <= length (api_calls w)
          + 3 * length (List.filter (not_enriched enriched) items))%nat).
Proof.
  split; [exact analyze_content_calls|].
  intros item_type items enriched stats mineral mineral_dir w.
  unfold _process_items, mbind at 1, M_bind at 1.
  pose proof (select_new_world items enriched w) as Hw.
  destruct (select_new items enriched w) as [[l|e|] w1] eqn:Es; simpl in Hw; subst w1;
    try (simpl; lia).
  destruct (select_new_ok _ _ _ _ _ Es) as (<- & _ & _).
  destruct l as [|item l]; [simpl; lia|].
  unfold mbind, M_bind.
  match goal with
  | |- context [collect_results _ _ _ _ _ ?l ?a ?b ?c ?d] =>
      pose proof (collect_results_calls l a b c d (snd (open_append c w))) as H
  end.
  rewrite keeps_open_append_api_calls, as_completed_length in H.
  destruct (open_append _ w) as [[[]|e|] w1] eqn:Eo; simpl in *; try exact H.
  - unfold open_append in Eo. discriminate.
  - unfold open_append in Eo. discriminate.
Qed.

End Budget.


(** ** The output file and the counters of a run *)

Lemma keeps_time_sleep_files d : keeps files (time_sleep d).
Proof. intros w. unfold time_sleep. destruct (Qle_bool 0 d); reflexivity. Qed.

Lemma keeps_api_call_files gen prompt : keeps files (api_call gen prompt).
Proof. intros w. unfold api_call. destruct (gen _ _) as [[r|msg] took]; reflexivity. Qed.

Lemma keeps_logger_files e : keeps files (logger e).
Proof. intros w. reflexivity. Qed.

Lemma keeps_wait_pass_files est : keeps files (wait_pass est).
Proof.
  intros w.
  destruct (wait_pass_outcomes est w)
    as [(e & -> & _)|[(oldest & r & _ & ->)|[(oldest & n & r & _ & ->)|(w' & Hw)]]];
    try reflexivity.
  destruct (wait_pass_cases est w) as [(o & w1 & Hp & Hne & _)|(_ & _ & Hp)].
  - rewrite Hw in Hp. injection Hp as <- <-. now destruct Hne.
  - rewrite Hp. reflexivity.
Qed.

Lemma keeps_wait_if_needed_files fuel est : keeps files (wait_if_needed fuel est).
Proof.
  induction fuel as [|fuel IH]; [intros w; reflexivity|].
  cbn [wait_if_needed]. apply keeps_bind; [apply keeps_wait_pass_files|].
  intros [[]|]; [apply keeps_ret | exact IH].
Qed.

#[local] Hint Resolve keeps_time_sleep_files keeps_api_call_files keeps_logger_files
  keeps_wait_if_needed_files : keeps.

Lemma appends_to_refl path w : appends_to path EmptyString w w.
Proof. split; [reflexivity|]. now rewrite str_app_nil_r. Qed.

Lemma appends_to_trans path d1 d2 w w1 w2 :
  appends_to path d1 w w1 -> appends_to path d2 w1 w2 ->
  appends_to path (d1 +:+ d2) w w2.
Proof.
  intros [A1 B1] [A2 B2]. split.
  - intros p Hp. now rewrite A2, A1.
  - now rewrite B2, B1, str_app_assoc.
Qed.

Lemma appends_to_files path d w w1 w2 :
  files w1 = files w -> appends_to path d w1 w2 -> appends_to path d w w2.
Proof. unfold appends_to. now intros ->. Qed.

Lemma file_write_refused enc path data w :
  enc data = false -> file_write enc path data w = (Raise encode_error, w).
Proof. intros H. unfold file_write. now rewrite H. Qed.

Lemma appends_to_write enc path data w :
  enc data = true ->
  fst (file_write enc path data w) = Ok tt /\
  appends_to path data w (snd (file_write enc path data w)).
Proof.
  intros H. unfold appends_to, file_write, set_files. rewrite H. cbn [fst snd files].
  split; [reflexivity|]. split.
  - intros p Hp. now rewrite lookup_insert_ne.
  - now rewrite lookup_insert_eq.
Qed.

Lemma appends_to_open path w : appends_to path EmptyString w (snd (open_append path w)).
Proof.
  unfold appends_to, open_append, set_opened, set_files. cbn [snd].
  destruct (files w !! path) eqn:E; cbn [files].
  - rewrite E. split; [reflexivity|]. now rewrite str_app_nil_r.
  - split.
    + intros p Hp. now rewrite lookup_insert_ne.
    + now rewrite lookup_insert_eq.
Qed.

Lemma jsonl_app json_dumps r1 r2 :
  jsonl json_dumps (r1 ++ r2) = jsonl json_dumps r1 +:+ jsonl json_dumps r2.
Proof.
  induction r1 as [|r r1 IH]; simpl; [now rewrite str_app_nil_l|].
  now rewrite IH, !str_app_assoc.
Qed.

Lemma counted_refl st : counted 0 st st.
Proof. unfold counted. repeat split; lia. Qed.

Lemma counted_trans n m st st1 st2 :
  counted n st st1 -> counted m st1 st2 -> counted (n + m) st st2.
Proof. unfold counted. intros (?&?&?&?&?&?) (?&?&?&?&?&?). repeat split; lia. Qed.

Lemma counted_increment (a b c : bool) st :
  (if a then 1 else 0) + (if b then 1 else 0) + (if c then 1 else 0) = 1 ->
  counted 1 st (increment a b c st).
Proof.
  unfold counted, total_attempted, increment. simpl.
  destruct a, b, c; intros H; try discriminate H; repeat split; lia.
Qed.

Section Ledger.

Variable json_loads : string -> exn + json.
Variable generate_content : nat -> string -> ApiOutcome * Q.
Variable fuel : nat.
Variable json_dumps : json -> string.
Variable encodable : string -> bool.
Variable pick : list (gmap string string) -> nat.

Local Abbreviation single := (_process_single_item json_loads generate_content fuel).
Local Abbreviation collect := (collect_result json_loads generate_content fuel json_dumps encodable).
Local Abbreviation collect_all := (collect_results json_loads generate_content fuel json_dumps encodable).
Local Abbreviation process := (_process_items json_loads generate_content fuel json_dumps encodable pick).

Lemma keeps_analyze_content_files prompt max_retries :
  keeps files (analyze_content json_loads generate_content fuel prompt max_retries).
Proof.
  unfold analyze_content. apply keeps_bind; [apply keeps_wait_if_needed_files|].
  intros _. generalize 0. induction (Z.to_nat max_retries) as [|n IH]; intros attempt;
    cbn [attempt_loop].
  - apply keeps_ret.
  - apply keeps_bind; [|intros [v|]; [apply keeps_ret | apply IH]].
    unfold attempt_body, attempt_try, attempt_except, retry_or_give_up, response_text.
    keeps_tac.
Qed.

(** What a worker hands back: a record with the item's identifier and a
    truthy analysis; it touches no file. *)
Lemma process_single_item_outcomes item item_type mineral w :
  files (snd (single item item_type mineral w)) = files w /\
  match fst (single item item_type mineral w) with
  | Ok (i, res) =>
      exists a, res = Some (record i a) /\ item_get item "id" = i /\
                py_truthy a = true /\ (yields_objects json_loads -> nonempty_dict a)
  | _ => True
  end.
Proof.
  destruct (item !! "id") as [i|] eqn:Hid.
  - rewrite (process_single_item_eq _ _ _ _ _ _ _ _ Hid).
    pose proof (keeps_analyze_content_files (prompt_of item_type mineral item) 3 w) as Hf.
    destruct (analyze_content _ _ _ _ _ w) as [[a|e|] w1] eqn:Ea; simpl in Hf;
      [|simpl; auto..].
    rewrite (analyze_content_truthy _ _ _ _ _ _ _ _ Ea). simpl. split; [exact Hf|].
    exists a. repeat split.
    + unfold item_get. now rewrite Hid.
    + apply (analyze_content_truthy _ _ _ _ _ _ _ _ Ea).
    + intros Hobj.
      assert (forall v, accepted_reply json_loads v -> nonempty_dict v) as Hr.
      { intros x (c & rest & Hl & Hc & Hk).
        destruct (Hobj c rest x Hl Hc) as [d ->]. now apply checked_object_nonempty. }
      exact (analyze_content_result json_loads generate_content fuel nonempty_dict
               blocked_analysis_nonempty Hr _ _ _ _ _ Ea).
  - unfold _process_single_item, item_id_of. rewrite Hid. simpl. auto.
Qed.

(** How the loop body files a record: the line is written and the item
    is reported by what its analysis says; or the write raises, nothing
    is written and the item is reported failed. *)
Lemma collect_result_written item item_type mineral output_file stats w i a w1 :
  single item item_type mineral w = (Ok (i, Some (record i a)), w1) ->
  collect item item_type mineral output_file stats w =
  if encodable (json_dumps (record i a) +:+ nl) then
    let w2 := snd (file_write encodable output_file (json_dumps (record i a) +:+ nl) w1) in
    match topic_is_blocked a with
    | inr true =>
        (Ok (increment false false true stats),
         snd (logger (LogBlocked (item_get item "id")) w2))
    | inr false =>
        (Ok (increment true false false stats),
         snd (logger (LogSaved (item_get item "id")) w2))
    | inl e =>
        (Ok (increment false true false stats),
         snd (logger (LogException (item_get item "id") e) w2))
    end
  else
    (Ok (increment false true false stats),
     snd (logger (LogException (item_get item "id") encode_error) w1)).
Proof.
  intros Ep. unfold collect_result. rewrite (try_except_bind_ok _ _ _ _ _ _ Ep).
  unfold record. cbn [snd].
  unfold try_except, mbind, M_bind, file_write, lift, logger, mret, M_ret.
  cbn [dict_get String.eqb Ascii.eqb Bool.eqb].
  destruct (encodable _); [|reflexivity].
  destruct (topic_is_blocked a) as [e|[|]]; reflexivity.
Qed.

Lemma collect_result_raised item item_type mineral output_file stats w e w1 :
  single item item_type mineral w = (Raise e, w1) ->
  collect item item_type mineral output_file stats w =
  (Ok (increment false true false stats),
   snd (logger (LogException (item_get item "id") e) w1)).
Proof.
  intros Ep. unfold collect_result. rewrite (try_except_bind_raise _ _ _ _ _ _ Ep).
  reflexivity.
Qed.

Lemma collect_result_effect item item_type mineral output_file stats w :
  exists records,
    (length records <= 1)%nat /\
    Forall (fun r => exists a, r = record (item_get item "id") a /\ py_truthy a = true)
      records /\
    appends_to output_file (jsonl json_dumps records) w
      (snd (collect item item_type mineral output_file stats w)) /\
    forall stats',
      fst (collect item item_type mineral output_file stats w) = Ok stats' ->
      counted 1 stats stats' /\
      (successful stats' - successful stats) + (blocked stats' - blocked stats)
        <= Z.of_nat (length records) /\
      (yields_objects json_loads ->
       Z.of_nat (length records)
         = (successful stats' - successful stats) + (blocked stats' - blocked stats)).
Proof.
  destruct (process_single_item_outcomes item item_type mineral w) as [Hf Ho].
  destruct (single item item_type mineral w) as [[[i res]|e|] w1] eqn:Ep; simpl in Hf, Ho.
  - destruct Ho as (a & -> & Hi & Ht & Hobj).
    rewrite (collect_result_written _ _ _ _ _ _ _ _ _ Ep). cbv zeta.
    destruct (encodable (json_dumps (record i a) +:+ nl)) eqn:Enc.
    2:{ exists []. split; [simpl; lia|]. split; [constructor|]. split.
        - apply (appends_to_files _ _ _ w1); [exact Hf|]. exact (appends_to_refl _ w1).
        - intros stats' [= <-]. split; [now apply counted_increment|]. simpl. split; lia. }
    exists [record i a]. split; [simpl; lia|]. split.
    { constructor; [|constructor]. exists a. now rewrite Hi. }
    assert (appends_to output_file (jsonl json_dumps [record i a]) w
              (snd (file_write encodable output_file (json_dumps (record i a) +:+ nl) w1)))
      as Ha.
    { apply (appends_to_files _ _ _ w1); [exact Hf|].
      simpl. rewrite str_app_nil_r. now apply appends_to_write. }
    destruct (topic_is_blocked a) as [e|[|]] eqn:Et; cbn [fst snd]; (split; [exact Ha|]);
      intros stats' [= <-]; (split; [now apply counted_increment|]); simpl.
    + split; [lia|]. intros Hy. destruct (Hobj Hy) as (d & -> & _). discriminate Et.
    + split; lia.
    + split; lia.
  - rewrite (collect_result_raised _ _ _ _ _ _ _ _ Ep). exists []. split; [simpl; lia|].
    split; [constructor|]. split.
    + apply (appends_to_files _ _ _ w1); [exact Hf|]. exact (appends_to_refl _ w1).
    + intros stats' [= <-]. split; [now apply counted_increment|]. simpl. split; lia.
  - unfold collect_result. rewrite (try_except_bind_blocked _ _ _ _ _ Ep).
    exists []. split; [simpl; lia|]. split; [constructor|]. split.
    + apply (appends_to_files _ _ _ w1); [exact Hf|]. apply appends_to_refl.
    + intros stats'. discriminate.
Qed.

Lemma collect_results_effect items item_type mineral output_file stats w :
  exists records,
    (length records <= length items)%nat /\
    Forall (fun r => exists item a, In item items /\
                       r = record (item_get item "id") a /\ py_truthy a = true) records /\
    appends_to output_file (jsonl json_dumps records) w
      (snd (collect_all items item_type mineral output_file stats w)) /\
    forall stats',
      fst (collect_all items item_type mineral output_file stats w) = Ok stats' ->
      counted (Z.of_nat (length items)) stats stats' /\
      (successful stats' - successful stats) + (blocked stats' - blocked stats)
        <= Z.of_nat (length records) /\
      (yields_objects json_loads ->
       Z.of_nat (length records)
         = (successful stats' - successful stats) + (blocked stats' - blocked stats)).
Proof.
  revert stats w. induction items as [|item items IH]; intros stats w; cbn [collect_results].
  - exists []. split; [simpl; lia|]. split; [constructor|].
    split; [apply appends_to_refl|]. intros stats' [= <-].
    split; [apply counted_refl|]. simpl. split; lia.
  - unfold mbind, M_bind.
    destruct (collect_result_effect item item_type mineral output_file stats w)
      as (r1 & L1 & F1 & A1 & C1).
    destruct (collect item item_type mineral output_file stats w) as [[st|e|] w1];
      cbn [fst snd] in *.
    + specialize (C1 st eq_refl) as (K1 & D1 & Y1).
      destruct (IH st w1) as (r2 & L2 & F2 & A2 & C2).
      exists (r1 ++ r2)%list. split; [rewrite length_app; simpl; lia|]. split.
      { apply Forall_app. split.
        - eapply Forall_impl; [exact F1|]. intros r (a & -> & Ha).
          exists item, a. split; [now left | auto].
        - eapply Forall_impl; [exact F2|]. intros r (x & a & Hx & -> & Ha).
          exists x, a. split; [now right | auto]. }
      split; [rewrite jsonl_app; eapply appends_to_trans; eassumption|].
      intros stats' Hs. specialize (C2 stats' Hs) as (K2 & D2 & Y2).
      split.
      { replace (Z.of_nat (length (item :: items)))
          with (1 + Z.of_nat (length items)) by (simpl; lia).
        eapply counted_trans; eassumption. }
      rewrite length_app. split; [lia|]. intros Hy.
      specialize (Y1 Hy). specialize (Y2 Hy). lia.
    + exists r1. split; [simpl; lia|]. split.
      { eapply Forall_impl; [exact F1|]. intros r (a & -> & Ha).
        exists item, a. split; [now left | auto]. }
      split; [exact A1|]. intros stats'. discriminate.
    + exists r1. split; [simpl; lia|]. split.
      { eapply Forall_impl; [exact F1|]. intros r (a & -> & Ha).
        exists item, a. split; [now left | auto]. }
      split; [exact A1|]. intros stats'. discriminate.
Qed.

(** The engine as a whole, in terms of the items it has to process. *)
Lemma process_items_effect item_type items enriched stats mineral mineral_dir w :
  let output_file := mineral_dir +:+ "/" +:+ lower item_type +:+ "s_enriched.jsonl" in
  let new_items := List.filter (not_enriched enriched) items in
  exists records,
    (length records <= length new_items)%nat /\
    Forall (fun r => exists item a, In item new_items /\
                       r = record (item_get item "id") a /\ py_truthy a = true) records /\
    appends_to output_file (jsonl json_dumps records) w
      (snd (process item_type items enriched stats mineral mineral_dir w)) /\
    forall stats',
      fst (process item_type items enriched stats mineral mineral_dir w) = Ok stats' ->
      counted (Z.of_nat (length new_items)) stats stats' /\
      (successful stats' - successful stats) + (blocked stats' - blocked stats)
        <= Z.of_nat (length records) /\
      (yields_objects json_loads ->
       Z.of_nat (length records)
         = (successful stats' - successful stats) + (blocked stats' - blocked stats)).
Proof.
  intros output_file new_items.
  assert (process item_type items enriched stats mineral mineral_dir w =
          match select_new items enriched w with
          | (Ok [], w1) => (Ok stats, snd (logger (LogNothingNew item_type) w1))
          | (Ok l, w1) =>
              collect_all (as_completed pick (length l) l) item_type mineral output_file
                stats (snd (open_append output_file w1))
          | (Raise e, w1) => (Raise e, w1)
          | (Blocked, w1) => (Blocked, w1)
          end) as Hrun.
  { unfold _process_items, mbind, M_bind. fold output_file.
    destruct (select_new items enriched w) as [[[|item l]|e|] w1]; reflexivity. }
  rewrite Hrun. clear Hrun.
  pose proof (select_new_world items enriched w) as Hw.
  destruct (select_new items enriched w) as [[l|e|] w1] eqn:Es; simpl in Hw; subst w1.
  - destruct (select_new_ok _ _ _ _ _ Es) as (-> & _ & _). subst new_items.
    destruct (List.filter (not_enriched enriched) items) as [|item l].
    + exists []. split; [simpl; lia|]. split; [constructor|]. split.
      * exact (appends_to_refl output_file w).
      * intros stats' [= <-]. split; [apply counted_refl|]. simpl. split; lia.
    + destruct (collect_results_effect
                  (as_completed pick (length (item :: l)) (item :: l))
                  item_type mineral output_file stats
                  (snd (open_append output_file w))) as (records & L & F & A & C).
      rewrite as_completed_length in L, C.
      exists records. split; [exact L|]. split.
      { eapply Forall_impl; [exact F|]. intros r (x & a & Hx & Hr).
        exists x, a. split; [now apply as_completed_In in Hx | exact Hr]. }
      split; [|exact C].
      rewrite <- (str_app_nil_l (jsonl json_dumps records)).
      eapply appends_to_trans; [apply appends_to_open | exact A].
  - exists []. split; [simpl; lia|]. split; [constructor|].
    split; [apply appends_to_refl|]. intros stats'. discriminate.
  - exists []. split; [simpl; lia|]. split; [constructor|].
    split; [apply appends_to_refl|]. intros stats'. discriminate.
Qed.

(** X7: a run of [_process_items] only ever appends to its output file:
    every other file stays as it is, what the output file held stays at
    its head, and what is added is one line per record, each the record
    of an item that was not enriched yet with a truthy analysis. *)
Theorem process_items_appends_records
    item_type items enriched stats mineral mineral_dir w :
  exists records,
    appends_to (mineral_dir +:+ "/" +:+ lower item_type +:+ "s_enriched.jsonl")
      (jsonl json_dumps records) w
      (snd (process item_type items enriched stats mineral mineral_dir w)) /\
    (length records <= length (List.filter (not_enriched enriched) items))%nat /\
    Forall (fun r => exists item a,
                In item (List.filter (not_enriched enriched) items) /\
                r = record (item_get item "id") a /\ py_truthy a = true) records.
Proof.
  destruct (process_items_effect item_type items enriched stats mineral mineral_dir w)
    as (records & L & F & A & _).
  exists records. auto.
Qed.

(** X8: when [_process_items] returns, every item that was not enriched
    yet has been counted once, in exactly one of the classes successful,
    failed and blocked; no counter went down and the skipped count is
    untouched. The records added to the output file are at least the
    successful and blocked items, and exactly those when the parser gives
    an object for a text in braces. *)
Theorem process_items_counts
    item_type items enriched stats mineral mineral_dir w stats' w' :
  process item_type items enriched stats mineral mineral_dir w = (Ok stats', w') ->
  counted (Z.of_nat (length (List.filter (not_enriched enriched) items))) stats stats' /\
  exists records,
    appends_to (mineral_dir +:+ "/" +:+ lower item_type +:+ "s_enriched.jsonl")
      (jsonl json_dumps records) w w' /\
    (successful stats' - successful stats) + (blocked stats' - blocked stats)
      <= Z.of_nat (length records) /\
    (yields_objects json_loads ->
     Z.of_nat (length records)
       = (successful stats' - successful stats) + (blocked stats' - blocked stats)).
Proof.
  intros H.
  destruct (process_items_effect item_type items enriched stats mineral mineral_dir w)
    as (records & L & F & A & C).
  rewrite H in A, C. cbn [fst snd] in A, C. destruct (C stats' eq_refl) as (K & D & Y).
  split; [exact K|]. exists records. auto.
Qed.

End Ledger.

Lemma process_items_counts_witness :
  counted (Z.of_nat (length (List.filter (not_enriched (<[KStr "a" := JNull]> ∅))
                               [sample_item "a" "t"; sample_item "b" "u"])))
    new_stats (mkStats 1 1 0 0 0) /\
  exists records,
    appends_to ("data/gold" +:+ "/" +:+ lower "Post" +:+ "s_enriched.jsonl")
      (jsonl sample_json_dumps records) initial_world (snd sample_run) /\
    (successful (mkStats 1 1 0 0 0) - successful new_stats)
      + (blocked (mkStats 1 1 0 0 0) - blocked new_stats) <= Z.of_nat (length records) /\
    (yields_objects sample_json_loads ->
     Z.of_nat (length records)
       = (successful (mkStats 1 1 0 0 0) - successful new_stats)
         + (blocked (mkStats 1 1 0 0 0) - blocked new_stats)).
Proof.
  apply (process_items_counts sample_json_loads
           (api_always (ApiReturn (ok_response sample_reply_text))) 1441
           sample_json_dumps every_text first_pending
           "Post" [sample_item "a" "t"; sample_item "b" "u"]
           (<[KStr "a" := JNull]> ∅) new_stats "gold" "data/gold" initial_world
           (mkStats 1 1 0 0 0) (snd sample_run)).
  vm_compute. reflexivity.
Defined.


(** ** A run under the default governor never loses an item *)

Lemma keeps_after {A X Y} (proj : World -> X) (f : X -> Y) (m : M A) :
  keeps proj m -> keeps (fun w => f (proj w)) m.
Proof. intros H w. simpl. now rewrite H. Qed.

Lemma keeps_wait_if_needed_tpm_limit fuel est :
  keeps (fun w => tpm_limit (rate_limiter w)) (wait_if_needed fuel est).
Proof.
  intros w. destruct (wait_if_needed fuel est w) as [o w'] eqn:E.
  now destruct (wait_if_needed_spec _ _ _ _ _ E) as (_ & H & _).
Qed.

Lemma initial_world_governed : governed initial_world.
Proof. split; [exact initial_world_governor_inv | reflexivity]. Qed.

Lemma filter_split_length {A} (f g : A -> bool) (l : list A) :
  (forall x, f x = negb (g x)) ->
  (length (List.filter f l) + length (List.filter g l))%nat = length l.
Proof.
  intros H. induction l as [|x l IH]; [reflexivity|]. cbn [List.filter].
  rewrite H. destruct (g x); cbn [negb length]; lia.
Qed.

Section GovernedRun.

Variable json_loads : string -> exn + json.
Variable generate_content : nat -> string -> ApiOutcome * Q.
Variable fuel : nat.
Variable json_dumps : json -> string.
Variable encodable : string -> bool.
Variable pick : list (gmap string string) -> nat.

Hypothesis json_loads_objects : yields_objects json_loads.
Hypothesis enough_fuel : (1440 < fuel)%nat.

Local Abbreviation single := (_process_single_item json_loads generate_content fuel).
Local Abbreviation collect := (collect_result json_loads generate_content fuel json_dumps encodable).
Local Abbreviation collect_all := (collect_results json_loads generate_content fuel json_dumps encodable).
Local Abbreviation process := (_process_items json_loads generate_content fuel json_dumps encodable pick).
Local Abbreviation saved := (is_saved json_dumps encodable).
Local Abbreviation entry := (handled_entry json_dumps encodable).

Lemma keeps_analyze_content_tpm_limit prompt max_retries :
  keeps (fun w => tpm_limit (rate_limiter w))
    (analyze_content json_loads generate_content fuel prompt max_retries).
Proof.
  unfold analyze_content. apply keeps_bind; [apply keeps_wait_if_needed_tpm_limit|].
  intros _. apply (keeps_after rate_limiter tpm_limit), keeps_attempt_loop_rate_limiter.
Qed.

Lemma preserves_governed_analyze_content prompt max_retries :
  preserves governed (analyze_content json_loads generate_content fuel prompt max_retries).
Proof.
  intros w [Hg Ht]. split.
  - now apply preserves_analyze_content.
  - now rewrite keeps_analyze_content_tpm_limit.
Qed.

(** A call of [analyze_content] that returns has called the API at least
    once. *)
Lemma analyze_content_first_call prompt max_retries w v w1 :
  0 < max_retries ->
  analyze_content json_loads generate_content fuel prompt max_retries w = (Ok v, w1) ->
  exists k, (1 <= k <= Z.to_nat max_retries)%nat /\
            api_calls w1 = (api_calls w ++ repeat prompt k)%list.
Proof.
  intros Hm H. unfold analyze_content, mbind, M_bind in H.
  pose proof (keeps_wait_if_needed_api_calls fuel (estimate_tokens prompt + 600) w) as Hw.
  destruct (wait_if_needed fuel _ w) as [[[]|e|] w0]; simpl in Hw; try discriminate H.
  destruct (Z.to_nat max_retries) as [|n] eqn:En; [lia|].
  destruct (attempt_loop_first_call json_loads generate_content n prompt 0 max_retries w0)
    as (k & Hk & E).
  rewrite H in E. cbn [snd] in E. exists k. split; [lia|]. now rewrite E, Hw.
Qed.

Lemma handled_records_one item k a :
  map handled_record (List.filter saved [mkHandled item k a])
  = if encodable (json_dumps (record (item_get item "id") a) +:+ nl)
    then [record (item_get item "id") a] else [].
Proof.
  cbn [List.filter]. unfold is_saved, handled_record. cbn [handled_item handled_analysis].
  destruct (encodable _); reflexivity.
Qed.

(** One item in a governed world: the worker calls the API and hands back
    a record; the record is written and the item counted successful or
    blocked, or the write raises and the item is counted failed. *)
Lemma collect_result_handled item item_type mineral output_file stats w i :
  governed w -> len mineral <= 1000 -> item !! "id" = Some i ->
  exists k a w',
    collect item item_type mineral output_file stats w
      = (Ok (if saved (mkHandled item k a)
             then if blocked_topic a
                  then increment false false true stats
                  else increment true false false stats
             else increment false true false stats), w') /\
    (1 <= k <= 3)%nat /\ nonempty_dict a /\
    api_calls w' = (api_calls w ++ repeat (prompt_of item_type mineral item) k)%list /\
    journal w' = (journal w ++ [entry (mkHandled item k a)])%list /\
    appends_to output_file
      (jsonl json_dumps (map handled_record (List.filter saved [mkHandled item k a]))) w w' /\
    governed w'.
Proof.
  intros Hgov Hm Hid. pose proof Hgov as [Hg Ht].
  destruct (governor_inv_ready fuel w Hg enough_fuel) as [R1 R2].
  destruct (analyze_content_dict json_loads generate_content fuel
              (prompt_of item_type mineral item) 3 w json_loads_objects R1 R2
              (prompt_within_budget item_type mineral item w Ht Hm))
    as (v & w1 & Ea & Hv).
  pose proof (preserves_governed_analyze_content (prompt_of item_type mineral item) 3
                w Hgov) as Hgov1.
  pose proof (keeps_analyze_content_files json_loads generate_content fuel
                (prompt_of item_type mineral item) 3 w) as Hf.
  pose proof (keeps_analyze_content_journal json_loads generate_content fuel
                (prompt_of item_type mineral item) 3 w) as Hj.
  rewrite Ea in Hgov1, Hf, Hj. cbn [snd] in Hgov1, Hf, Hj.
  destruct (analyze_content_first_call _ 3 w v w1 ltac:(lia) Ea) as (k & Hk & Hcalls).
  assert (single item item_type mineral w = (Ok (i, Some (record i v)), w1)) as Ep.
  { rewrite (process_single_item_eq _ _ _ _ _ _ _ _ Hid), Ea.
    now rewrite (nonempty_dict_truthy _ Hv). }
  assert (item_get item "id" = i) as Hi by (unfold item_get; now rewrite Hid).
  exists k, v.
  rewrite (collect_result_written _ _ _ _ _ _ _ _ _ _ _ _ _ _ Ep).
  rewrite handled_records_one. unfold handled_entry, is_saved, handled_record.
  cbn [handled_item handled_analysis]. rewrite Hi.
  change (Z.to_nat 3) with 3%nat in Hk.
  destruct (encodable (json_dumps (record i v) +:+ nl)) eqn:Enc.
  - destruct (appends_to_write encodable output_file (json_dumps (record i v) +:+ nl) w1 Enc)
      as [_ Ha].
    assert (appends_to output_file (jsonl json_dumps [record i v]) w
              (snd (file_write encodable output_file (json_dumps (record i v) +:+ nl) w1)))
      as Ha'.
    { apply (appends_to_files _ _ _ w1); [exact Hf|]. simpl. now rewrite str_app_nil_r. }
    assert (governed
              (snd (file_write encodable output_file (json_dumps (record i v) +:+ nl) w1)))
      as Hgov2 by (unfold governed; now rewrite keeps_file_write_rate_limiter).
    pose proof (keeps_file_write_api_calls encodable output_file
                  (json_dumps (record i v) +:+ nl) w1) as Hc2.
    pose proof (keeps_file_write_journal encodable output_file
                  (json_dumps (record i v) +:+ nl) w1) as Hj2.
    cbv zeta. unfold blocked_topic.
    destruct Hv as (d & -> & Hd). cbn [topic_is_blocked].
    destruct (match dict_get "topic_classification" d with
              | Some v => json_is_str "blocked" v
              | None => false
              end);
      (eexists; split; [reflexivity|]); (split; [exact Hk|]);
      (split; [eexists; split; [reflexivity | exact Hd]|]);
      (split; [cbn [logger snd api_calls set_journal]; now rewrite Hc2|]);
      (split; [cbn [logger snd journal set_journal]; now rewrite Hj2, Hj|]);
      (split; [exact Ha' | exact Hgov2]).
  - eexists. split; [reflexivity|]. split; [exact Hk|]. split; [exact Hv|].
    split; [exact Hcalls|]. split; [cbn [logger snd journal set_journal]; now rewrite Hj|].
    split; [|exact Hgov1].
    apply (appends_to_files _ _ _ w1); [exact Hf|]. exact (appends_to_refl _ w1).
Qed.

Lemma tallied_nil stats : tallied json_dumps encodable [] stats stats.
Proof. unfold tallied. simpl. repeat split; lia. Qed.

Lemma tallied_cons h hs stats stats' :
  tallied json_dumps encodable hs
    (if saved h
     then if blocked_topic (handled_analysis h)
          then increment false false true stats
          else increment true false false stats
     else increment false true false stats) stats' ->
  tallied json_dumps encodable (h :: hs) stats stats'.
Proof.
  unfold tallied. cbn [List.filter length].
  destruct (saved h), (blocked_topic (handled_analysis h)); cbn [andb negb length];
    unfold increment; cbn [total_processed successful blocked failed skipped];
    intros (?&?&?&?&?); repeat split; lia.
Qed.

(** The futures of a run in a governed world, in the order in which they
    complete. *)
Lemma collect_results_handled items item_type mineral output_file stats w :
  governed w -> len mineral <= 1000 ->
  (forall item, In item items -> is_Some (item !! "id")) ->
  exists hs stats' w',
    collect_all items item_type mineral output_file stats w = (Ok stats', w') /\
    map handled_item hs = items /\
    Forall (fun h => (1 <= handled_calls h <= 3)%nat /\ nonempty_dict (handled_analysis h))
      hs /\
    api_calls w'
      = (api_calls w ++ concat (map (handled_prompts item_type mineral) hs))%list /\
    journal w' = (journal w ++ map entry hs)%list /\
    appends_to output_file
      (jsonl json_dumps (map handled_record (List.filter saved hs))) w w' /\
    tallied json_dumps encodable hs stats stats' /\
    governed w'.
Proof.
  intros Hgov Hm. revert stats w Hgov.
  induction items as [|item items IH]; intros stats w Hgov Hids; cbn [collect_results].
  - exists [], stats, w. split; [reflexivity|]. split; [reflexivity|].
    split; [constructor|]. split; [simpl; now rewrite app_nil_r|].
    split; [simpl; now rewrite app_nil_r|]. split; [apply appends_to_refl|].
    split; [apply tallied_nil | exact Hgov].
  - destruct (Hids item (or_introl eq_refl)) as [i Hi].
    destruct (collect_result_handled item item_type mineral output_file stats w i
                Hgov Hm Hi) as (k & a & w1 & E1 & K1 & N1 & C1 & J1 & A1 & G1).
    unfold mbind, M_bind. rewrite E1.
    match goal with
    | |- context [collect_results _ _ _ _ _ items _ _ _ ?st w1] =>
        destruct (IH st w1 G1 ltac:(intros x Hx; apply Hids; now right))
          as (hs & stats' & w' & E2 & I2 & F2 & C2 & J2 & A2 & T2 & G2)
    end.
    exists (mkHandled item k a :: hs), stats', w'.
    split; [exact E2|]. split; [cbn [map handled_item]; now rewrite I2|].
    split; [constructor; [split; assumption | exact F2]|].
    split.
    { rewrite C2, C1. cbn [map concat]. unfold handled_prompts at 2.
      cbn [handled_item handled_calls]. now rewrite app_assoc. }
    split; [rewrite J2, J1; cbn [map]; now rewrite <- app_assoc|].
    split.
    { change (mkHandled item k a :: hs) with ([mkHandled item k a] ++ hs)%list.
      rewrite List.filter_app, map_app, jsonl_app.
      eapply appends_to_trans; eassumption. }
    split; [|exact G2]. now apply tallied_cons.
Qed.

(** A run of the engine in a governed world that has something to do. *)
Lemma process_items_handled item_type items enriched stats mineral mineral_dir w :
  governed w -> len mineral <= 1000 ->
  (forall item, In item items -> is_Some (item !! "id")) ->
  List.filter (not_enriched enriched) items <> [] ->
  exists hs stats' w',
    process item_type items enriched stats mineral mineral_dir w = (Ok stats', w') /\
    map handled_item hs ≡ₚ List.filter (not_enriched enriched) items /\
    Forall (fun h => (1 <= handled_calls h <= 3)%nat /\ nonempty_dict (handled_analysis h))
      hs /\
    api_calls w'
      = (api_calls w ++ concat (map (handled_prompts item_type mineral) hs))%list /\
    journal w' = (journal w ++ map entry hs)%list /\
    appends_to (mineral_dir +:+ "/" +:+ lower item_type +:+ "s_enriched.jsonl")
      (jsonl json_dumps (map handled_record (List.filter saved hs))) w w' /\
    tallied json_dumps encodable hs stats stats' /\
    governed w'.
Proof.
  intros Hgov Hm Hids Hnew.
  set (output_file := mineral_dir +:+ "/" +:+ lower item_type +:+ "s_enriched.jsonl").
  rewrite (process_items_eq _ _ _ _ _ _ _ _ _ _ _ _ _ Hids). fold output_file.
  assert (forall item, In item (List.filter (not_enriched enriched) items) ->
                       In item items) as Hsub
    by (intros x Hx; now apply filter_In in Hx).
  destruct (List.filter (not_enriched enriched) items) as [|item l] eqn:El;
    [now destruct Hnew|].
  assert (governed (snd (open_append output_file w))) as Hgov1.
  { unfold governed. now rewrite keeps_open_append_rate_limiter. }
  destruct (collect_results_handled
              (as_completed pick (length (item :: l)) (item :: l))
              item_type mineral output_file stats _ Hgov1 Hm
              ltac:(intros x Hx; apply Hids, Hsub; now apply as_completed_In in Hx))
    as (hs & stats' & w' & E & I & F & C & J & A & T & G).
  exists hs, stats', w'. split; [exact E|].
  split; [rewrite I; apply as_completed_perm|]. split; [exact F|].
  split; [now rewrite C, keeps_open_append_api_calls|].
  split.
  { rewrite J. f_equal. unfold open_append. cbn [snd].
    destruct (files w !! output_file); reflexivity. }
  split; [|split; assumption].
  rewrite <- (str_app_nil_l (jsonl json_dumps _)).
  eapply appends_to_trans; [apply appends_to_open | exact A].
Qed.

Lemma record_id_handled h : record_id (handled_record h) = Some (item_get (handled_item h) "id").
Proof. reflexivity. Qed.

(** A run of the engine in a governed world whose codec encodes every
    record: every new item is saved. *)
Lemma process_items_governed item_type items enriched stats mineral mineral_dir w :
  (forall r, encodable (json_dumps r +:+ nl) = true) ->
  governed w -> len mineral <= 1000 ->
  (forall item, In item items -> is_Some (item !! "id")) ->
  exists stats' records,
    fst (process item_type items enriched stats mineral mineral_dir w) = Ok stats' /\
    failed stats' = failed stats /\
    successful stats' + blocked stats'
      = successful stats + blocked stats
        + Z.of_nat (length (List.filter (not_enriched enriched) items)) /\
    appends_to (mineral_dir +:+ "/" +:+ lower item_type +:+ "s_enriched.jsonl")
      (jsonl json_dumps records) w
      (snd (process item_type items enriched stats mineral mineral_dir w)) /\
    omap record_id records
      ≡ₚ map (fun item => item_get item "id") (List.filter (not_enriched enriched) items) /\
    Forall (fun r => exists item a, In item items /\ r = record (item_get item "id") a)
      records /\
    governed (snd (process item_type items enriched stats mineral mineral_dir w)).
Proof.
  intros Henc Hgov Hm Hids.
  destruct (List.filter (not_enriched enriched) items) as [|item0 l0] eqn:El.
  { rewrite (process_items_eq _ _ _ _ _ _ _ _ _ _ _ _ _ Hids), El. cbn [fst snd].
    exists stats, []. split; [reflexivity|]. split; [reflexivity|].
    split; [simpl; lia|]. split; [exact (appends_to_refl _ w)|].
    split; [reflexivity|]. split; [constructor | exact Hgov]. }
  destruct (process_items_handled item_type items enriched stats mineral mineral_dir w
              Hgov Hm Hids ltac:(rewrite El; discriminate))
    as (hs & stats' & w' & E & I & F & C & J & A & T & G).
  rewrite El in I. rewrite E. cbn [fst snd].
  assert (List.filter saved hs = hs) as Hall.
  { clear -Henc. induction hs as [|h hs IH]; [reflexivity|]. cbn [List.filter].
    unfold is_saved at 1. rewrite Henc. now rewrite IH. }
  assert (forall p : handled -> bool, (forall h, p h = false) ->
            forall l, List.filter p l = []) as Hnone.
  { intros p Hp l. induction l as [|h l IH]; [reflexivity|]. cbn [List.filter].
    now rewrite Hp. }
  exists stats', (map handled_record hs).
  destruct T as (T1 & T2 & T3 & T4 & T5).
  split; [reflexivity|]. split.
  { rewrite T4, Hnone; [simpl; lia|]. intros h. unfold is_saved. now rewrite Henc. }
  split.
  { rewrite T2, T3.
    assert (length (List.filter (fun h => saved h && negb (blocked_topic (handled_analysis h))) hs)
            + length (List.filter (fun h => saved h && blocked_topic (handled_analysis h)) hs)
            = length hs)%nat as Hsum.
    { apply filter_split_length. intros h. unfold is_saved. rewrite Henc.
      now destruct (blocked_topic (handled_analysis h)). }
    apply Permutation_length in I. rewrite length_map in I. lia. }
  split; [now rewrite Hall in A|].
  split.
  { rewrite <- I. clear. induction hs as [|h hs IH]; [reflexivity|].
    cbn [map omap list_omap]. rewrite record_id_handled. cbn. now rewrite IH. }
  split; [|exact G].
  apply Forall_forall. intros r Hr. apply list_elem_of_In, in_map_iff in Hr as (h & <- & Hh).
  exists (handled_item h), (handled_analysis h). split; [|reflexivity].
  assert (In (handled_item h) (map handled_item hs)) as Hin
    by (apply in_map_iff; eauto).
  eapply Permutation_in in Hin; [|exact I].
  assert (In (handled_item h) (List.filter (not_enriched enriched) items)) as Hin'
    by (rewrite El; exact Hin).
  now apply filter_In in Hin'.
Qed.

(** X9: under the governor as the enricher builds it, with a parser that
    gives an object for a text in braces, a codec that encodes the line
    of every record and a mineral name of at most 1000 characters, a run
    over items that all carry an identifier returns; no item is counted
    failed, whatever the API does: each item that was not enriched yet is
    counted successful or blocked and its record is appended to the
    output file, the records coming in the order in which the futures
    complete. *)
Theorem process_items_never_fails item_type items enriched stats mineral mineral_dir w :
  (forall r, encodable (json_dumps r +:+ nl) = true) ->
  governed w -> len mineral <= 1000 ->
  (forall item, In item items -> is_Some (item !! "id")) ->
  exists stats' records,
    fst (process item_type items enriched stats mineral mineral_dir w) = Ok stats' /\
    failed stats' = failed stats /\
    successful stats' + blocked stats'
      = successful stats + blocked stats
        + Z.of_nat (length (List.filter (not_enriched enriched) items)) /\
    appends_to (mineral_dir +:+ "/" +:+ lower item_type +:+ "s_enriched.jsonl")
      (jsonl json_dumps records) w
      (snd (process item_type items enriched stats mineral mineral_dir w)) /\
    omap record_id records
      ≡ₚ map (fun item => item_get item "id") (List.filter (not_enriched enriched) items).
Proof.
  intros Henc Hgov Hm Hids.
  destruct (process_items_governed item_type items enriched stats mineral mineral_dir w
              Henc Hgov Hm Hids) as (stats' & records & E & F & S & A & I & _).
  exists stats', records. auto.
Qed.

End GovernedRun.

(** C1: when every item has an identifier, the engine works on exactly
    the items whose identifier is not a key of the enriched set. If there
    is none, nothing changes but the diagnostics: no API call is made, the
    counters stay, no file is opened or written. Otherwise, under the
    governor the enricher builds, each of those items, and no other, is
    counted and reported once, and every API call of the run carries the
    prompt of one of them. With a parser that gives an object for a text
    in braces and a mineral name of at most 1000 characters the run is
    accounted for item by item, in the order in which the futures
    complete, which is some arrangement of those items: for each of them
    the API is called with the item's prompt, once at least and three
    times at most, and an analysis comes back; the line of its record is
    appended to the output file and the item is counted and reported
    saved or blocked, or, when the codec refuses the line, nothing is
    written and the item is counted and reported failed. *)
Theorem process_items_skips_enriched
    (json_loads : string -> exn + json) (generate_content : nat -> string -> ApiOutcome * Q)
    (fuel : nat) (json_dumps : json -> string)
    (encodable : string -> bool) (pick : list (gmap string string) -> nat)
    item_type items enriched stats mineral mineral_dir w :
  (forall item, In item items -> is_Some (item !! "id")) ->
  ((forall item, In item items -> is_Some (enriched !! KStr (item_get item "id"))) ->
   _process_items json_loads generate_content fuel json_dumps encodable pick
       item_type items enriched stats mineral mineral_dir w
     = (Ok stats, set_journal (journal w ++ [LogNothingNew item_type])%list w) /\
   api_calls (snd (_process_items json_loads generate_content fuel json_dumps encodable pick
                     item_type items enriched stats mineral mineral_dir w))
     = api_calls w /\
   files (snd (_process_items json_loads generate_content fuel json_dumps encodable pick
                 item_type items enriched stats mineral mineral_dir w)) = files w /\
   opened (snd (_process_items json_loads generate_content fuel json_dumps encodable pick
                  item_type items enriched stats mineral mineral_dir w)) = opened w) /\
  (governor_inv (rate_limiter w) -> (1440 < fuel)%nat ->
   exists stats' entries calls,
     fst (_process_items json_loads generate_content fuel json_dumps encodable pick
            item_type items enriched stats mineral mineral_dir w) = Ok stats' /\
     total_processed stats'
       = total_processed stats
         + Z.of_nat (length (List.filter (not_enriched enriched) items)) /\
     journal (snd (_process_items json_loads generate_content fuel json_dumps encodable pick
                     item_type items enriched stats mineral mineral_dir w))
       = (journal w ++ entries)%list /\
     omap reported_id entries
       ≡ₚ map (fun item => item_get item "id") (List.filter (not_enriched enriched) items) /\
     api_calls (snd (_process_items json_loads generate_content fuel json_dumps encodable
                       pick item_type items enriched stats mineral mineral_dir w))
       = (api_calls w ++ calls)%list /\
     Forall (fun p => exists item,
                 In item (List.filter (not_enriched enriched) items) /\
                 p = prompt_of item_type mineral item) calls) /\
  (List.filter (not_enriched enriched) items <> [] ->
   governed w -> (1440 < fuel)%nat -> yields_objects json_loads -> len mineral <= 1000 ->
   exists hs calls stats' w',
     _process_items json_loads generate_content fuel json_dumps encodable pick
       item_type items enriched stats mineral mineral_dir w = (Ok stats', w') /\
     map handled_item hs ≡ₚ List.filter (not_enriched enriched) items /\
     Forall (fun h => (1 <= handled_calls h <= 3)%nat /\ nonempty_dict (handled_analysis h))
       hs /\
     api_calls w' = (api_calls w ++ calls)%list /\
     calls ≡ₚ concat (map (handled_prompts item_type mineral) hs) /\
     journal w' = (journal w ++ map (handled_entry json_dumps encodable) hs)%list /\
     appends_to (mineral_dir +:+ "/" +:+ lower item_type +:+ "s_enriched.jsonl")
       (jsonl json_dumps
          (map handled_record (List.filter (is_saved json_dumps encodable) hs))) w w' /\
     tallied json_dumps encodable hs stats stats').
Proof.
  intros Hids.
  pose proof (process_items_eq json_loads generate_content fuel json_dumps encodable pick
                item_type items enriched stats mineral mineral_dir w Hids) as Hrun.
  split; [|split].
  - intros Hall.
    assert (List.filter (not_enriched enriched) items = []) as Hnone.
    { clear Hrun. induction items as [|item items IH]; [reflexivity|].
      cbn [List.filter]. destruct (Hall item (or_introl eq_refl)) as [v Hv].
      unfold not_enriched at 1. rewrite bool_decide_eq_false_2 by (rewrite Hv; discriminate).
      apply IH; intros x Hx; [apply Hids | apply Hall]; now right. }
    rewrite Hrun, Hnone. auto.
  - intros Hg Hf. rewrite Hrun.
    destruct (List.filter (not_enriched enriched) items) as [|item new_items] eqn:Enew.
    + exists stats, [LogNothingNew item_type], []. simpl. rewrite app_nil_r.
      repeat split; auto; lia.
    + set (output_file := mineral_dir +:+ "/" +:+ lower item_type +:+ "s_enriched.jsonl").
      set (done := as_completed pick (length (item :: new_items)) (item :: new_items)).
      set (w1 := snd (open_append output_file w)).
      assert (governor_inv (rate_limiter w1)) as Hg1
        by (unfold w1; now rewrite keeps_open_append_rate_limiter).
      destruct (collect_results_run json_loads generate_content fuel json_dumps encodable
                  done item_type mineral output_file stats w1 Hg1 Hf)
        as (stats' & entries & E1 & E2 & E3 & E4).
      destruct (grows_collect_results_api_calls json_loads generate_content fuel json_dumps
                  encodable done item_type mineral output_file stats w1)
        as (calls & C1 & C2).
      exists stats', entries, calls.
      assert (journal w1 = journal w /\ api_calls w1 = api_calls w) as [J1 A1].
      { unfold w1, open_append. simpl. destruct (files w !! output_file); auto. }
      rewrite J1 in E3. rewrite A1 in C1.
      split; [exact E1|]. split.
      { rewrite E2. unfold done. now rewrite as_completed_length. }
      split; [exact E3|]. split.
      { rewrite E4. apply Permutation_map, as_completed_perm. }
      split; [exact C1|].
      eapply Forall_impl; [exact C2|]. intros p (x & Hx & ->).
      exists x. split; [now apply as_completed_In in Hx | reflexivity].
  - intros Hnew Hgov Hf Hobj Hm.
    destruct (process_items_handled json_loads generate_content fuel json_dumps encodable
                pick Hobj Hf item_type items enriched stats mineral mineral_dir w
                Hgov Hm Hids Hnew)
      as (hs & stats' & w' & E & I & F & C & J & A & T & _).
    exists hs, (concat (map (handled_prompts item_type mineral) hs)), stats', w'.
    split; [exact E|]. split; [exact I|]. split; [exact F|]. split; [exact C|].
    split; [reflexivity|]. split; [exact J|]. split; [exact A | exact T].
Qed.

(** The second sample run, step by step: the future of the post ["c"]
    completes first and its record is saved; the line of the post ["b"]
    is refused by the codec, so that post is reported failed and leaves
    no record. One call of the API is made for each of them, and none
    for the post ["a"]. *)
Example sample_pool_run_trace :
  fst sample_pool_run = Ok (mkStats 2 1 1 0 0) /\
  journal (snd sample_pool_run) = [LogSaved "c"; LogException "b" encode_error] /\
  api_calls (snd sample_pool_run)
    = [create_analysis_prompt "gold" "v" EmptyString;
       create_analysis_prompt "gold" "u" EmptyString] /\
  files (snd sample_pool_run) !! "data/gold/posts_enriched.jsonl"
    = Some ("{id: c}" +:+ nl) /\
  opened (snd sample_pool_run) = ["data/gold/posts_enriched.jsonl"].
Proof. vm_compute. repeat split. Qed.

Lemma process_items_skips_enriched_witness :
  (_process_items sample_json_loads (api_always (ApiRaise "boom")) 1441 sample_json_dumps
     every_text first_pending
     "Post" [sample_item "a" "t"] (<[KStr "a" := JNull]> ∅) new_stats "gold" "data/gold"
     initial_world
   = (Ok new_stats, set_journal (journal initial_world ++ [LogNothingNew "Post"])%list
                      initial_world)) /\
  exists hs calls stats' w',
    sample_pool_run = (Ok stats', w') /\
    map handled_item hs
      ≡ₚ List.filter (not_enriched (<[KStr "a" := JNull]> ∅))
           [sample_item "a" "t"; sample_item "b" "u"; sample_item "c" "v"] /\
    Forall (fun h => (1 <= handled_calls h <= 3)%nat /\ nonempty_dict (handled_analysis h))
      hs /\
    api_calls w' = (api_calls initial_world ++ calls)%list /\
    calls ≡ₚ concat (map (handled_prompts "Post" "gold") hs) /\
    journal w'
      = (journal initial_world ++ map (handled_entry sample_json_dumps all_but_b) hs)%list /\
    appends_to ("data/gold" +:+ "/" +:+ lower "Post" +:+ "s_enriched.jsonl")
      (jsonl sample_json_dumps
         (map handled_record (List.filter (is_saved sample_json_dumps all_but_b) hs)))
      initial_world w' /\
    tallied sample_json_dumps all_but_b hs new_stats stats'.
Proof.
  split.
  - refine (proj1 (proj1 (process_items_skips_enriched sample_json_loads
                            (api_always (ApiRaise "boom")) 1441 sample_json_dumps
                            every_text first_pending
                            "Post" [sample_item "a" "t"] (<[KStr "a" := JNull]> ∅)
                            new_stats "gold" "data/gold" initial_world _) _)).
    + apply sample_items_have_ids. repeat constructor; eexists _, _; reflexivity.
    + intros item [<-|[]]. exists JNull. reflexivity.
  - apply (proj2 (proj2 (process_items_skips_enriched sample_json_loads
                           (api_always (ApiReturn (ok_response sample_reply_text))) 1441
                           sample_json_dumps all_but_b last_pending
                           "Post"
                           [sample_item "a" "t"; sample_item "b" "u"; sample_item "c" "v"]
                           (<[KStr "a" := JNull]> ∅) new_stats "gold" "data/gold"
                           initial_world
                           ltac:(apply sample_items_have_ids;
                                 repeat constructor; eexists _, _; reflexivity)))).
    + vm_compute. discriminate.
    + exact initial_world_governed.
    + lia.
    + exact sample_json_loads_yields_objects.
    + vm_compute. discriminate.
Defined.

Lemma process_items_never_fails_witness :
  exists stats' records,
    fst sample_run = Ok stats' /\
    failed stats' = failed new_stats /\
    successful stats' + blocked stats'
      = successful new_stats + blocked new_stats
        + Z.of_nat (length (List.filter (not_enriched (<[KStr "a" := JNull]> ∅))
                              [sample_item "a" "t"; sample_item "b" "u"])) /\
    appends_to ("data/gold" +:+ "/" +:+ lower "Post" +:+ "s_enriched.jsonl")
      (jsonl sample_json_dumps records) initial_world (snd sample_run) /\
    omap record_id records
      ≡ₚ map (fun item => item_get item "id")
           (List.filter (not_enriched (<[KStr "a" := JNull]> ∅))
              [sample_item "a" "t"; sample_item "b" "u"]).
Proof.
  apply (process_items_never_fails sample_json_loads
           (api_always (ApiReturn (ok_response sample_reply_text))) 1441
           sample_json_dumps every_text first_pending
           sample_json_loads_yields_objects ltac:(lia)
           "Post" [sample_item "a" "t"; sample_item "b" "u"]
           (<[KStr "a" := JNull]> ∅) new_stats "gold" "data/gold" initial_world
           ltac:(reflexivity) initial_world_governed ltac:(vm_compute; discriminate)).
  apply sample_items_have_ids. repeat constructor; eexists _, _; reflexivity.
Defined.


(** ** The token window *)

Lemma sum_tokens_app l x : sum_tokens (l ++ [x]) = sum_tokens l + snd x.
Proof. unfold sum_tokens. induction l as [|y l IH]; simpl; [lia|]. rewrite IH. lia. Qed.

Lemma sum_tokens_nonneg l : Forall (fun tc : Q * Z => 0 <= snd tc) l -> 0 <= sum_tokens l.
Proof.
  unfold sum_tokens. induction 1 as [|x l Hx _ IH]; simpl; [lia|]. lia.
Qed.

Lemma sum_tokens_filter (f : Q * Z -> bool) l :
  Forall (fun tc : Q * Z => 0 <= snd tc) l ->
  Forall (fun tc : Q * Z => 0 <= snd tc) (List.filter f l) /\
  sum_tokens (List.filter f l) <= sum_tokens l.
Proof.
  induction 1 as [|x l Hx Hl [IH1 IH2]]; simpl; [split; [constructor | lia]|].
  unfold sum_tokens in *. destruct (f x); simpl; split; try constructor; auto; lia.
Qed.

Lemma token_inv_pruned rl f :
  token_inv rl ->
  token_inv (mkLimiter (rpm_limit rl) (tpm_limit rl)
               (List.filter (fun t => f t) (request_timestamps rl))
               (List.filter (fun tc => f (fst tc)) (token_counts rl))).
Proof.
  intros [H1 H2]. destruct (sum_tokens_filter (fun tc => f (fst tc)) _ H1) as [F1 F2].
  split; cbn [token_counts tpm_limit]; [exact F1|].
  eapply Qle_lt_trans; [|exact H2]. rewrite <- Zle_Qle. exact F2.
Qed.

Lemma wait_pass_token_inv est w :
  0 <= est -> token_inv (rate_limiter w) ->
  token_inv (rate_limiter (snd (wait_pass est w))).
Proof.
  intros Hest Hinv.
  pose proof (token_inv_pruned (rate_limiter w) (fun t => Qltb (now w - 60)%Q t) Hinv) as Hp.
  destruct (wait_pass_cases est w) as [(o & w' & E & _ & Hrl)|(_ & Ht & E)];
    rewrite E; cbn [snd].
  - rewrite Hrl. exact Hp.
  - destruct Hp as [P1 P2]. cbn [token_counts tpm_limit] in P1, P2.
    split; cbn [rate_limiter set_rate_limiter token_counts tpm_limit].
    + apply Forall_app. split; [exact P1|]. constructor; [exact Hest | constructor].
    + rewrite sum_tokens_app. cbn [snd]. now apply Qle_bool_false.
Qed.

Lemma wait_if_needed_token_inv fuel est w :
  0 <= est -> token_inv (rate_limiter w) ->
  token_inv (rate_limiter (snd (wait_if_needed fuel est w))).
Proof.
  intros Hest. revert w. induction fuel as [|fuel IH]; intros w Hinv; [exact Hinv|].
  rewrite wait_if_needed_S. pose proof (wait_pass_token_inv est w Hest Hinv) as Hp.
  destruct (wait_pass est w) as [[[[]|]|e|] w1]; cbn [snd] in *; auto.
Qed.

Lemma estimate_tokens_nonneg s : 0 <= estimate_tokens s.
Proof. rewrite estimate_tokens_len. unfold len. apply Z.div_pos; lia. Qed.

Section TokenWindow.

Variable json_loads : string -> exn + json.
Variable generate_content : nat -> string -> ApiOutcome * Q.
Variable fuel : nat.
Variable json_dumps : json -> string.
Variable encodable : string -> bool.
Variable pick : list (gmap string string) -> nat.

Lemma preserves_token_inv_analyze_content prompt max_retries :
  preserves (fun w => token_inv (rate_limiter w))
    (analyze_content json_loads generate_content fuel prompt max_retries).
Proof.
  unfold analyze_content. apply preserves_bind.
  - intros w. apply wait_if_needed_token_inv.
    pose proof (estimate_tokens_nonneg prompt). lia.
  - intros _. apply (keeps_preserves rate_limiter token_inv).
    apply keeps_attempt_loop_rate_limiter.
Qed.

Lemma preserves_token_inv_collect_result item item_type mineral output_file stats :
  preserves (fun w => token_inv (rate_limiter w))
    (collect_result json_loads generate_content fuel json_dumps encodable
       item item_type mineral output_file stats).
Proof.
  unfold collect_result. apply preserves_try_except.
  - apply preserves_bind.
    + unfold _process_single_item, item_id_of. apply preserves_bind.
      { apply (keeps_preserves rate_limiter token_inv).
        destruct (item !! "id"); auto with keeps. }
      intros i. destruct (String.eqb item_type "Post");
        (apply preserves_bind; [apply preserves_token_inv_analyze_content|]);
        intros v; destruct (py_truthy v); apply preserves_ret.
    + intros r. apply (keeps_preserves rate_limiter token_inv). keeps_tac.
  - intros e. apply (keeps_preserves rate_limiter token_inv). keeps_tac.
Qed.

Lemma preserves_token_inv_process_items
    item_type items enriched stats mineral mineral_dir :
  preserves (fun w => token_inv (rate_limiter w))
    (_process_items json_loads generate_content fuel json_dumps encodable pick
       item_type items enriched stats mineral mineral_dir).
Proof.
  unfold _process_items. apply preserves_bind.
  - intros w H. now rewrite select_new_world.
  - intros [|item l].
    + apply (keeps_preserves rate_limiter token_inv). keeps_tac.
    + apply preserves_bind.
      { apply (keeps_preserves rate_limiter token_inv). auto with keeps. }
      intros _. generalize (as_completed pick (length (item :: l)) (item :: l)).
      clear item l. intros l. revert stats.
      induction l as [|item l IH]; intros stats; cbn [collect_results].
      * apply preserves_ret.
      * apply preserves_bind; [apply preserves_token_inv_collect_result | exact IH].
Qed.

(** X10: the governor never lets the tokens on record reach the token
    limit. If no cost on record is negative and their total is below the
    limit, the same holds after any call of [wait_if_needed] with a
    non-negative cost, however it ends, and so after [analyze_content] and
    after a whole run of [_process_items]. *)
Theorem token_window_below_limit :
  (forall est w,
      0 <= est -> token_inv (rate_limiter w) ->
      token_inv (rate_limiter (snd (wait_if_needed fuel est w)))) /\
  (forall prompt max_retries w,
      token_inv (rate_limiter w) ->
      token_inv (rate_limiter
                   (snd (analyze_content json_loads generate_content fuel
                           prompt max_retries w)))) /\
  (forall item_type items enriched stats mineral mineral_dir w,
      token_inv (rate_limiter w) ->
      token_inv (rate_limiter
                   (snd (_process_items json_loads generate_content fuel json_dumps encodable pick
                           item_type items enriched stats mineral mineral_dir w)))).
Proof.
  split; [|split].
  - intros est w. apply wait_if_needed_token_inv.
  - intros prompt max_retries. apply preserves_token_inv_analyze_content.
  - intros item_type items enriched stats mineral mineral_dir.
    apply preserves_token_inv_process_items.
Qed.

End TokenWindow.

Lemma initial_world_token_inv : token_inv (rate_limiter initial_world).
Proof. split; [constructor | vm_compute; reflexivity]. Qed.

Lemma token_window_below_limit_witness :
  token_inv (rate_limiter (snd (wait_if_needed 3 1500 initial_world))) /\
  token_inv (rate_limiter (snd sample_run)).
Proof.
  split.
  - apply (proj1 (token_window_below_limit sample_json_loads
                    (api_always (ApiReturn (ok_response sample_reply_text))) 3
                    sample_json_dumps every_text first_pending));
      [lia | exact initial_world_token_inv].
  - apply (proj2 (proj2 (token_window_below_limit sample_json_loads
                           (api_always (ApiReturn (ok_response sample_reply_text))) 1441
                           sample_json_dumps every_text first_pending))).
    exact initial_world_token_inv.
Defined.


(** ** A request that can never fit the token budget *)

Lemma wait_pass_raises est w e w' :
  wait_pass est w = (Raise e, w') -> e = index_error.
Proof.
  rewrite wait_pass_eq. cbv zeta.
  set (rts := in_window (now w) (request_timestamps (rate_limiter w))).
  set (tcs := List.filter (fun tc => Qltb (now w - 60)%Q (fst tc))
                (token_counts (rate_limiter w))).
  destruct (Qle_bool _ (inject_Z (Z.of_nat (length rts)))).
  { destruct rts as [|oldest r] eqn:Erts; [now intros [= <- _]|].
    rewrite time_sleep_ok; [discriminate|].
    apply wait_time_nonneg. exact (filter_head _ _ _ _ Erts). }
  destruct (Qle_bool _ (inject_Z (sum_tokens tcs + est))).
  { destruct tcs as [|[oldest n] r] eqn:Etcs; [now intros [= <- _]|].
    rewrite time_sleep_ok; [discriminate|].
    apply wait_time_nonneg. exact (filter_head _ _ _ _ Etcs). }
  discriminate.
Qed.

Lemma wait_if_needed_raises fuel est w e w' :
  wait_if_needed fuel est w = (Raise e, w') -> e = index_error.
Proof.
  revert w. induction fuel as [|fuel IH]; intros w; [discriminate|].
  rewrite wait_if_needed_S.
  destruct (wait_pass est w) as [[[[]|]|e0|] w1] eqn:Ep; try discriminate.
  - apply IH.
  - intros [= <- _]. exact (wait_pass_raises _ _ _ _ Ep).
Qed.

(** With a cost that alone reaches the token limit, no pass admits. *)
Lemma wait_if_needed_never_admits fuel est w :
  Forall (fun tc => 0 <= snd tc) (token_counts (rate_limiter w)) ->
  (tpm_limit (rate_limiter w) <= inject_Z est)%Q ->
  fst (wait_if_needed fuel est w) <> Ok tt.
Proof.
  revert w. induction fuel as [|fuel IH]; intros w Hpos Hest; [discriminate|].
  rewrite wait_if_needed_S.
  destruct (sum_tokens_filter (fun tc => Qltb (now w - 60)%Q (fst tc)) _ Hpos) as [F1 _].
  destruct (wait_pass_cases est w) as [(o & w' & E & Hne & Hrl)|(_ & Ht & _)].
  - rewrite E. destruct o as [[[]|]|e|]; try discriminate.
    + now destruct Hne.
    + apply IH; rewrite Hrl; [exact F1 | exact Hest].
  - exfalso. apply Qle_bool_false in Ht.
    pose proof (sum_tokens_nonneg _ F1) as Hs.
    assert (inject_Z est <= inject_Z (sum_tokens
              (List.filter (fun tc => Qltb (now w - 60)%Q (fst tc))
                 (token_counts (rate_limiter w))) + est))%Q as Hle
      by (rewrite <- Zle_Qle; lia).
    apply (Qlt_irrefl (tpm_limit (rate_limiter w))).
    eapply Qle_lt_trans; [exact Hest|]. eapply Qle_lt_trans; [exact Hle | exact Ht].
Qed.

(** X11: a request whose estimated cost alone reaches the token limit is
    never admitted. With a positive request limit, no negative cost on
    record and more passes than the windows hold entries,
    [wait_if_needed] ends by raising [IndexError] (the read of the oldest
    entry of an emptied window); [analyze_content] then raises it too,
    before any call of the API. *)
Theorem over_budget_request_raises
    (json_loads : string -> exn + json) (generate_content : nat -> string -> ApiOutcome * Q)
    fuel prompt max_retries w :
  (0 < rpm_limit (rate_limiter w))%Q ->
  Forall (fun tc => 0 <= snd tc) (token_counts (rate_limiter w)) ->
  (tpm_limit (rate_limiter w) <= inject_Z (estimate_tokens prompt + 600))%Q ->
  (window_size w < fuel)%nat ->
  exists w',
    wait_if_needed fuel (estimate_tokens prompt + 600) w = (Raise index_error, w') /\
    analyze_content json_loads generate_content fuel prompt max_retries w
      = (Raise index_error, w') /\
    api_calls w' = api_calls w.
Proof.
  intros Hrpm Hpos Hest Hsize.
  pose proof (wait_if_needed_never_admits fuel _ w Hpos Hest) as Hno.
  pose proof (wait_if_needed_not_blocked fuel (estimate_tokens prompt + 600) w Hrpm Hsize)
    as Hnb.
  pose proof (keeps_wait_if_needed_api_calls fuel (estimate_tokens prompt + 600) w) as Hc.
  unfold analyze_content, mbind, M_bind.
  destruct (wait_if_needed fuel _ w) as [[[]|e|] w'] eqn:E; cbn [fst snd] in *.
  - now destruct Hno.
  - rewrite (wait_if_needed_raises _ _ _ _ _ E). eauto.
  - now destruct Hnb.
Qed.

Lemma over_budget_request_raises_witness :
  exists w',
    wait_if_needed 1 (estimate_tokens oversized_prompt + 600) initial_world
      = (Raise index_error, w') /\
    analyze_content sample_json_loads (api_always (ApiRaise "boom")) 1
      oversized_prompt 3 initial_world = (Raise index_error, w') /\
    api_calls w' = api_calls initial_world.
Proof.
  apply over_budget_request_raises.
  - vm_compute. reflexivity.
  - constructor.
  - rewrite oversized_prompt_cost. vm_compute. discriminate.
  - vm_compute. lia.
Defined.


(** ** What [load_enriched_data] loads *)

Section Loading.

Variable json_loads : string -> exn + json.

Lemma load_line_record enriched line w :
  tolerated_line json_loads line ->
  load_line json_loads enriched line w =
  (Ok (match line_record json_loads line with
       | Some (k, item) => <[k := item]> enriched
       | None => enriched
       end), w).
Proof.
  intros Ht. unfold load_line, line_record. unfold tolerated_line in Ht.
  destruct (strip line) as [|a s] eqn:Es; [reflexivity|].
  destruct Ht as [H|[(e & He & Hd)|(d & Hl & Hid)]]; [discriminate| |];
    unfold try_except, mbind, M_bind, lift.
  - rewrite He, Hd. reflexivity.
  - rewrite Hl. cbn [py_in]. unfold dict_has.
    destruct Hid as [Hn|(v & k & Hv & Hk)].
    + rewrite Hn. reflexivity.
    + rewrite Hv. cbn [py_getitem]. rewrite Hv. unfold enriched_set. rewrite Hk.
      reflexivity.
Qed.

Lemma load_lines_lookup lines enriched w :
  Forall (tolerated_line json_loads) lines ->
  exists enriched',
    load_lines json_loads enriched lines w = (Ok enriched', w) /\
    forall k item,
      enriched' !! k = Some item <->
      (exists l1 line l2,
          lines = (l1 ++ line :: l2)%list /\
          line_record json_loads line = Some (k, item) /\
          Forall (fun l => ~ line_key json_loads k l) l2) \/
      (enriched !! k = Some item /\ Forall (fun l => ~ line_key json_loads k l) lines).
Proof.
  intros H. revert enriched. induction H as [|line lines Hl _ IH]; intros enriched.
  - exists enriched. split; [reflexivity|]. intros k item. split.
    + intros Hk. right. split; [exact Hk | constructor].
    + intros [(l1 & x & l2 & E & _)|[Hk _]]; [now destruct l1 | exact Hk].
  - cbn [load_lines]. unfold mbind, M_bind. rewrite (load_line_record _ _ _ Hl).
    match goal with
    | |- context [load_lines _ ?acc lines w] => destruct (IH acc) as (enriched' & E & Hlook)
    end.
    exists enriched'. split; [exact E|]. intros k item. rewrite Hlook. clear Hlook E IH.
    split.
    + intros [(l1 & x & l2 & -> & Hx & Hno)|[Hk Hno]].
      * left. exists (line :: l1), x, l2. auto.
      * destruct (line_record json_loads line) as [[k' item']|] eqn:Er.
        -- destruct (decide (k' = k)) as [->|Hne].
           ++ rewrite lookup_insert_eq in Hk. injection Hk as ->.
              left. exists [], line, lines. auto.
           ++ rewrite lookup_insert_ne in Hk by exact Hne. right. split; [exact Hk|].
              constructor; [|exact Hno]. intros (it & Hit). congruence.
        -- right. split; [exact Hk|]. constructor; [|exact Hno].
           intros (it & Hit). congruence.
    + intros [(l1 & x & l2 & E & Hx & Hno)|[Hk Hno]].
      * destruct l1 as [|y l1]; simpl in E; injection E as -> ->.
        -- right. rewrite Hx, lookup_insert_eq. auto.
        -- left. exists l1, x, l2. auto.
      * inversion Hno as [|? ? Hline Hrest]; subst. right. split; [|exact Hrest].
        destruct (line_record json_loads line) as [[k' item']|] eqn:Er; [|exact Hk].
        rewrite lookup_insert_ne; [exact Hk|]. intros ->. apply Hline. now exists item'.
Qed.

Lemma load_enriched_data_content path w :
  load_enriched_data json_loads path w
    = load_lines json_loads ∅ (file_lines (default EmptyString (files w !! path))) w.
Proof. unfold load_enriched_data. destruct (files w !! path); reflexivity. Qed.

Lemma load_enriched_data_lookup path content w :
  default EmptyString (files w !! path) = content ->
  Forall (tolerated_line json_loads) (file_lines content) ->
  exists enriched,
    load_enriched_data json_loads path w = (Ok enriched, w) /\
    forall k item,
      enriched !! k = Some item <->
      exists l1 line l2,
        file_lines content = (l1 ++ line :: l2)%list /\
        line_record json_loads line = Some (k, item) /\
        Forall (fun l => ~ line_key json_loads k l) l2.
Proof.
  intros Hf Ht. rewrite load_enriched_data_content, Hf.
  destruct (load_lines_lookup (file_lines content) ∅ w Ht) as (enriched & E & Hlook).
  exists enriched. split; [exact E|]. intros k item. rewrite Hlook. split.
  - intros [H|[H _]]; [exact H|]. rewrite lookup_empty in H. discriminate.
  - intros H. now left.
Qed.

(** X12: a file whose lines are all blank, unparseable or objects (with
    no identifier or a hashable one) loads without touching the world, and
    the set it gives maps a key to the item of the last line that carries
    the key: later lines override earlier ones, and nothing else is in the
    set. *)
Theorem load_enriched_data_last_wins path content w :
  files w !! path = Some content ->
  Forall (tolerated_line json_loads) (file_lines content) ->
  exists enriched,
    load_enriched_data json_loads path w = (Ok enriched, w) /\
    forall k item,
      enriched !! k = Some item <->
      exists l1 line l2,
        file_lines content = (l1 ++ line :: l2)%list /\
        line_record json_loads line = Some (k, item) /\
        Forall (fun l => ~ line_key json_loads k l) l2.
Proof.
  intros Hf. apply load_enriched_data_lookup. now rewrite Hf.
Qed.

End Loading.

Lemma load_enriched_data_last_wins_witness :
  exists enriched,
    load_enriched_data sample_record_loads "data/gold/posts_enriched.jsonl"
      (set_files (<["data/gold/posts_enriched.jsonl" :=
                      "{id: a}" +:+ nl +:+ "not json" +:+ nl +:+ nl +:+ "{id: a}" +:+ nl]> ∅)
         initial_world)
    = (Ok enriched,
       set_files (<["data/gold/posts_enriched.jsonl" :=
                      "{id: a}" +:+ nl +:+ "not json" +:+ nl +:+ nl +:+ "{id: a}" +:+ nl]> ∅)
         initial_world) /\
    forall k item,
      enriched !! k = Some item <->
      exists l1 line l2,
        file_lines ("{id: a}" +:+ nl +:+ "not json" +:+ nl +:+ nl +:+ "{id: a}" +:+ nl)
          = (l1 ++ line :: l2)%list /\
        line_record sample_record_loads line = Some (k, item) /\
        Forall (fun l => ~ line_key sample_record_loads k l) l2.
Proof.
  apply load_enriched_data_last_wins; [reflexivity|].
  change (Forall (tolerated_line sample_record_loads)
            ["{id: a}"; "not json"; EmptyString; "{id: a}"]).
  constructor; [|constructor; [|constructor; [|constructor; [|constructor]]]].
  - right. right. exists [("id", JStr "a")]. split; [reflexivity|]. right.
    exists (JStr "a"), (KStr "a"). split; reflexivity.
  - right. left. eexists. split; reflexivity.
  - left. reflexivity.
  - right. right. exists [("id", JStr "a")]. split; [reflexivity|]. right.
    exists (JStr "a"), (KStr "a"). split; reflexivity.
Defined.


(** ** Reading back what the engine wrote *)

Lemma file_lines_from_line cur l rest :
  no_line_break l = true ->
  file_lines_from false cur (l +:+ nl +:+ rest)
    = (cur +:+ l) :: file_lines_from false EmptyString rest.
Proof.
  revert cur. induction l as [|c l IH]; intros cur H.
  - rewrite str_app_nil_l, str_app_nil_r. reflexivity.
  - unfold no_line_break in H. cbn [all_chars] in H.
    apply andb_true_iff in H as [Hc H]. apply andb_true_iff in Hc as [H10 H13].
    apply negb_true_iff in H10, H13.
    rewrite str_app_cons. cbn [file_lines_from]. rewrite H10, H13.
    rewrite (IH _ H), str_app_assoc. reflexivity.
Qed.

Lemma file_lines_jsonl json_dumps records :
  Forall (fun r => no_line_break (json_dumps r) = true) records ->
  file_lines (jsonl json_dumps records) = map json_dumps records.
Proof.
  unfold file_lines. induction 1 as [|r records Hr _ IH]; [reflexivity|].
  cbn [jsonl fold_right map]. rewrite (file_lines_from_line _ _ _ Hr), str_app_nil_l.
  f_equal. exact IH.
Qed.

(** Either there is a last element that satisfies [P], or none does. *)
Lemma last_occurrence {A} (P : A -> Prop) (l : list A) :
  (forall x, P x \/ ~ P x) ->
  (exists l1 x l2, l = (l1 ++ x :: l2)%list /\ P x /\ Forall (fun y => ~ P y) l2) \/
  Forall (fun y => ~ P y) l.
Proof.
  intros Hdec. induction l as [|a l IH]; [right; constructor|].
  destruct IH as [(l1 & x & l2 & -> & Hx & Hno)|Hno].
  - left. exists (a :: l1), x, l2. auto.
  - destruct (Hdec a) as [Ha|Ha].
    + left. exists [], a, l. auto.
    + right. now constructor.
Qed.

Lemma line_key_dec json_loads k line :
  line_key json_loads k line \/ ~ line_key json_loads k line.
Proof.
  unfold line_key. destruct (line_record json_loads line) as [[k' item]|].
  - destruct (decide (k' = k)) as [->|Hne]; [left; eauto|].
    right. intros (it & [= E _]). contradiction.
  - right. intros (it & E). discriminate.
Qed.

Section ReadBack.

Variable json_loads : string -> exn + json.
Variable json_dumps : json -> string.
Variable encodable : string -> bool.
Variable pick : list (gmap string string) -> nat.

Lemma reads_back_line r i :
  reads_back json_loads json_dumps r i ->
  tolerated_line json_loads (json_dumps r) /\
  exists item, line_record json_loads (json_dumps r) = Some (KStr i, item).
Proof.
  intros (_ & Hs & d & Hl & Hid). split.
  - right. right. exists d. split; [exact Hl|]. right. exists (JStr i), (KStr i). auto.
  - unfold line_record. destruct (strip (json_dumps r)) eqn:E; [now destruct Hs|].
    rewrite Hl, Hid. cbn [key_of]. eauto.
Qed.

Lemma load_jsonl_keys path records w :
  default EmptyString (files w !! path) = jsonl json_dumps records ->
  Forall (fun r => exists i, record_id r = Some i /\
                             reads_back json_loads json_dumps r i) records ->
  exists enriched,
    load_enriched_data json_loads path w = (Ok enriched, w) /\
    forall k, is_Some (enriched !! k) <-> ids_of records k.
Proof.
  intros Hf Hrec.
  assert (file_lines (jsonl json_dumps records) = map json_dumps records) as Hlines.
  { apply file_lines_jsonl. eapply Forall_impl; [exact Hrec|].
    intros r (i & _ & H & _). exact H. }
  assert (Forall (tolerated_line json_loads) (file_lines (jsonl json_dumps records))) as Ht.
  { rewrite Hlines. apply Forall_map. eapply Forall_impl; [exact Hrec|].
    intros r (i & _ & H). exact (proj1 (reads_back_line r i H)). }
  destruct (load_enriched_data_lookup json_loads path _ w Hf Ht) as (enriched & E & Hlook).
  exists enriched. split; [exact E|]. intros k. rewrite Hlines in Hlook. split.
  - intros [item Hk]. apply Hlook in Hk as (l1 & line & l2 & El & Hr & _).
    assert (In line (map json_dumps records)) as Hin
      by (rewrite El; apply in_or_app; right; now left).
    apply in_map_iff in Hin as (r & <- & Hin).
    rewrite Forall_forall in Hrec.
    destruct (Hrec r ltac:(now apply list_elem_of_In)) as (i & Hi & Hb).
    destruct (reads_back_line r i Hb) as (_ & it & Hit).
    exists r, i. repeat split; [exact Hin | exact Hi | congruence].
  - intros (r & i & Hin & Hi & ->).
    rewrite Forall_forall in Hrec.
    destruct (Hrec r ltac:(now apply list_elem_of_In)) as (i' & Hi' & Hb).
    assert (i' = i) as -> by congruence.
    destruct (reads_back_line r i Hb) as (_ & it & Hit).
    destruct (last_occurrence (line_key json_loads (KStr i)) (map json_dumps records)
                (line_key_dec json_loads (KStr i)))
      as [(l1 & line & l2 & El & (item & Hline) & Hno)|Hno].
    + exists item. apply Hlook. exists l1, line, l2. auto.
    + exfalso. rewrite Forall_forall in Hno.
      apply (Hno (json_dumps r)); [|now exists it].
      apply list_elem_of_In, in_map, Hin.
Qed.

(** X13: a file that holds the lines the engine writes, for records whose
    serialisation reads back with their identifier, loads without an
    exception and without touching the world, and the keys of the set it
    gives are exactly the identifiers of the records. *)
Theorem load_reads_back_records path records w :
  files w !! path = Some (jsonl json_dumps records) ->
  Forall (fun r => exists i, record_id r = Some i /\
                             reads_back json_loads json_dumps r i) records ->
  exists enriched,
    load_enriched_data json_loads path w = (Ok enriched, w) /\
    forall k, is_Some (enriched !! k) <->
              exists r i, In r records /\ record_id r = Some i /\ k = KStr i.
Proof.
  intros Hf. apply load_jsonl_keys. now rewrite Hf.
Qed.

End ReadBack.

Lemma sample_reads_back i a :
  no_line_break i = true -> strip ("{id: " +:+ i +:+ "}") = "{id: " +:+ i +:+ "}" ->
  sample_record_loads ("{id: " +:+ i +:+ "}") = inr (JObj [("id", JStr i)]) ->
  reads_back sample_record_loads sample_json_dumps (record i a) i.
Proof.
  intros Hi Hs Hl. unfold reads_back. cbn [sample_json_dumps record].
  split; [|split].
  - unfold no_line_break in *. cbn [all_chars String.append]. 
    change ("{id: " +:+ i +:+ "}") with
      (String "{" (String "i" (String "d" (String ":" (String " " (i +:+ "}")))))).
    cbn [all_chars]. cbn. clear Hs Hl.
    induction i as [|c i IH]; [reflexivity|].
    cbn [all_chars] in Hi. apply andb_true_iff in Hi as [Hc Hi].
    rewrite str_app_cons. cbn [all_chars]. rewrite Hc. exact (IH Hi).
  - rewrite Hs. discriminate.
  - rewrite Hs, Hl. eexists. split; reflexivity.
Qed.

Lemma load_reads_back_records_witness :
  exists enriched,
    load_enriched_data sample_record_loads "data/gold/posts_enriched.jsonl"
      (set_files (<["data/gold/posts_enriched.jsonl" :=
                      jsonl sample_json_dumps [record "a" JNull; record "b" JNull]]> ∅)
         initial_world)
    = (Ok enriched,
       set_files (<["data/gold/posts_enriched.jsonl" :=
                      jsonl sample_json_dumps [record "a" JNull; record "b" JNull]]> ∅)
         initial_world) /\
    forall k, is_Some (enriched !! k) <->
              exists r i, In r [record "a" JNull; record "b" JNull] /\
                          record_id r = Some i /\ k = KStr i.
Proof.
  apply (load_reads_back_records sample_record_loads sample_json_dumps); [reflexivity|].
  constructor; [|constructor; [|constructor]].
  - exists "a". split; [reflexivity|]. apply sample_reads_back; reflexivity.
  - exists "b". split; [reflexivity|]. apply sample_reads_back; reflexivity.
Defined.


(** ** A finished run of [process_mineral] leaves nothing to do *)

Lemma str_app_inj_l s a b : s +:+ a = s +:+ b -> a = b.
Proof.
  induction s as [|c s IH]; [now rewrite !str_app_nil_l|].
  rewrite !str_app_cons. intros [= E]. auto.
Qed.

Lemma bind_ok {A B} (m : M A) (k : A -> M B) w a w1 :
  m w = (Ok a, w1) -> (m ≫= k) w = k a w1.
Proof. intros H. unfold mbind, M_bind. now rewrite H. Qed.

Lemma elem_of_omap_record_id i records :
  In i (omap record_id records) -> exists r, In r records /\ record_id r = Some i.
Proof.
  induction records as [|r records IH]; [intros []|].
  cbn [omap list_omap]. destruct (record_id r) as [j|] eqn:E.
  - intros [<-|H]; [exists r; split; [now left | exact E]|].
    destruct (IH H) as (x & Hx & Ex). exists x. split; [now right | exact Ex].
  - intros H. destruct (IH H) as (x & Hx & Ex). exists x. split; [now right | exact Ex].
Qed.

Lemma ids_of_app_l old recs k : ids_of old k -> ids_of (old ++ recs) k.
Proof.
  intros (r & i & Hin & Hi & ->). exists r, i. split; [|auto].
  apply in_or_app. now left.
Qed.

Lemma ids_of_app_r old recs k : ids_of recs k -> ids_of (old ++ recs) k.
Proof.
  intros (r & i & Hin & Hi & ->). exists r, i. split; [|auto].
  apply in_or_app. now right.
Qed.

(** The engine with nothing to do. *)
Lemma process_items_all_enriched json_loads generate_content fuel json_dumps encodable pick
    item_type items enriched stats mineral mineral_dir w :
  (forall item, In item items -> is_Some (item !! "id")) ->
  (forall item, In item items -> is_Some (enriched !! KStr (item_get item "id"))) ->
  _process_items json_loads generate_content fuel json_dumps encodable pick
    item_type items enriched stats mineral mineral_dir w
  = (Ok stats, snd (logger (LogNothingNew item_type) w)).
Proof.
  intros Hids Hall. unfold _process_items. unfold mbind at 1, M_bind at 1.
  rewrite (select_new_eq _ _ _ Hids).
  assert (List.filter (not_enriched enriched) items = []) as ->; [|reflexivity].
  clear Hids. induction items as [|item items IH]; [reflexivity|].
  cbn [List.filter]. destruct (Hall item (or_introl eq_refl)) as [v Hv].
  unfold not_enriched at 1. rewrite bool_decide_eq_false_2 by (rewrite Hv; discriminate).
  apply IH. intros x Hx. apply Hall. now right.
Qed.

Lemma concat_empty_cons x xs :
  String.concat EmptyString (x :: xs) = x +:+ String.concat EmptyString xs.
Proof.
  destruct xs as [|y xs]; cbn [String.concat].
  - now rewrite str_app_nil_r.
  - change (x +:+ (EmptyString +:+ String.concat EmptyString (y :: xs))
            = x +:+ String.concat EmptyString (y :: xs)).
    now rewrite str_app_nil_l.
Qed.

(** Chunks that the codec encodes are all written, one after the other. *)
Lemma write_chunks_from enc path chunks c f o w :
  Forall (fun chunk => enc chunk = true) chunks ->
  write_chunks enc path chunks (set_opened o (set_files (<[path := c]> f) w))
  = (Ok tt,
     set_opened o
       (set_files (<[path := c +:+ String.concat EmptyString chunks]> f) w)).
Proof.
  intros H. revert c. induction H as [|chunk chunks Hc _ IH]; intros c.
  - cbn [write_chunks String.concat]. now rewrite str_app_nil_r.
  - cbn [write_chunks]. unfold mbind, M_bind, file_write. rewrite Hc.
    specialize (IH (c +:+ chunk)). unfold set_opened, set_files in *.
    cbn [files now rate_limiter sleeps api_calls opened journal] in *.
    rewrite lookup_insert_eq, insert_insert_eq.
    change (default EmptyString (Some c)) with c.
    rewrite IH, concat_empty_cons, str_app_assoc. reflexivity.
Qed.

(** The summary, when the codec encodes its chunks: the file holds their
    concatenation, and nothing else of the world changes but the record
    of the files opened. *)
Lemma create_summary_file encodable isoformat format_1f json_dump_indent
    mineral mineral_dir post_stats comment_stats total_posts total_comments w :
  (forall v, Forall (fun chunk => encodable chunk = true) (json_dump_indent v)) ->
  _create_summary encodable isoformat format_1f json_dump_indent mineral mineral_dir
    post_stats comment_stats total_posts total_comments w
  = (Ok tt,
     set_opened (opened w ++ [mineral_dir +:+ "/" +:+ "enrichment_summary.json"])%list
       (set_files
          (<[mineral_dir +:+ "/" +:+ "enrichment_summary.json" :=
               String.concat EmptyString
                 (json_dump_indent
                    (JObj [ ("enrichment_date", JStr (isoformat (now w)));
                            ("mineral", JStr mineral);
                            ("model_used", JStr "gemini-1.5-flash-latest");
                            ("posts", stats_summary format_1f total_posts post_stats);
                            ("comments",
                             stats_summary format_1f total_comments comment_stats) ]))]>
             (files w)) w)).
Proof.
  intros Henc. unfold _create_summary, time_time.
  unfold mbind at 1, M_bind at 1. cbv zeta.
  unfold mbind, M_bind, open_write.
  rewrite (write_chunks_from encodable _ _ EmptyString (files w) _ w (Henc _)).
  now rewrite str_app_nil_l.
Qed.

Lemma create_summary_eq encodable isoformat format_1f json_dump_indent
    mineral mineral_dir post_stats comment_stats total_posts total_comments w :
  (forall v, Forall (fun chunk => encodable chunk = true) (json_dump_indent v)) ->
  exists w',
    _create_summary encodable isoformat format_1f json_dump_indent mineral mineral_dir
      post_stats comment_stats total_posts total_comments w = (Ok tt, w') /\
    api_calls w' = api_calls w /\ journal w' = journal w /\
    (forall p, p <> mineral_dir +:+ "/" +:+ "enrichment_summary.json" ->
               files w' !! p = files w !! p).
Proof.
  intros Henc. eexists. split; [now apply create_summary_file|].
  split; [reflexivity|]. split; [reflexivity|].
  intros p Hp. unfold set_opened, set_files. cbn [files]. now rewrite lookup_insert_ne.
Qed.

Section Resume.

Variable json_loads : string -> exn + json.
Variable generate_content : nat -> string -> ApiOutcome * Q.
Variable fuel : nat.
Variable json_dumps : json -> string.
Variable encodable : string -> bool.
Variable pick : list (gmap string string) -> nat.
Variable is_dir : string -> bool.
Variable load_items : string -> exn + list (gmap string string).
Variable isoformat : Q -> string.
Variable format_1f : Q -> string.
Variable json_dump_indent : json -> list string.

Hypothesis json_loads_objects : yields_objects json_loads.
Hypothesis enough_fuel : (1440 < fuel)%nat.

(** The codec encodes the line of every record and the chunks of every
    summary. *)
Hypothesis records_encodable : forall r, encodable (json_dumps r +:+ nl) = true.
Hypothesis summary_encodable :
  forall v, Forall (fun chunk => encodable chunk = true) (json_dump_indent v).

Local Abbreviation process := (_process_items json_loads generate_content fuel json_dumps encodable pick).
Local Abbreviation stored_in := (stored json_loads json_dumps).

Lemma preferred_path_eq mineral_dir kind w :
  preferred_path mineral_dir kind w
  = (Ok (if bool_decide (is_Some (files w !! (mineral_dir +:+ "/" +:+ kind +:+ "_enriched.jsonl")))
         then mineral_dir +:+ "/" +:+ kind +:+ "_enriched.jsonl"
         else mineral_dir +:+ "/" +:+ kind +:+ "_enriched.json"), w).
Proof.
  unfold preferred_path, path_exists, mbind, M_bind.
  destruct (bool_decide _); reflexivity.
Qed.

(** With no file of the older format, the set is loaded from the JSON
    Lines file, and its keys are the identifiers stored there. *)
Lemma load_stored mineral_dir kind records w :
  stored_in mineral_dir kind records w ->
  exists enriched,
    load_enriched_data json_loads
      (if bool_decide (is_Some (files w !! (mineral_dir +:+ "/" +:+ kind +:+ "_enriched.jsonl")))
       then mineral_dir +:+ "/" +:+ kind +:+ "_enriched.jsonl"
       else mineral_dir +:+ "/" +:+ kind +:+ "_enriched.json") w
      = (Ok enriched, w) /\
    forall k, is_Some (enriched !! k) <-> ids_of records k.
Proof.
  intros (Hold & Hnew & Hrec).
  destruct (load_jsonl_keys json_loads json_dumps _ records w Hnew Hrec)
    as (enriched & E & Hk).
  exists enriched. split; [|exact Hk].
  destruct (files w !! (mineral_dir +:+ "/" +:+ kind +:+ "_enriched.jsonl")) eqn:Ef.
  - rewrite bool_decide_eq_true_2 by eauto. exact E.
  - rewrite bool_decide_eq_false_2 by (intros [? ?]; discriminate).
    rewrite <- E. unfold load_enriched_data. now rewrite Hold, Ef.
Qed.

Lemma stored_frame mineral_dir kind records w w' :
  files w' !! (mineral_dir +:+ "/" +:+ kind +:+ "_enriched.json")
    = files w !! (mineral_dir +:+ "/" +:+ kind +:+ "_enriched.json") ->
  files w' !! (mineral_dir +:+ "/" +:+ kind +:+ "_enriched.jsonl")
    = files w !! (mineral_dir +:+ "/" +:+ kind +:+ "_enriched.jsonl") ->
  stored_in mineral_dir kind records w -> stored_in mineral_dir kind records w'.
Proof. unfold stored. intros -> ->. auto. Qed.

Lemma sources_frame mineral all_posts all_comments w w' :
  files w' !! ("data/" +:+ mineral +:+ "/" +:+ "posts.json")
    = files w !! ("data/" +:+ mineral +:+ "/" +:+ "posts.json") ->
  files w' !! ("data/" +:+ mineral +:+ "/" +:+ "comments.json")
    = files w !! ("data/" +:+ mineral +:+ "/" +:+ "comments.json") ->
  sources is_dir load_items mineral all_posts all_comments w ->
  sources is_dir load_items mineral all_posts all_comments w'.
Proof. unfold sources. intros -> ->. auto. Qed.

(** One kind of item, in a governed world: the run returns, and leaves
    every item stored. *)
Lemma process_items_stores item_type kind items enriched old stats mineral mineral_dir w :
  lower item_type +:+ "s_enriched.jsonl" = kind +:+ "_enriched.jsonl" ->
  governed w -> len mineral <= 1000 ->
  (forall item, In item items -> is_Some (item !! "id")) ->
  (forall item a, In item items ->
     reads_back json_loads json_dumps (record (item_get item "id") a) (item_get item "id")) ->
  stored_in mineral_dir kind old w ->
  (forall k, is_Some (enriched !! k) <-> ids_of old k) ->
  exists stats' w' recs,
    process item_type items enriched stats mineral mineral_dir w = (Ok stats', w') /\
    governed w' /\
    stored_in mineral_dir kind (old ++ recs) w' /\
    all_stored items (old ++ recs) /\
    (forall p, p <> mineral_dir +:+ "/" +:+ kind +:+ "_enriched.jsonl" ->
               files w' !! p = files w !! p).
Proof.
  intros Hkind Hgov Hm Hids Hnew (Hold & Hfile & Hrec) Hkeys.
  destruct (process_items_governed json_loads generate_content fuel json_dumps
              encodable pick json_loads_objects enough_fuel item_type items enriched stats
              mineral mineral_dir w records_encodable Hgov Hm Hids)
    as (stats' & recs & E & _ & _ & [Hother Hout] & Hmap & Hshape & Hgov').
  rewrite Hkind in Hother, Hout.
  destruct (process item_type items enriched stats mineral mineral_dir w) as [o w'].
  cbn [fst snd] in *. subst o.
  exists stats', w', recs. split; [reflexivity|]. split; [exact Hgov'|].
  split; [|split; [|exact Hother]].
  - split; [|split].
    + rewrite Hother; [exact Hold|]. intros H. apply str_app_inj_l, str_app_inj_l in H.
      apply str_app_inj_l in H. discriminate H.
    + now rewrite Hout, Hfile, jsonl_app.
    + apply Forall_app. split; [exact Hrec|].
      eapply Forall_impl; [exact Hshape|]. intros r (item & a & Hin & ->).
      exists (item_get item "id"). split; [reflexivity | now apply Hnew].
  - intros item Hin.
    destruct (not_enriched enriched item) eqn:En.
    + apply ids_of_app_r.
      assert (In (item_get item "id") (omap record_id recs)) as Hi.
      { eapply Permutation_in; [symmetry; exact Hmap|].
        apply (in_map (fun x => item_get x "id")). apply filter_In. auto. }
      destruct (elem_of_omap_record_id _ _ Hi) as (r & Hr & Er).
      exists r, (item_get item "id"). auto.
    + apply ids_of_app_l, Hkeys. unfold not_enriched in En.
      apply bool_decide_eq_false in En.
      destruct (enriched !! KStr (item_get item "id")); [eauto | now destruct En].
Qed.

Local Abbreviation loaded :=
  (process_loaded json_loads generate_content fuel json_dumps encodable pick
     isoformat format_1f json_dump_indent).
Local Abbreviation mineral_run :=
  (process_mineral json_loads generate_content fuel json_dumps encodable pick
     is_dir load_items isoformat format_1f json_dump_indent).

(** Two paths of one directory with different names. *)
Ltac path_neq :=
  let H := fresh in
  intros H; apply str_app_inj_l in H; vm_compute in H; discriminate H.

Lemma process_mineral_eq mineral all_posts all_comments w :
  sources is_dir load_items mineral all_posts all_comments w ->
  mineral_run mineral w =
  match loaded mineral ("data/" +:+ mineral) all_posts all_comments w with
  | (Ok _, w') => (Ok Completed, w')
  | (Raise e, w') => (Raise e, w')
  | (Blocked, w') => (Blocked, w')
  end.
Proof.
  intros (Hd & (tp & Hp & Lp) & (tc & Hc & Lc)).
  unfold process_mineral. cbv zeta. rewrite Hd. cbn [negb].
  assert (read_source load_items (("data/" +:+ mineral) +:+ "/" +:+ "posts.json") w
          = (Ok (Some all_posts), w)) as Rp.
  { unfold read_source. rewrite str_app_assoc, Hp, Lp. reflexivity. }
  assert (read_source load_items (("data/" +:+ mineral) +:+ "/" +:+ "comments.json") w
          = (Ok (Some all_comments), w)) as Rc.
  { unfold read_source. rewrite str_app_assoc, Hc, Lc. reflexivity. }
  rewrite (bind_ok _ _ _ _ _ Rp), (bind_ok _ _ _ _ _ Rc).
  unfold mbind, M_bind.
  destruct (process_loaded _ _ _ _ _ _ _ _ _ mineral _ all_posts all_comments w)
    as [[[]|e|] w']; reflexivity.
Qed.

(** A run over loaded source data, in a governed world. *)
Lemma process_loaded_stores mineral mineral_dir all_posts all_comments old_posts
    old_comments w :
  governed w -> len mineral <= 1000 ->
  (forall item, In item (all_posts ++ all_comments) -> is_Some (item !! "id")) ->
  (forall item a, In item (all_posts ++ all_comments) ->
     reads_back json_loads json_dumps (record (item_get item "id") a) (item_get item "id")) ->
  stored_in mineral_dir "posts" old_posts w ->
  stored_in mineral_dir "comments" old_comments w ->
  exists w' new_posts new_comments,
    loaded mineral mineral_dir all_posts all_comments w = (Ok tt, w') /\
    stored_in mineral_dir "posts" (old_posts ++ new_posts) w' /\
    stored_in mineral_dir "comments" (old_comments ++ new_comments) w' /\
    all_stored all_posts (old_posts ++ new_posts) /\
    all_stored all_comments (old_comments ++ new_comments) /\
    (forall p, p <> mineral_dir +:+ "/" +:+ "posts" +:+ "_enriched.jsonl" ->
               p <> mineral_dir +:+ "/" +:+ "comments" +:+ "_enriched.jsonl" ->
               p <> mineral_dir +:+ "/" +:+ "enrichment_summary.json" ->
               files w' !! p = files w !! p).
Proof.
  intros Hgov Hm Hids Hnew Sp Sc.
  destruct (load_stored mineral_dir "posts" old_posts w Sp) as (ep & Ep & Kp).
  destruct (load_stored mineral_dir "comments" old_comments w Sc) as (ec & Ec & Kc).
  unfold process_loaded.
  rewrite (bind_ok _ _ _ _ _ (preferred_path_eq mineral_dir "posts" w)).
  rewrite (bind_ok _ _ _ _ _ Ep).
  rewrite (bind_ok _ _ _ _ _ (preferred_path_eq mineral_dir "comments" w)).
  rewrite (bind_ok _ _ _ _ _ Ec). cbv zeta.
  destruct (process_items_stores "Post" "posts" all_posts ep old_posts
              (add_skipped (dict_len ep) new_stats) mineral mineral_dir w
              eq_refl Hgov Hm
              ltac:(intros x Hx; apply Hids, in_or_app; now left)
              ltac:(intros x a Hx; apply Hnew, in_or_app; now left) Sp Kp)
    as (st1 & w1 & recs1 & E1 & G1 & S1 & A1 & F1).
  rewrite (bind_ok _ _ _ _ _ E1).
  assert (stored_in mineral_dir "comments" old_comments w1) as Sc1.
  { apply (stored_frame _ _ _ w); [apply F1; path_neq | apply F1; path_neq | exact Sc]. }
  destruct (process_items_stores "Comment" "comments" all_comments ec old_comments
              (add_skipped (dict_len ec) new_stats) mineral mineral_dir w1
              eq_refl G1 Hm
              ltac:(intros x Hx; apply Hids, in_or_app; now right)
              ltac:(intros x a Hx; apply Hnew, in_or_app; now right) Sc1 Kc)
    as (st2 & w2 & recs2 & E2 & G2 & S2 & A2 & F2).
  rewrite (bind_ok _ _ _ _ _ E2).
  match goal with
  | |- context [_create_summary _ _ _ _ ?a ?b ?c ?d ?e ?f w2] =>
      destruct (create_summary_eq encodable isoformat format_1f json_dump_indent
                  a b c d e f w2 summary_encodable) as (w3 & -> & _ & _ & F3)
  end.
  exists w3, recs1, recs2. split; [reflexivity|].
  split; [|split; [|split; [exact A1|split; [exact A2|]]]].
  - apply (stored_frame _ _ _ w1); [| |exact S1].
    + rewrite F3 by path_neq. apply F2. path_neq.
    + rewrite F3 by path_neq. apply F2. path_neq.
  - apply (stored_frame _ _ _ w2); [| |exact S2]; apply F3; path_neq.
  - intros p H1 H2 H3. rewrite (F3 p H3), (F2 p H2), (F1 p H1). reflexivity.
Qed.

(** A run over loaded source data when every item is stored already. *)
Lemma process_loaded_idle mineral mineral_dir all_posts all_comments old_posts
    old_comments w :
  (forall item, In item (all_posts ++ all_comments) -> is_Some (item !! "id")) ->
  stored_in mineral_dir "posts" old_posts w ->
  stored_in mineral_dir "comments" old_comments w ->
  all_stored all_posts old_posts -> all_stored all_comments old_comments ->
  exists w',
    loaded mineral mineral_dir all_posts all_comments w = (Ok tt, w') /\
    api_calls w' = api_calls w /\
    journal w' = (journal w ++ [LogNothingNew "Post"; LogNothingNew "Comment"])%list /\
    (forall p, p <> mineral_dir +:+ "/" +:+ "enrichment_summary.json" ->
               files w' !! p = files w !! p).
Proof.
  intros Hids Sp Sc Ap Ac.
  destruct (load_stored mineral_dir "posts" old_posts w Sp) as (ep & Ep & Kp).
  destruct (load_stored mineral_dir "comments" old_comments w Sc) as (ec & Ec & Kc).
  unfold process_loaded.
  rewrite (bind_ok _ _ _ _ _ (preferred_path_eq mineral_dir "posts" w)).
  rewrite (bind_ok _ _ _ _ _ Ep).
  rewrite (bind_ok _ _ _ _ _ (preferred_path_eq mineral_dir "comments" w)).
  rewrite (bind_ok _ _ _ _ _ Ec). cbv zeta.
  rewrite (bind_ok _ _ _ _ _
             (process_items_all_enriched json_loads generate_content fuel json_dumps
                encodable pick "Post" all_posts ep _ mineral mineral_dir w
                ltac:(intros x Hx; apply Hids, in_or_app; now left)
                ltac:(intros x Hx; apply Kp, Ap, Hx))).
  rewrite (bind_ok _ _ _ _ _
             (process_items_all_enriched json_loads generate_content fuel json_dumps
                encodable pick "Comment" all_comments ec _ mineral mineral_dir _
                ltac:(intros x Hx; apply Hids, in_or_app; now right)
                ltac:(intros x Hx; apply Kc, Ac, Hx))).
  match goal with
  | |- context [_create_summary _ _ _ _ ?a ?b ?c ?d ?e ?f ?w2] =>
      destruct (create_summary_eq encodable isoformat format_1f json_dump_indent
                  a b c d e f w2 summary_encodable) as (w3 & -> & C3 & J3 & F3)
  end.
  exists w3. split; [reflexivity|]. split; [rewrite C3; reflexivity|]. split.
  - rewrite J3. cbn. now rewrite <- app_assoc.
  - intros p Hp. now rewrite F3.
Qed.

(** X14: a finished run leaves nothing to do. Take a mineral whose source
    files are in place, whose enriched files (if any) were written by the
    engine and with no file of the older format, a governed world, and
    serialised records that read back with their identifier. Then
    [process_mineral] completes, and a second call right after it
    completes as well without any call of the API: it reports that there
    is nothing new for posts and for comments, and changes no file but the
    summary. *)
Theorem process_mineral_resumes mineral all_posts all_comments old_posts old_comments w :
  governed w -> len mineral <= 1000 ->
  sources is_dir load_items mineral all_posts all_comments w ->
  (forall item, In item (all_posts ++ all_comments) -> is_Some (item !! "id")) ->
  (forall item a, In item (all_posts ++ all_comments) ->
     reads_back json_loads json_dumps (record (item_get item "id") a) (item_get item "id")) ->
  stored_in ("data/" +:+ mineral) "posts" old_posts w ->
  stored_in ("data/" +:+ mineral) "comments" old_comments w ->
  exists w1 w2,
    mineral_run mineral w = (Ok Completed, w1) /\
    mineral_run mineral w1 = (Ok Completed, w2) /\
    api_calls w2 = api_calls w1 /\
    journal w2 = (journal w1 ++ [LogNothingNew "Post"; LogNothingNew "Comment"])%list /\
    (forall p, p <> ("data/" +:+ mineral) +:+ "/" +:+ "enrichment_summary.json" ->
               files w2 !! p = files w1 !! p).
Proof.
  intros Hgov Hm Hsrc Hids Hnew Sp Sc.
  destruct (process_loaded_stores mineral ("data/" +:+ mineral) all_posts all_comments
              old_posts old_comments w Hgov Hm Hids Hnew Sp Sc)
    as (w1 & recs1 & recs2 & E1 & Sp1 & Sc1 & Ap & Ac & F).
  assert (sources is_dir load_items mineral all_posts all_comments w1) as Hsrc1.
  { apply (sources_frame _ _ _ w); [| |exact Hsrc];
      rewrite <- str_app_assoc; apply F; path_neq. }
  destruct (process_loaded_idle mineral ("data/" +:+ mineral) all_posts all_comments
              _ _ w1 Hids Sp1 Sc1 Ap Ac) as (w2 & E2 & C2 & J2 & F2).
  exists w1, w2.
  rewrite (process_mineral_eq _ _ _ _ Hsrc), E1.
  rewrite (process_mineral_eq _ _ _ _ Hsrc1), E2. auto.
Qed.

End Resume.

Lemma sample_dump_encodable v :
  Forall (fun chunk => every_text chunk = true) (sample_dump_indent v).
Proof. repeat constructor. Qed.

Lemma sample_record_loads_yields_objects : yields_objects sample_record_loads.
Proof.
  intros a rest v H _. unfold sample_record_loads in H.
  destruct (_ && _); [|discriminate]. injection H as <-. eauto.
Qed.

Lemma process_mineral_resumes_witness :
  exists w1 w2,
    process_mineral sample_record_loads
      (api_always (ApiReturn (ok_response sample_reply_text))) 1441 sample_json_dumps
      every_text first_pending (fun _ => true) sample_load_items
      (fun _ => "now") (fun _ => "0.0") sample_dump_indent
      "gold" sample_mineral_world = (Ok Completed, w1) /\
    process_mineral sample_record_loads
      (api_always (ApiReturn (ok_response sample_reply_text))) 1441 sample_json_dumps
      every_text first_pending (fun _ => true) sample_load_items
      (fun _ => "now") (fun _ => "0.0") sample_dump_indent
      "gold" w1 = (Ok Completed, w2) /\
    api_calls w2 = api_calls w1 /\
    journal w2 = (journal w1 ++ [LogNothingNew "Post"; LogNothingNew "Comment"])%list /\
    (forall p, p <> ("data/" +:+ "gold") +:+ "/" +:+ "enrichment_summary.json" ->
               files w2 !! p = files w1 !! p).
Proof.
  apply (process_mineral_resumes sample_record_loads
           (api_always (ApiReturn (ok_response sample_reply_text))) 1441 sample_json_dumps
           every_text first_pending (fun _ => true) sample_load_items
           (fun _ => "now") (fun _ => "0.0") sample_dump_indent
           sample_record_loads_yields_objects ltac:(lia)
           (fun _ => eq_refl) sample_dump_encodable
           "gold" [sample_item "a" "t"] [sample_item "c" "u"] [] []).
  - exact initial_world_governed.
  - vm_compute. discriminate.
  - split; [reflexivity|]. split; eexists; split; reflexivity.
  - intros item [<-|[<-|[]]]; eexists; reflexivity.
  - intros item a [<-|[<-|[]]]; apply sample_reads_back; reflexivity.
  - split; [reflexivity|]. split; [reflexivity | constructor].
  - split; [reflexivity|]. split; [reflexivity | constructor].
Defined.

(** ** Configuration *)

Lemma dict_has_get k d : dict_has k d = true -> exists v, dict_get k d = Some v.
Proof. unfold dict_has. destruct (dict_get k d); [eauto | discriminate]. Qed.

Lemma check_config_accepts config config' :
  check_config config = inr config' ->
  config' = config /\
  exists d rest v,
    config = JArr (JObj d :: rest) /\ dict_get "aistudio" d = Some v /\
    py_in "apiKey" v = inr true.
Proof.
  unfold check_config.
  destruct config as [| | | | |[|first rest]|]; try discriminate.
  destruct (py_in "aistudio" first) as [e|[|]] eqn:E1; try discriminate.
  destruct (py_getitem "aistudio" first) as [e|v] eqn:E2; [discriminate|].
  destruct (py_in "apiKey" v) as [e|[|]] eqn:E3; try discriminate.
  intros [= <-]. split; [reflexivity|].
  destruct first as [| | | | | |d]; try discriminate E2.
  cbn [py_getitem] in E2. destruct (dict_get "aistudio" d) as [x|] eqn:Ed; [|discriminate].
  injection E2 as ->. exists d, rest, v. auto.
Qed.

(** X15: what [_load_config] accepts. A configuration it returns is the
    parsed text of the file, a list whose first element is an object with
    the key 'aistudio'. [_configure_gemini] then hands the 'apiKey' entry
    to the client when the value under 'aistudio' is an object; the
    validation also lets through a string or a list that merely contains
    'apiKey', and on those [_configure_gemini] raises a [TypeError].
    Conversely a file of the documented structure is accepted and its key
    is the one configured. *)
Theorem config_validation (json_loads : string -> exn + json)
    (fs : gmap string string) (config_path : string) :
  (forall config,
      _load_config json_loads fs config_path = Loaded config ->
      exists text d rest v,
        fs !! config_path = Some text /\ json_loads text = inr config /\
        config = JArr (JObj d :: rest) /\ dict_get "aistudio" d = Some v /\
        ((exists section k,
             v = JObj section /\ dict_get "apiKey" section = Some k /\
             _configure_gemini config = inr k) \/
         (exists e,
             ((exists s, v = JStr s) \/ (exists l, v = JArr l)) /\
             _configure_gemini config = inl e /\ exn_cls e = TypeError))) /\
  (forall text d rest section k,
      fs !! config_path = Some text ->
      json_loads text = inr (JArr (JObj d :: rest)) ->
      dict_get "aistudio" d = Some (JObj section) ->
      dict_get "apiKey" section = Some k ->
      _load_config json_loads fs config_path = Loaded (JArr (JObj d :: rest)) /\
      _configure_gemini (JArr (JObj d :: rest)) = inr k).
Proof.
  split.
  - intros config. unfold _load_config.
    destruct (fs !! config_path) as [text|]; [|discriminate].
    destruct (json_loads text) as [e|parsed] eqn:El.
    { destruct (exn_cls e); discriminate. }
    destruct (check_config parsed) as [e|config'] eqn:Ec.
    { destruct (exn_cls e); discriminate. }
    intros [= <-].
    destruct (check_config_accepts _ _ Ec) as (-> & d & rest & v & -> & Hd & Hk).
    exists text, d, rest, v. repeat split; try assumption.
    unfold _configure_gemini. cbn [py_getitem0 py_getitem]. rewrite Hd.
    destruct v as [| | | |s|l|section]; try discriminate Hk.
    + right. eexists. split; [left; eauto|]. split; reflexivity.
    + right. eexists. split; [right; eauto|]. split; reflexivity.
    + left. cbn [py_in] in Hk. injection Hk as Hk.
      destruct (dict_has_get _ _ Hk) as [k Hget].
      exists section, k. cbn [py_getitem]. rewrite Hget. auto.
  - intros text d rest section k Hf Hl Hd Hk.
    unfold _load_config, check_config, _configure_gemini.
    rewrite Hf, Hl. cbn [py_in py_getitem py_getitem0]. unfold dict_has.
    rewrite Hd. cbn [py_in py_getitem]. unfold dict_has. rewrite Hk. auto.
Qed.

Lemma config_validation_witness :
  (exists text d rest v,
      (<["configs/keys.json" := "odd"]> ∅ : gmap string string) !! "configs/keys.json"
        = Some text /\
      sample_config_loads text = inr (JArr [JObj [("aistudio", JStr "see apiKey below")]]) /\
      JArr [JObj [("aistudio", JStr "see apiKey below")]] = JArr (JObj d :: rest) /\
      dict_get "aistudio" d = Some v /\
      ((exists section k,
           v = JObj section /\ dict_get "apiKey" section = Some k /\
           _configure_gemini (JArr [JObj [("aistudio", JStr "see apiKey below")]]) = inr k) \/
       (exists e,
           ((exists s, v = JStr s) \/ (exists l, v = JArr l)) /\
           _configure_gemini (JArr [JObj [("aistudio", JStr "see apiKey below")]]) = inl e /\
           exn_cls e = TypeError))) /\
  (_load_config sample_config_loads (<["configs/keys.json" := "good"]> ∅) "configs/keys.json"
     = Loaded (JArr (JObj [("aistudio", JObj [("apiKey", JStr "k")])] :: [])) /\
   _configure_gemini (JArr (JObj [("aistudio", JObj [("apiKey", JStr "k")])] :: []))
     = inr (JStr "k")).
Proof.
  split.
  - apply (proj1 (config_validation sample_config_loads
                    (<["configs/keys.json" := "odd"]> ∅) "configs/keys.json")).
    reflexivity.
  - apply (proj2 (config_validation sample_config_loads
                    (<["configs/keys.json" := "good"]> ∅) "configs/keys.json")
             "good" _ _ [("apiKey", JStr "k")] (JStr "k")); reflexivity.
Defined.


(** ** The attempts of [analyze_content] *)

Section Attempts.

Variable json_loads : string -> exn + json.
Variable generate_content : nat -> string -> ApiOutcome * Q.
Variable fuel : nat.

Local Abbreviation body := (attempt_body json_loads generate_content).
Local Abbreviation loop := (attempt_loop json_loads generate_content).
Local Abbreviation analyze := (analyze_content json_loads generate_content fuel).

Lemma attempt_body_return prompt attempt max_retries w r took :
  generate_content (length (api_calls w)) prompt = (ApiReturn r, took) ->
  body prompt attempt max_retries w =
  try_except
    (match candidates r with
     | [] =>
         if has_block_reason r
         then (_ ← prompt_block_message r;
               mret (Return (create_blocked_analysis "prompt_blocked")))
         else retry_or_give_up attempt max_retries "no_candidates"
     | candidate :: _ =>
         if negb (normal_finish (finish_reason_name candidate))
         then mret (Return (create_blocked_analysis
                              ("safety_blocked_" +:+ lower (finish_reason_name candidate))))
         else
           response_text ← response_text r;
           match extract_json_from_response response_text with
           | None => retry_or_give_up attempt max_retries "no_json"
           | Some json_text =>
               result ← lift (json_loads json_text);
               complete ← lift (all_keys_in required_keys result);
               if negb (complete : bool)
               then retry_or_give_up attempt max_retries "invalid_structure"
               else mret (Return result)
           end
     end)
    (attempt_except attempt max_retries) (after_call prompt took w).
Proof.
  intros G. unfold attempt_body, attempt_try.
  exact (try_except_bind_ok _ _ _ _ _ _ (api_call_eq generate_content prompt w _ took G)).
Qed.

(** X16: the reply that is used. Once the governor has let the request
    through, if the first response has a candidate that finished normally
    and its text holds a JSON object that parses and has every required
    key, [analyze_content] returns that object as parsed, after one call of
    the API and without sleeping. *)
Theorem analyze_content_accepts_first_reply prompt max_retries w w0 r took c rest t j v :
  0 < max_retries ->
  wait_if_needed fuel (estimate_tokens prompt + 600) w = (Ok tt, w0) ->
  generate_content (length (api_calls w0)) prompt = (ApiReturn r, took) ->
  candidates r = c :: rest -> normal_finish (finish_reason_name c) = true ->
  text r = inl t -> extract_json_from_response t = Some j ->
  json_loads j = inr v -> all_keys_in required_keys v = inr true ->
  analyze prompt max_retries w = (Ok v, after_call prompt took w0).
Proof.
  intros Hmax Hw G Hc Hn Ht Hj Hl Hk. unfold analyze_content.
  rewrite (bind_ok _ _ _ _ _ Hw).
  destruct (Z.to_nat max_retries) as [|n] eqn:En; [lia|].
  rewrite attempt_loop_S, (attempt_body_return _ _ _ _ _ _ G), Hc, Hn. cbn [negb].
  unfold response_text. rewrite Ht.
  unfold try_except, mbind, M_bind, mret, M_ret, lift. rewrite Hj, Hl, Hk. reflexivity.
Qed.

Lemma attempt_body_structural prompt attempt max_retries w r took reason :
  generate_content (length (api_calls w)) prompt = (ApiReturn r, took) ->
  structural_failure json_loads r reason ->
  body prompt attempt max_retries w
    = retry_or_give_up attempt max_retries reason (after_call prompt took w).
Proof.
  intros G Hf. rewrite (attempt_body_return _ _ _ _ _ _ G).
  assert (forall reason' w', exists o w'',
             retry_or_give_up attempt max_retries reason' w' = (Ok o, w'')) as Hok.
  { intros reason' w'. destruct (Z.ltb_spec attempt (max_retries - 1)).
    - rewrite retry_or_give_up_retry by assumption. eauto.
    - rewrite retry_or_give_up_last by assumption. eauto. }
  destruct Hf as [(Hc & Hb & ->)|(c & rest & t & Hc & Hn & Ht & Hcase)].
  - rewrite Hc, Hb. unfold try_except.
    destruct (Hok "no_candidates" (after_call prompt took w)) as (o & w' & ->). reflexivity.
  - rewrite Hc, Hn. cbn [negb]. unfold response_text. rewrite Ht.
    unfold try_except, mbind at 1, M_bind at 1, mret at 1, M_ret at 1.
    destruct Hcase as [(Hj & ->)|[(j & e & Hj & Hl & He & ->)|(j & v & Hj & Hl & Hk & ->)]];
      rewrite Hj.
    + destruct (Hok "no_json" (after_call prompt took w)) as (o & w' & ->). reflexivity.
    + unfold mbind, M_bind, lift. rewrite Hl. unfold attempt_except. now rewrite He.
    + unfold mbind, M_bind, lift. rewrite Hl, Hk. cbn [negb].
      destruct (Hok "invalid_structure" (after_call prompt took w)) as (o & w' & ->).
      reflexivity.
Qed.

Lemma attempt_loop_structural (reason : nat -> string) prompt max_retries :
  (forall k, exists r took,
      generate_content k prompt = (ApiReturn r, took) /\
      structural_failure json_loads r (reason k)) ->
  forall n attempt w,
    attempt + Z.of_nat (S n) = max_retries ->
    exists w',
      loop (S n) prompt attempt max_retries w
        = (Ok (create_blocked_analysis (reason (length (api_calls w) + n)%nat)), w') /\
      api_calls w' = (api_calls w ++ repeat prompt (S n))%list /\
      sleeps w' = (sleeps w ++ repeat 5%Q n)%list.
Proof.
  intros Hall. induction n as [|n IH]; intros attempt w Hsum;
    destruct (Hall (length (api_calls w))) as (r & took & G & Hf);
    rewrite attempt_loop_S, (attempt_body_structural _ _ _ _ _ _ _ G Hf).
  - rewrite retry_or_give_up_last by lia.
    rewrite Nat.add_0_r. eexists. split; [reflexivity|].
    split; [reflexivity | simpl; now rewrite app_nil_r].
  - rewrite retry_or_give_up_retry by lia.
    destruct (IH (attempt + 1) (after_sleep 5 (after_call prompt took w)) ltac:(lia))
      as (w' & E & C & Hs).
    exists w'. split.
    + rewrite E.
      assert (length (api_calls (after_sleep 5 (after_call prompt took w))) + n
              = length (api_calls w) + S n)%nat as ->; [|reflexivity].
      change (api_calls (after_sleep 5 (after_call prompt took w)))
        with (api_calls w ++ [prompt])%list.
      rewrite length_app. simpl. lia.
    + split.
      * rewrite C. cbn. now rewrite <- app_assoc.
      * rewrite Hs. cbn. now rewrite <- app_assoc.
Qed.

(** X17: replies that cannot be used are retried until the attempts run
    out. If every response of the API is a structural failure, then after
    the governor has let the request through [analyze_content] makes
    exactly [max_retries] calls, sleeps 5 seconds between two of them, and
    returns the placeholder with the reason of the last response. *)
Theorem structural_failures_exhaust_retries (reason : nat -> string)
    prompt max_retries w w0 :
  0 < max_retries ->
  wait_if_needed fuel (estimate_tokens prompt + 600) w = (Ok tt, w0) ->
  (forall k, exists r took,
      generate_content k prompt = (ApiReturn r, took) /\
      structural_failure json_loads r (reason k)) ->
  exists w',
    analyze prompt max_retries w
      = (Ok (create_blocked_analysis
               (reason (length (api_calls w0) + (Z.to_nat max_retries - 1))%nat)), w') /\
    api_calls w' = (api_calls w0 ++ repeat prompt (Z.to_nat max_retries))%list /\
    sleeps w' = (sleeps w0 ++ repeat 5%Q (Z.to_nat max_retries - 1))%list.
Proof.
  intros Hmax Hw Hall. unfold analyze_content. rewrite (bind_ok _ _ _ _ _ Hw).
  destruct (Z.to_nat max_retries) as [|n] eqn:En; [lia|].
  replace (S n - 1)%nat with n by lia.
  apply (attempt_loop_structural reason prompt max_retries Hall n 0 w0). lia.
Qed.

End Attempts.

Lemma structural_failures_exhaust_retries_witness :
  exists w',
    analyze_content sample_json_loads (api_always (ApiReturn prose_reply)) 1 "p" 3
      initial_world
      = (Ok (create_blocked_analysis "no_json"), w') /\
    api_calls w'
      = (api_calls (snd (wait_if_needed 1 (estimate_tokens "p" + 600) initial_world))
           ++ repeat "p" (Z.to_nat 3))%list /\
    sleeps w'
      = (sleeps (snd (wait_if_needed 1 (estimate_tokens "p" + 600) initial_world))
           ++ repeat 5%Q (Z.to_nat 3 - 1))%list.
Proof.
  apply (structural_failures_exhaust_retries sample_json_loads
           (api_always (ApiReturn prose_reply)) 1 (fun _ => "no_json") "p" 3
           initial_world
           (snd (wait_if_needed 1 (estimate_tokens "p" + 600) initial_world))).
  - lia.
  - vm_compute. reflexivity.
  - intros k. exists prose_reply, 1%Q. split; [reflexivity|].
    right. exists (mkCandidate "STOP"), [], "I cannot answer that.".
    split; [reflexivity|]. split; [reflexivity|]. split; [reflexivity|].
    left. split; reflexivity.
Defined.

Lemma analyze_content_accepts_first_reply_witness :
  analyze_content sample_json_loads
    (api_always (ApiReturn (ok_response sample_reply_text))) 1 "p" 3 initial_world
  = (Ok sample_reply,
     after_call "p" 1 (snd (wait_if_needed 1 (estimate_tokens "p" + 600) initial_world))).
Proof.
  apply (analyze_content_accepts_first_reply sample_json_loads
           (api_always (ApiReturn (ok_response sample_reply_text))) 1 "p" 3 initial_world
           _ (ok_response sample_reply_text) 1 (mkCandidate "STOP") [] sample_reply_text
           sample_reply_text sample_reply).
  - lia.
  - vm_compute. reflexivity.
  - reflexivity.
  - reflexivity.
  - reflexivity.
  - reflexivity.
  - reflexivity.
  - reflexivity.
  - reflexivity.
Defined.


(** ** The time spent backing off *)

Lemma keeps_api_call_sleeps gen prompt : keeps sleeps (api_call gen prompt).
Proof. intros w. unfold api_call. destruct (gen _ _) as [[r|msg] took]; reflexivity. Qed.

Lemma sleeps_once_keeps {A} bound (m : M A) : keeps sleeps m -> sleeps_once bound m.
Proof. intros H w. left. apply H. Qed.

Lemma sleeps_once_bind {A B} bound (m : M A) (k : A -> M B) :
  keeps sleeps m -> (forall a, sleeps_once bound (k a)) -> sleeps_once bound (m ≫= k).
Proof.
  intros Hm Hk w. specialize (Hm w). unfold mbind, M_bind.
  destruct (m w) as [[a|e|] w1]; cbn [snd] in *; try (left; exact Hm).
  rewrite <- Hm. apply Hk.
Qed.

Lemma sleeps_once_try_except {A} bound (body : M A) (h : exn -> M A) :
  sleeps_once bound body -> (forall e, sleeps_once bound (h e)) ->
  sleeps_once bound (try_except body h).
Proof.
  intros Hb Hh w. specialize (Hb w). unfold try_except.
  destruct (body w) as [[a|e|] w1]; cbn [fst snd] in *; try exact Hb.
  destruct Hb as [Hs|(d & _ & _ & x & Hx)]; [|discriminate].
  rewrite <- Hs. apply Hh.
Qed.

Lemma sleeps_once_sleep {A} bound d (a : A) :
  (d <= bound)%Q -> sleeps_once bound (_ ← time_sleep d; mret a).
Proof.
  intros Hd w. unfold mbind, M_bind, time_sleep.
  destruct (Qle_bool 0 d) eqn:E; [|left; reflexivity].
  right. exists d. apply Qle_bool_iff in E. split; [split; assumption|].
  split; [reflexivity | eexists; reflexivity].
Qed.

Lemma pow2_pos a : 0 <= a -> 1 <= 2 ^ a.
Proof. intros H. pose proof (Z.pow_pos_nonneg 2 a ltac:(lia) H). lia. Qed.

Lemma Qsum_app l1 l2 : (Qsum (l1 ++ l2) == Qsum l1 + Qsum l2)%Q.
Proof.
  unfold Qsum. induction l1 as [|x l1 IH]; simpl; [lra|]. rewrite IH. lra.
Qed.

Section Backoff.

Variable json_loads : string -> exn + json.
Variable generate_content : nat -> string -> ApiOutcome * Q.
Variable fuel : nat.

Lemma sleeps_once_retry_or_give_up bound attempt max_retries reason :
  (5 <= bound)%Q -> sleeps_once bound (retry_or_give_up attempt max_retries reason).
Proof.
  intros Hb. unfold retry_or_give_up. destruct (attempt <? max_retries - 1).
  - now apply sleeps_once_sleep.
  - apply sleeps_once_keeps, keeps_ret.
Qed.

(** An attempt sleeps at most once, for no longer than [60 * 2 ^ attempt]
    seconds. *)
Lemma sleeps_once_attempt_body prompt attempt max_retries :
  0 <= attempt ->
  sleeps_once (inject_Z (60 * 2 ^ attempt))
    (attempt_body json_loads generate_content prompt attempt max_retries).
Proof.
  intros Ha. pose proof (pow2_pos attempt Ha) as Hp.
  assert (5 <= inject_Z (60 * 2 ^ attempt))%Q as H5
    by (change 5%Q with (inject_Z 5); apply inject_Z_le; lia).
  unfold attempt_body. apply sleeps_once_try_except.
  - unfold attempt_try. apply sleeps_once_bind; [apply keeps_api_call_sleeps|].
    intros r. destruct (candidates r) as [|c rest].
    + destruct (has_block_reason r); [|now apply sleeps_once_retry_or_give_up].
      apply sleeps_once_bind; [apply keeps_prompt_block_message|].
      intros _. apply sleeps_once_keeps, keeps_ret.
    + destruct (negb _); [apply sleeps_once_keeps, keeps_ret|].
      apply sleeps_once_bind.
      { unfold response_text. destruct (text r); auto with keeps. }
      intros t. destruct (extract_json_from_response t) as [j|];
        [|now apply sleeps_once_retry_or_give_up].
      apply sleeps_once_bind; [apply keeps_lift|]. intros v.
      apply sleeps_once_bind; [apply keeps_lift|]. intros b.
      destruct (negb b);
        [now apply sleeps_once_retry_or_give_up | apply sleeps_once_keeps, keeps_ret].
  - intros e. unfold attempt_except.
    destruct (is_json_decode_error e); [now apply sleeps_once_retry_or_give_up|].
    destruct (is_rate_limit_error e).
    + apply sleeps_once_sleep, inject_Z_le. lia.
    + destruct (attempt <? max_retries - 1).
      * apply sleeps_once_sleep, inject_Z_le. lia.
      * apply sleeps_once_keeps, keeps_ret.
Qed.

Lemma attempt_loop_backoff n prompt attempt max_retries w :
  0 <= attempt ->
  exists l,
    sleeps (snd (attempt_loop json_loads generate_content n prompt attempt max_retries w))
      = (sleeps w ++ l)%list /\
    (length l <= n)%nat /\ Forall (fun d => (0 <= d)%Q) l /\
    (Qsum l <= inject_Z (60 * 2 ^ attempt * (2 ^ Z.of_nat n - 1)))%Q.
Proof.
  revert attempt w. induction n as [|n IH]; intros attempt w Ha.
  - exists []. simpl. rewrite app_nil_r. repeat split; [lia | constructor|].
    unfold Qsum. simpl. apply (inject_Z_le 0). lia.
  - rewrite attempt_loop_S.
    pose proof (pow2_pos attempt Ha) as Hp.
    pose proof (pow2_pos (Z.of_nat n) ltac:(lia)) as Hq.
    assert (2 ^ Z.of_nat (S n) = 2 * 2 ^ Z.of_nat n) as E2
      by (rewrite Nat2Z.inj_succ, Z.pow_succ_r; lia).
    assert (2 ^ (attempt + 1) = 2 * 2 ^ attempt) as E1
      by (rewrite Z.pow_add_r; lia).
    destruct (sleeps_once_attempt_body prompt attempt max_retries Ha w)
      as [Hs|(d & [Hd0 Hd] & Hs & _)].
    + destruct (attempt_body _ _ _ _ _ w) as [[[v|]|e|] w1]; cbn [snd] in *;
        try (exists []; rewrite app_nil_r; split; [exact Hs|]; split; [simpl; lia|];
             split; [constructor|]; unfold Qsum; simpl; apply (inject_Z_le 0); nia).
      destruct (IH (attempt + 1) w1 ltac:(lia)) as (l & El & Ll & Fl & Sl).
      exists l. rewrite El, Hs. split; [reflexivity|]. split; [lia|]. split; [exact Fl|].
      eapply Qle_trans; [exact Sl|]. apply inject_Z_le. rewrite E1, E2. nia.
    + assert (Qsum [d] <= inject_Z (60 * 2 ^ attempt))%Q as Hd1
        by (unfold Qsum; simpl; lra).
      destruct (attempt_body _ _ _ _ _ w) as [[[v|]|e|] w1]; cbn [snd] in *;
        try (exists [d]; split; [exact Hs|]; split; [simpl; lia|];
             split; [repeat constructor; exact Hd0|];
             eapply Qle_trans; [exact Hd1|]; apply inject_Z_le; rewrite E2; nia).
      destruct (IH (attempt + 1) w1 ltac:(lia)) as (l & El & Ll & Fl & Sl).
      exists (d :: l). rewrite El, Hs, <- app_assoc. split; [reflexivity|].
      split; [simpl; lia|]. split; [now constructor|].
      change (d :: l) with ([d] ++ l)%list. rewrite Qsum_app.
      assert (inject_Z (60 * 2 ^ attempt * (2 ^ Z.of_nat (S n) - 1))
              == inject_Z (60 * 2 ^ attempt)
                 + inject_Z (60 * 2 ^ (attempt + 1) * (2 ^ Z.of_nat n - 1)))%Q as ->.
      { rewrite <- inject_Z_plus. rewrite E1, E2.
        replace (60 * 2 ^ attempt * (2 * 2 ^ Z.of_nat n - 1))
          with (60 * 2 ^ attempt + 60 * (2 * 2 ^ attempt) * (2 ^ Z.of_nat n - 1)) by ring.
        reflexivity. }
      lra.
Qed.

(** X18: the time a call of [analyze_content] spends backing off, on top
    of the governor's waits, is bounded: it sleeps at most once per
    attempt, and for at most [60 * (2 ^ max_retries - 1)] seconds in
    total, that is 420 seconds with the three attempts that
    [_process_single_item] allows. *)
Theorem analyze_content_backoff_bounded prompt max_retries w :
  0 <= max_retries ->
  exists l,
    sleeps (snd (analyze_content json_loads generate_content fuel prompt max_retries w))
      = (sleeps (snd (wait_if_needed fuel (estimate_tokens prompt + 600) w)) ++ l)%list /\
    (length l <= Z.to_nat max_retries)%nat /\ Forall (fun d => (0 <= d)%Q) l /\
    (Qsum l <= inject_Z (60 * (2 ^ max_retries - 1)))%Q /\
    (max_retries = 3 -> (Qsum l <= 420)%Q).
Proof.
  intros Hmax. unfold analyze_content, mbind, M_bind.
  assert (exists l,
    sleeps (snd (match wait_if_needed fuel (estimate_tokens prompt + 600) w with
                 | (Ok a, w') =>
                     attempt_loop json_loads generate_content (Z.to_nat max_retries)
                       prompt 0 max_retries w'
                 | (Raise e, w') => (Raise e, w')
                 | (Blocked, w') => (Blocked, w')
                 end))
      = (sleeps (snd (wait_if_needed fuel (estimate_tokens prompt + 600) w)) ++ l)%list /\
    (length l <= Z.to_nat max_retries)%nat /\ Forall (fun d => (0 <= d)%Q) l /\
    (Qsum l <= inject_Z (60 * (2 ^ max_retries - 1)))%Q) as (l & E & L & F & S0).
  { destruct (wait_if_needed fuel _ w) as [[[]|e|] w0]; cbn [snd].
    - destruct (attempt_loop_backoff (Z.to_nat max_retries) prompt 0 max_retries w0
                  ltac:(lia)) as (l & E & L & F & S0).
      exists l. repeat split; try assumption.
      rewrite Z2Nat.id in S0 by lia.
      eapply Qle_trans; [exact S0|]. apply inject_Z_le. simpl (2 ^ 0). lia.
    - exists []. rewrite app_nil_r. repeat split; [simpl; lia | constructor|].
      unfold Qsum. simpl. apply (inject_Z_le 0). pose proof (pow2_pos _ Hmax). lia.
    - exists []. rewrite app_nil_r. repeat split; [simpl; lia | constructor|].
      unfold Qsum. simpl. apply (inject_Z_le 0). pose proof (pow2_pos _ Hmax). lia. }
  exists l. repeat split; try assumption.
  intros ->. eapply Qle_trans; [exact S0|]. vm_compute. discriminate.
Qed.

End Backoff.

Lemma analyze_content_backoff_bounded_witness :
  exists l,
    sleeps (snd (analyze_content sample_json_loads (api_always (ApiRaise "429")) 1 "p" 3
                   initial_world))
      = (sleeps (snd (wait_if_needed 1 (estimate_tokens "p" + 600) initial_world)) ++ l)%list /\
    (length l <= Z.to_nat 3)%nat /\ Forall (fun d => (0 <= d)%Q) l /\
    (Qsum l <= inject_Z (60 * (2 ^ 3 - 1)))%Q /\
    (3 = 3 -> (Qsum l <= 420)%Q).
Proof.
  apply (analyze_content_backoff_bounded sample_json_loads (api_always (ApiRaise "429")) 1
           "p" 3 initial_world).
  lia.
Defined.


(** ** How long the governor holds a request *)

Lemma Forall_filter_keep {A} (P : A -> Prop) (f : A -> bool) l :
  Forall P l -> Forall P (List.filter f l).
Proof.
  induction 1 as [|x l Hx _ IH]; simpl; [constructor|].
  destruct (f x); [now constructor | exact IH].
Qed.

Lemma stamped_by_pruned b rl t :
  stamped_by b rl ->
  stamped_by b (mkLimiter (rpm_limit rl) (tpm_limit rl)
                  (in_window t (request_timestamps rl))
                  (List.filter (fun tc => Qltb (t - 60)%Q (fst tc)) (token_counts rl))).
Proof. intros [H1 H2]. split; cbn; now apply Forall_filter_keep. Qed.

(** Whatever the pass does, the clock does not go back, and it does not
    pass the latest stamp by more than 60.1 seconds unless it was there
    before. *)
Lemma wait_pass_clock est w b :
  stamped_by b (rate_limiter w) -> (now w <= b + 60.1)%Q ->
  (now w <= now (snd (wait_pass est w)))%Q /\
  (now (snd (wait_pass est w)) <= b + 60.1)%Q /\
  (fst (wait_pass est w) = Ok None -> stamped_by b (rate_limiter (snd (wait_pass est w)))).
Proof.
  intros Hst Hnow.
  pose proof (stamped_by_pruned b (rate_limiter w) (now w) Hst) as [P1 P2].
  cbn [request_timestamps token_counts] in P1, P2.
  destruct (wait_pass_outcomes est w)
    as [(e & -> & _)|[(oldest & r & Er & ->)|[(oldest & n & r & Er & ->)|(w' & Hw)]]].
  - cbn. split; [lra|]. split; [exact Hnow | discriminate].
  - rewrite Er in P1. inversion P1 as [|? ? Ho _]; subst.
    assert (Qltb (now w - 60) oldest = true) as Hin
      by (unfold in_window in Er; exact (filter_head _ _ _ _ Er)).
    apply Qltb_true in Hin. cbn. split; [lra|]. split; [lra|].
    intros _. split; cbn; [rewrite Er; exact P1 | exact P2].
  - rewrite Er in P2. inversion P2 as [|? ? Ho _]; subst. cbn [fst] in Ho.
    assert (Qltb (now w - 60) oldest = true) as Hin
      by (exact (filter_head (fun tc : Q * Z => Qltb (now w - 60)%Q (fst tc)) _ _ _ Er)).
    apply Qltb_true in Hin. cbn. split; [lra|]. split; [lra|].
    intros _. split; cbn; [exact P1 | rewrite Er; exact P2].
  - destruct (wait_pass_cases est w) as [(o & w1 & Hp & Hne & _)|(_ & _ & Hp)].
    + rewrite Hw in Hp. injection Hp as <- <-. now destruct Hne.
    + rewrite Hp. cbn. split; [lra|]. split; [exact Hnow | discriminate].
Qed.

Lemma wait_if_needed_clock fuel est w b :
  stamped_by b (rate_limiter w) -> (now w <= b + 60.1)%Q ->
  (now w <= now (snd (wait_if_needed fuel est w)))%Q /\
  (now (snd (wait_if_needed fuel est w)) <= b + 60.1)%Q.
Proof.
  revert w. induction fuel as [|fuel IH]; intros w Hst Hnow; [cbn; split; lra|].
  rewrite wait_if_needed_S.
  destruct (wait_pass_clock est w b Hst Hnow) as (C1 & C2 & C3).
  destruct (wait_pass est w) as [[[[]|]|e|] w1]; cbn [fst snd] in *; auto.
  destruct (IH w1 (C3 eq_refl) C2) as [D1 D2]. split; [lra | exact D2].
Qed.

(** X19: the governor holds a request for no more than 60.1 seconds.
    When no entry of its windows is stamped in the future, a call of
    [wait_if_needed] ends, or is still waiting after any number of passes,
    at a time of the clock that is not before the call and at most 60.1
    seconds after it. *)
Theorem governor_wait_bounded fuel est w :
  stamped_by (now w) (rate_limiter w) ->
  (now w <= now (snd (wait_if_needed fuel est w)))%Q /\
  (now (snd (wait_if_needed fuel est w)) <= now w + 60.1)%Q.
Proof. intros H. apply wait_if_needed_clock; [exact H | lra]. Qed.

Lemma governor_wait_bounded_witness :
  (now initial_world <= now (snd (wait_if_needed 3 1500 initial_world)))%Q /\
  (now (snd (wait_if_needed 3 1500 initial_world)) <= now initial_world + 60.1)%Q.
Proof. apply governor_wait_bounded. split; constructor. Defined.

(** ** The success rate of a run *)

Lemma counted_stats_ok n st st' : 0 <= n -> counted n st st' -> stats_ok st -> stats_ok st'.
Proof.
  unfold counted, stats_ok. intros Hn (A & B & C & D & E & F) (G & H & I & J & K).
  repeat split; lia.
Qed.

Lemma success_rate_bounds st : stats_ok st -> (0 <= success_rate st <= 100)%Q.
Proof.
  intros (_ & Hs & Hf & Hb & _). unfold success_rate, total_attempted.
  set (a := Z.max (successful st + failed st + blocked st) 1).
  assert (0 < a) as Ha by (unfold a; lia).
  assert (successful st <= a) as Hle by (unfold a; lia).
  assert (0 < inject_Z a)%Q as Hq by (change 0%Q with (inject_Z 0); rewrite <- Zlt_Qlt; exact Ha).
  assert (0 <= inject_Z (successful st))%Q as H0
    by (change 0%Q with (inject_Z 0); rewrite <- Zle_Qle; exact Hs).
  assert (inject_Z (successful st) <= inject_Z a)%Q as H1 by (rewrite <- Zle_Qle; exact Hle).
  assert (0 <= inject_Z (successful st) / inject_Z a <= 1)%Q as [R0 R1].
  { split.
    - apply Qle_shift_div_l; [exact Hq | lra].
    - apply Qle_shift_div_r; [exact Hq | lra]. }
  lra.
Qed.

(** X20: the success rate is a percentage. For counters that are not
    negative it lies between 0 and 100; and a run of [_process_items]
    that starts from such counters returns such counters, so the rates
    that [_create_summary] reports are within that range. *)
Theorem success_rate_range (json_loads : string -> exn + json)
    (generate_content : nat -> string -> ApiOutcome * Q) fuel (json_dumps : json -> string)
    (encodable : string -> bool) (pick : list (gmap string string) -> nat)
    item_type items enriched stats mineral mineral_dir w stats' w' :
  stats_ok stats ->
  _process_items json_loads generate_content fuel json_dumps encodable pick
    item_type items enriched stats mineral mineral_dir w = (Ok stats', w') ->
  (0 <= success_rate stats <= 100)%Q /\
  stats_ok stats' /\ (0 <= success_rate stats' <= 100)%Q.
Proof.
  intros Hok Hrun.
  destruct (process_items_effect json_loads generate_content fuel json_dumps
              encodable pick item_type items enriched stats mineral mineral_dir w)
    as (records & _ & _ & _ & C).
  rewrite Hrun in C. destruct (C stats' eq_refl) as (K & _).
  assert (stats_ok stats') as Hok' by (eapply counted_stats_ok; [|exact K|exact Hok]; lia).
  split; [now apply success_rate_bounds|]. split; [exact Hok' | now apply success_rate_bounds].
Qed.

Lemma success_rate_range_witness :
  (0 <= success_rate new_stats <= 100)%Q /\
  stats_ok (mkStats 1 1 0 0 0) /\ (0 <= success_rate (mkStats 1 1 0 0 0) <= 100)%Q.
Proof.
  apply (success_rate_range sample_json_loads
           (api_always (ApiReturn (ok_response sample_reply_text))) 1441
           sample_json_dumps every_text first_pending
           "Post" [sample_item "a" "t"; sample_item "b" "u"]
           (<[KStr "a" := JNull]> ∅) new_stats "gold" "data/gold" initial_world
           (mkStats 1 1 0 0 0) (snd sample_run)).
  - repeat split; simpl; lia.
  - vm_compute. reflexivity.
Defined.


(** ** Enriched data in the older format *)



Section Legacy.

Variable json_loads : string -> exn + json.
Variable generate_content : nat -> string -> ApiOutcome * Q.
Variable fuel : nat.
Variable json_dumps : json -> string.
Variable encodable : string -> bool.
Variable pick : list (gmap string string) -> nat.
Variable is_dir : string -> bool.
Variable load_items : string -> exn + list (gmap string string).
Variable isoformat : Q -> string.
Variable format_1f : Q -> string.
Variable json_dump_indent : json -> list string.

Hypothesis json_loads_objects : yields_objects json_loads.
Hypothesis enough_fuel : (1440 < fuel)%nat.

(** The codec encodes the line of every record and the chunks of every
    summary. *)
Hypothesis records_encodable : forall r, encodable (json_dumps r +:+ nl) = true.
Hypothesis summary_encodable :
  forall v, Forall (fun chunk => encodable chunk = true) (json_dump_indent v).

Local Abbreviation loaded :=
  (process_loaded json_loads generate_content fuel json_dumps encodable pick
     isoformat format_1f json_dump_indent).
Local Abbreviation mineral_run :=
  (process_mineral json_loads generate_content fuel json_dumps encodable pick
     is_dir load_items isoformat format_1f json_dump_indent).

Ltac path_neq :=
  let H := fresh in
  intros H; apply str_app_inj_l in H; vm_compute in H; discriminate H.



End Legacy.



(** ** The summary of a run *)

Section Report.

Variable json_loads : string -> exn + json.
Variable generate_content : nat -> string -> ApiOutcome * Q.
Variable fuel : nat.
Variable json_dumps : json -> string.
Variable encodable : string -> bool.
Variable pick : list (gmap string string) -> nat.
Variable is_dir : string -> bool.
Variable load_items : string -> exn + list (gmap string string).
Variable isoformat : Q -> string.
Variable format_1f : Q -> string.
Variable json_dump_indent : json -> list string.

Hypothesis json_loads_objects : yields_objects json_loads.
Hypothesis enough_fuel : (1440 < fuel)%nat.

(** The codec encodes the line of every record and the chunks of every
    summary. *)
Hypothesis records_encodable : forall r, encodable (json_dumps r +:+ nl) = true.
Hypothesis summary_encodable :
  forall v, Forall (fun chunk => encodable chunk = true) (json_dump_indent v).

Local Abbreviation process := (_process_items json_loads generate_content fuel json_dumps encodable pick).
Local Abbreviation loaded :=
  (process_loaded json_loads generate_content fuel json_dumps encodable pick
     isoformat format_1f json_dump_indent).
Local Abbreviation mineral_run :=
  (process_mineral json_loads generate_content fuel json_dumps encodable pick
     is_dir load_items isoformat format_1f json_dump_indent).

Lemma process_items_report item_type items enriched mineral mineral_dir w :
  governed w -> len mineral <= 1000 ->
  (forall item, In item items -> is_Some (item !! "id")) ->
  exists st w',
    process item_type items enriched (add_skipped (dict_len enriched) new_stats)
      mineral mineral_dir w = (Ok st, w') /\
    governed w' /\ report_ok enriched items st.
Proof.
  intros Hgov Hm Hids.
  destruct (process_items_governed json_loads generate_content fuel json_dumps
              encodable pick json_loads_objects enough_fuel item_type items enriched
              (add_skipped (dict_len enriched) new_stats) mineral mineral_dir w
              records_encodable Hgov Hm Hids) as (st & recs & E & F & S & _ & _ & _ & G).
  destruct (process_items_effect json_loads generate_content fuel json_dumps
              encodable pick
              item_type items enriched (add_skipped (dict_len enriched) new_stats)
              mineral mineral_dir w) as (recs' & _ & _ & _ & C).
  destruct (C st E) as ((T & _ & K & S1 & _ & B1) & _).
  destruct (process item_type items enriched _ mineral mineral_dir w) as [o w'].
  cbn [fst snd] in *. subst o. exists st, w'. split; [reflexivity|]. split; [exact G|].
  cbn in F, S, T, K, S1, B1. unfold report_ok. repeat split; lia.
Qed.

(** X22: what the summary reports. In the setting of a run that
    completes (source files in place, enriched files written by the
    engine, a governed world, a codec that encodes the line of every
    record and the chunks of the summary), the file
    [enrichment_summary.json] holds the chunks of the dump of a summary,
    one after the other, whose entry for each kind of item is built from
    counters with these properties: the skipped count is the size of the
    set loaded before the run, the processed count is the number of items
    that were not in that set, none is counted failed, and the successful
    and blocked counts add up to the processed count. The total it
    reports is the size of the loaded set plus the successful count: the
    blocked records, which the run appends to the enriched file as well,
    are not in it. *)
Theorem summary_reports_the_run mineral all_posts all_comments old_posts old_comments w :
  governed w -> len mineral <= 1000 ->
  sources is_dir load_items mineral all_posts all_comments w ->
  (forall item, In item (all_posts ++ all_comments) -> is_Some (item !! "id")) ->
  stored json_loads json_dumps ("data/" +:+ mineral) "posts" old_posts w ->
  stored json_loads json_dumps ("data/" +:+ mineral) "comments" old_comments w ->
  exists w' t enriched_posts enriched_comments post_stats comment_stats,
    mineral_run mineral w = (Ok Completed, w') /\
    files w' !! (("data/" +:+ mineral) +:+ "/" +:+ "enrichment_summary.json")
      = Some (String.concat EmptyString
                (json_dump_indent
                   (JObj [ ("enrichment_date", JStr (isoformat t));
                           ("mineral", JStr mineral);
                           ("model_used", JStr "gemini-1.5-flash-latest");
                           ("posts",
                            stats_summary format_1f
                              (dict_len enriched_posts + successful post_stats) post_stats);
                           ("comments",
                            stats_summary format_1f
                              (dict_len enriched_comments + successful comment_stats)
                              comment_stats) ]))) /\
    (forall k, is_Some (enriched_posts !! k) <-> ids_of old_posts k) /\
    (forall k, is_Some (enriched_comments !! k) <-> ids_of old_comments k) /\
    report_ok enriched_posts all_posts post_stats /\
    report_ok enriched_comments all_comments comment_stats.
Proof.
  intros Hgov Hm Hsrc Hids Sp Sc.
  destruct (load_stored json_loads json_dumps _ "posts" old_posts w Sp) as (ep & Ep & Kp).
  destruct (load_stored json_loads json_dumps _ "comments" old_comments w Sc)
    as (ec & Ec & Kc).
  destruct (process_items_report "Post" all_posts ep mineral ("data/" +:+ mineral) w
              Hgov Hm ltac:(intros x Hx; apply Hids, in_or_app; now left))
    as (sp & w1 & P1 & G1 & R1).
  destruct (process_items_report "Comment" all_comments ec mineral ("data/" +:+ mineral) w1
              G1 Hm ltac:(intros x Hx; apply Hids, in_or_app; now right))
    as (sc & w2 & P2 & G2 & R2).
  rewrite (process_mineral_eq json_loads generate_content fuel json_dumps encodable pick
             is_dir load_items isoformat format_1f json_dump_indent _ _ _ _ Hsrc).
  unfold process_loaded.
  rewrite (bind_ok _ _ _ _ _ (preferred_path_eq ("data/" +:+ mineral) "posts" w)).
  rewrite (bind_ok _ _ _ _ _ Ep).
  rewrite (bind_ok _ _ _ _ _ (preferred_path_eq ("data/" +:+ mineral) "comments" w)).
  rewrite (bind_ok _ _ _ _ _ Ec). cbv zeta.
  rewrite (bind_ok _ _ _ _ _ P1), (bind_ok _ _ _ _ _ P2).
  rewrite create_summary_file by exact summary_encodable.
  eexists _, (now w2), ep, ec, sp, sc. split; [reflexivity|]. split.
  - unfold set_opened, set_files. cbn [files]. now rewrite lookup_insert_eq.
  - auto.
Qed.

End Report.

Lemma summary_reports_the_run_witness :
  exists w' t enriched_posts enriched_comments post_stats comment_stats,
    process_mineral sample_record_loads
      (api_always (ApiReturn (ok_response sample_reply_text))) 1441 sample_json_dumps
      every_text first_pending (fun _ => true) sample_load_items
      (fun _ => "now") (fun _ => "0.0") sample_dump_indent
      "gold" sample_mineral_world = (Ok Completed, w') /\
    files w' !! (("data/" +:+ "gold") +:+ "/" +:+ "enrichment_summary.json")
      = Some (String.concat EmptyString
               (sample_dump_indent
                (JObj [ ("enrichment_date", JStr ((fun _ : Q => "now") t));
                        ("mineral", JStr "gold");
                        ("model_used", JStr "gemini-1.5-flash-latest");
                        ("posts",
                         stats_summary (fun _ => "0.0")
                           (dict_len enriched_posts + successful post_stats) post_stats);
                        ("comments",
                         stats_summary (fun _ => "0.0")
                           (dict_len enriched_comments + successful comment_stats)
                           comment_stats) ]))) /\
    (forall k, is_Some (enriched_posts !! k) <-> ids_of [] k) /\
    (forall k, is_Some (enriched_comments !! k) <-> ids_of [] k) /\
    report_ok enriched_posts [sample_item "a" "t"] post_stats /\
    report_ok enriched_comments [sample_item "c" "u"] comment_stats.
Proof.
  apply (summary_reports_the_run sample_record_loads
           (api_always (ApiReturn (ok_response sample_reply_text))) 1441 sample_json_dumps
           every_text first_pending (fun _ => true) sample_load_items
           (fun _ => "now") (fun _ => "0.0") sample_dump_indent
           sample_record_loads_yields_objects ltac:(lia)
           (fun _ => eq_refl) sample_dump_encodable
           "gold" [sample_item "a" "t"] [sample_item "c" "u"] [] []).
  - exact initial_world_governed.
  - vm_compute. discriminate.
  - split; [reflexivity|]. split; eexists; split; reflexivity.
  - intros item [<-|[<-|[]]]; eexists; reflexivity.
  - split; [reflexivity|]. split; [reflexivity | constructor].
  - split; [reflexivity|]. split; [reflexivity | constructor].
Defined.
